(** * DocuSense: ingestion and retrieval pipeline

    A shallow embedding of the Python sources under [backend/app]:
    - [core/chunking.py]   ([DocumentChunker]),
    - [core/embeddings.py] ([EmbeddingService.embed_batch]),
    - [core/retrieval.py]  ([HybridRetriever]),
    - [core/llm.py]        ([LLMService.check_answerability]),
    - [api/ingest.py]      ([process_document], [upload_document], [ingest_url]),
    - [api/query.py]       ([ask_question]).

    Conventions.
    - Python [int] is [Z]; lengths and ranks produced by [len] and
      [enumerate] are [nat] and are injected with [Z.of_nat].
    - Python [str] is [string]; a character is a code point below 256.
    - Python [float] scores are exact rationals [Q].  No statement below
      depends on rounding: scores are only added, divided by a positive
      integer and compared.
    - A [dict] whose iteration order matters is an association list in
      insertion order.
    - Third-party calls (tiktoken, sentence-transformers, rank_bm25, numpy's
      [argsort], the SQL engine, the LLM backend, [requests]) are fields of
      the records of ports that the functions take. *)

From Stdlib Require Import List String Ascii ZArith QArith Qminmax Lia Bool Arith.
From Stdlib Require Import Permutation Sorted.
Import ListNotations.

#[local] Open Scope string_scope.
#[local] Open Scope Z_scope.
#[local] Open Scope list_scope.

(* ================================================================== *)
(** * Python built-ins on strings and lists *)
(* ================================================================== *)

Module Py.

(** [str.isspace] on one character, also what [\s] matches in a [str]
    pattern: TAB..CR, FS..US, space, NEL and NBSP. *)
Definition is_space (c : ascii) : bool :=
  let n := nat_of_ascii c in
  ((9 <=? n) && (n <=? 13) || (28 <=? n) && (n <=? 32)
   || (n =? 133) || (n =? 160))%nat.

Definition newline : ascii := ascii_of_nat 10.

Definition is_newline (c : ascii) : bool := (nat_of_ascii c =? 10)%nat.

Fixpoint lstrip (s : string) : string :=
  match s with
  | EmptyString => EmptyString
  | String c s' => if is_space c then lstrip s' else s
  end.

Fixpoint rstrip (s : string) : string :=
  match s with
  | EmptyString => EmptyString
  | String c s' =>
      match rstrip s' with
      | EmptyString => if is_space c then EmptyString else String c EmptyString
      | r => String c r
      end
  end.

(** [s.strip()] *)
Definition strip (s : string) : string := rstrip (lstrip s).

(** Truthiness of a [str]. *)
Definition nonempty (s : string) : bool :=
  match s with EmptyString => false | _ => true end.

(** [sep.join(l)] *)
Definition join (sep : string) (l : list string) : string := String.concat sep l.

(** [len(s)] *)
Definition len (s : string) : Z := Z.of_nat (String.length s).

Definition snoc (s : string) (c : ascii) : string := s ++ String c EmptyString.

(** [s.split(sep)] for a one-character separator: every occurrence
    splits, empty pieces are kept. *)
Fixpoint split_char_aux (sep : ascii) (s cur : string) : list string :=
  match s with
  | EmptyString => [cur]
  | String c s' =>
      if Ascii.eqb c sep then cur :: split_char_aux sep s' EmptyString
      else split_char_aux sep s' (snoc cur c)
  end.

Definition split_char (sep : ascii) (s : string) : list string :=
  split_char_aux sep s EmptyString.

(** [s.split()]: maximal runs of non-space characters. *)
Fixpoint split_ws_aux (s cur : string) : list string :=
  match s with
  | EmptyString => if nonempty cur then [cur] else []
  | String c s' =>
      if is_space c
      then (if nonempty cur then cur :: split_ws_aux s' EmptyString
            else split_ws_aux s' EmptyString)
      else split_ws_aux s' (snoc cur c)
  end.

Definition split_ws (s : string) : list string := split_ws_aux s EmptyString.

(** [re.split(r'\n\n+', s)]: a separator is a maximal run of two or more
    newlines; [nl] counts the newlines read since the last other
    character. *)
Fixpoint split_paragraphs_aux (s cur : string) (nl : nat) : list string :=
  match s with
  | EmptyString =>
      match nl with
      | O => [cur]
      | S O => [snoc cur newline]
      | _ => [cur; EmptyString]
      end
  | String c s' =>
      if is_newline c then split_paragraphs_aux s' cur (S nl)
      else match nl with
           | O => split_paragraphs_aux s' (snoc cur c) O
           | S O => split_paragraphs_aux s' (snoc (snoc cur newline) c) O
           | _ => cur :: split_paragraphs_aux s' (String c EmptyString) O
           end
  end.

Definition split_paragraphs (s : string) : list string :=
  split_paragraphs_aux s EmptyString O.

Definition is_sentence_end (c : ascii) : bool :=
  let n := nat_of_ascii c in ((n =? 46) || (n =? 33) || (n =? 63))%nat.

(** [re.split(r'(?<=[.!?])\s+', s)]: a separator is a maximal run of
    white space that starts right after one of [.], [!], [?].
    [prev] says that the character just read ends a sentence, [in_sep]
    that a separator is being read. *)
Fixpoint split_sentences_aux (s cur : string) (prev in_sep : bool) : list string :=
  match s with
  | EmptyString => [cur]
  | String c s' =>
      if in_sep then
        if is_space c then split_sentences_aux s' cur false true
        else split_sentences_aux s' (String c EmptyString) (is_sentence_end c) false
      else if is_space c && prev then cur :: split_sentences_aux s' EmptyString false true
      else split_sentences_aux s' (snoc cur c) (is_sentence_end c) false
  end.

Definition split_sentences (s : string) : list string :=
  split_sentences_aux s EmptyString false false.

(** [l[-n:]] for [n >= 1]. *)
Definition last_n {A} (n : nat) (l : list A) : list A :=
  skipn (List.length l - n)%nat l.

(** [enumerate] *)
Fixpoint enumerate_from {A} (i : nat) (l : list A) : list (nat * A) :=
  match l with
  | [] => []
  | x :: l' => (i, x) :: enumerate_from (S i) l'
  end.

Definition enumerate {A} (l : list A) : list (nat * A) := enumerate_from 0 l.

(** ** Dictionaries in insertion order *)

Section Dict.
Context {K V : Type} (eqb : K -> K -> bool).

Fixpoint dict_get (d : list (K * V)) (k : K) : option V :=
  match d with
  | [] => None
  | (k', v) :: d' => if eqb k k' then Some v else dict_get d' k
  end.

(** [d[k] = v]: an existing key keeps its place, a new key goes last. *)
Fixpoint dict_set (d : list (K * V)) (k : K) (v : V) : list (K * V) :=
  match d with
  | [] => [(k, v)]
  | (k', v') :: d' =>
      if eqb k k' then (k', v) :: d' else (k', v') :: dict_set d' k v
  end.

Definition dict_keys (d : list (K * V)) : list K := map fst d.

End Dict.

(** Exceptions: a computation returns a value or raises a message. *)
Inductive result (A : Type) : Type :=
| Ok (a : A)
| Raise (msg : string).
Arguments Ok {A} a.
Arguments Raise {A} msg.

Definition bind {A B} (r : result A) (k : A -> result B) : result B :=
  match r with
  | Ok a => k a
  | Raise m => Raise m
  end.

End Py.

Notation "x <- c1 ;; c2" := (Py.bind c1 (fun x => c2))
  (at level 61, c1 at next level, right associativity).

(* ================================================================== *)
(** * core/chunking.py *)
(* ================================================================== *)

Module Chunking.
Import Py.

(** Values stored in a chunk's [meta_data] dictionary. *)
Inductive meta_value : Type :=
| MStr (s : string)
| MBool (b : bool)
| MNone.

Definition meta : Type := list (string * meta_value).

Definition meta_get (m : meta) (k : string) : option meta_value :=
  dict_get String.eqb m k.

Definition meta_set (m : meta) (k : string) (v : meta_value) : meta :=
  dict_set String.eqb m k v.

(** The dictionaries that [chunk_text] returns. *)
Record Chunk : Type := mkChunk {
  text : string;
  chunk_index : Z;
  token_count : Z;
  start_char : Z;
  meta_data : meta
}.

(** [DocumentChunker]: the two sizes and the tokenizer (tiktoken's
    [encode] followed by [len]). *)
Record DocumentChunker : Type := mkChunker {
  chunk_size : Z;
  chunk_overlap : Z;
  tokenizer : string -> nat
}.

Definition count_tokens (self : DocumentChunker) (t : string) : Z :=
  Z.of_nat (tokenizer self t).

(** The local variables of [chunk_text]'s loop. *)
Record state : Type := mkState {
  chunks : list Chunk;
  current_chunk : list string;
  current_tokens : Z;
  cur_index : Z
}.

Definition init : state := mkState [] [] 0 0.

(** [chunks.append({...})] with the given [chunk_method]. *)
Definition emit (method : string) (st : state) : list Chunk :=
  chunks st ++
  [ mkChunk (join " " (current_chunk st))
            (cur_index st)
            (current_tokens st)
            (len (join " " (map text (chunks st))))
            [ ("chunk_method", MStr method);
              ("has_overlap", MBool (0 <? cur_index st)) ] ].

(** One iteration of [for sentence in sentences]. *)
Definition sentence_step (self : DocumentChunker) (st : state) (sentence : string)
  : state :=
  let sentence_tokens := count_tokens self sentence in
  if current_tokens st + sentence_tokens >? chunk_size self then
    match current_chunk st with
    | [] => st
    | _ :: _ =>
        let chunks' := emit "sentence_split" st in
        let index' := cur_index st + 1 in
        if (chunk_overlap self >? 0) && (1 <? List.length (current_chunk st))%nat then
          let overlap_text := join " " (last_n 2 (current_chunk st)) in
          let overlap_tokens := count_tokens self overlap_text in
          mkState chunks' (last_n 2 (current_chunk st) ++ [sentence])
                  (overlap_tokens + sentence_tokens) index'
        else
          mkState chunks' [sentence] sentence_tokens index'
    end
  else
    mkState (chunks st) (current_chunk st ++ [sentence])
            (current_tokens st + sentence_tokens) (cur_index st).

(** The [else] branch of [if para_tokens > self.chunk_size]. *)
Definition paragraph_step (self : DocumentChunker) (st : state) (para : string)
  : state :=
  let para_tokens := count_tokens self para in
  if current_tokens st + para_tokens >? chunk_size self then
    match current_chunk st with
    | [] => st
    | _ :: _ =>
        let chunks' := emit "paragraph_split" st in
        let index' := cur_index st + 1 in
        if chunk_overlap self >? 0 then
          let overlap_text := last (current_chunk st) "" in
          let overlap_tokens :=
            if nonempty overlap_text then count_tokens self overlap_text else 0 in
          mkState chunks'
                  (if nonempty overlap_text then [overlap_text; para] else [para])
                  (overlap_tokens + para_tokens) index'
        else
          mkState chunks' [para] para_tokens index'
    end
  else
    mkState (chunks st) (current_chunk st ++ [para])
            (current_tokens st + para_tokens) (cur_index st).

(** One iteration of [for para in paragraphs]. *)
Definition para_step (self : DocumentChunker) (st : state) (para0 : string) : state :=
  let para := strip para0 in
  if nonempty para then
    if count_tokens self para >? chunk_size self
    then fold_left (sentence_step self) (split_sentences para) st
    else paragraph_step self st para
  else st.

(** After the loop: the last chunk. *)
Definition finish (st : state) : list Chunk :=
  match current_chunk st with
  | [] => chunks st
  | _ :: _ => emit "final_chunk" st
  end.

Definition chunk_text (self : DocumentChunker) (text0 : string) : list Chunk :=
  let t := strip text0 in
  if nonempty t
  then finish (fold_left (para_step self) (split_paragraphs t) init)
  else [].

(** ** [chunk_markdown] *)

Definition is_hash (c : ascii) : bool := (nat_of_ascii c =? 35)%nat.

Fixpoint span_hashes (s : string) : nat * string :=
  match s with
  | String c s' =>
      if is_hash c then let '(n, r) := span_hashes s' in (S n, r) else (O, s)
  | EmptyString => (O, EmptyString)
  end.

Fixpoint last_char (s : string) : option ascii :=
  match s with
  | EmptyString => None
  | String c EmptyString => Some c
  | String _ s' => last_char s'
  end.

(** [re.match(r'^(#{1,6})\s+(.+)$', line)] on a line without newline,
    giving [group(2)]: one to six [#], white space, and at least one more
    character.  When all that follows the [#]s is white space, the pattern
    backtracks and the title is the last of these characters. *)
Definition header_match (line : string) : option string :=
  let '(n, r) := span_hashes line in
  if ((1 <=? n) && (n <=? 6))%nat then
    match r with
    | String c _ =>
        if is_space c then
          match lstrip r with
          | EmptyString =>
              if (2 <=? String.length r)%nat
              then option_map (fun c => String c EmptyString) (last_char r)
              else None
          | title => Some title
          end
        else None
    | EmptyString => None
    end
  else None.

Definition header_value (h : option string) : meta_value :=
  match h with Some s => MStr s | None => MNone end.

(** [chunk['meta_data']['header'] = current_header] *)
Definition set_header (h : option string) (c : Chunk) : Chunk :=
  mkChunk (text c) (chunk_index c) (token_count c) (start_char c)
          (meta_set (meta_data c) "header" (header_value h)).

Record md_state : Type := mkMd {
  md_chunks : list Chunk;
  current_section : list string;
  current_header : option string
}.

Definition newline_str : string := String newline EmptyString.

(** The chunks of the section read so far, appended to [chunks]. *)
Definition flush_section (self : DocumentChunker) (st : md_state) : list Chunk :=
  match current_section st with
  | [] => md_chunks st
  | _ :: _ =>
      md_chunks st ++
      map (set_header (current_header st))
          (chunk_text self (join newline_str (current_section st)))
  end.

Definition line_step (self : DocumentChunker) (st : md_state) (line : string)
  : md_state :=
  match header_match line with
  | Some title => mkMd (flush_section self st) [line] (Some title)
  | None => mkMd (md_chunks st) (current_section st ++ [line]) (current_header st)
  end.

(** [chunk['chunk_index'] = i] *)
Definition set_index (ic : nat * Chunk) : Chunk :=
  let '(i, c) := ic in
  mkChunk (text c) (Z.of_nat i) (token_count c) (start_char c) (meta_data c).

Definition chunk_markdown (self : DocumentChunker) (text0 : string) : list Chunk :=
  let st := fold_left (line_step self) (split_char newline text0) (mkMd [] [] None) in
  map set_index (enumerate (flush_section self st)).

(** A tokenizer for examples: one token per word. *)
Definition word_tokenizer (s : string) : nat := List.length (split_ws s).

End Chunking.

(* ================================================================== *)
(** * core/embeddings.py *)
(* ================================================================== *)

Module Embeddings.
Import Py.

(** One row of the array that the model returns. *)
Definition embedding : Type := list Q.

(** [EmbeddingService]: the model's name and its [encode], which may
    raise. *)
Record EmbeddingService : Type := mkEmbeddingService {
  model_name : string;
  encode : list string -> result (list embedding)
}.

(** [str.lower] on one character: A-Z and the capital letters of
    Latin-1. *)
Definition lower_char (c : ascii) : ascii :=
  let n := nat_of_ascii c in
  if ((65 <=? n) && (n <=? 90) || (192 <=? n) && (n <=? 222) && negb (n =? 215))%nat
  then ascii_of_nat (n + 32) else c.

Fixpoint lower (s : string) : string :=
  match s with
  | EmptyString => EmptyString
  | String c s' => String (lower_char c) (lower s')
  end.

(** [needle in hay] *)
Fixpoint contains (needle hay : string) : bool :=
  String.prefix needle hay ||
  match hay with
  | EmptyString => false
  | String _ hay' => contains needle hay'
  end.

(** [embed_text] on a list of texts. *)
Definition embed_text (self : EmbeddingService) (texts : list string)
  : result (list embedding) :=
  encode self texts.

Definition bge_instruction : string :=
  "Represent this sentence for searching relevant passages: ".

Definition embed_query (self : EmbeddingService) (query : string) : result embedding :=
  let query' :=
    if contains "bge" (lower (model_name self))
    then (bge_instruction ++ query)%string else query in
  rows <- embed_text self [query'] ;;
  match rows with
  | row :: _ => Ok row
  | [] => Raise "IndexError: index 0 is out of bounds"
  end.

(** [texts[i:i + batch_size] for i in range(0, len(texts), batch_size)];
    the fuel is [len(texts)]. *)
Fixpoint batches {A} (fuel batch_size : nat) (l : list A) : list (list A) :=
  match fuel with
  | O => []
  | S fuel' =>
      match l with
      | [] => []
      | _ :: _ => firstn batch_size l :: batches fuel' batch_size (skipn batch_size l)
      end
  end.

(** The loop of [embed_batch]: [all_embeddings]. *)
Fixpoint embed_all (self : EmbeddingService) (bs : list (list string))
  : result (list (list embedding)) :=
  match bs with
  | [] => Ok []
  | b :: bs' =>
      e <- embed_text self b ;;
      es <- embed_all self bs' ;;
      Ok (e :: es)
  end.

(** [np.vstack]: an empty sequence of arrays is a [ValueError]. *)
Definition vstack (arrays : list (list embedding)) : result (list embedding) :=
  match arrays with
  | [] => Raise "ValueError: need at least one array to concatenate"
  | _ :: _ => Ok (List.concat arrays)
  end.

Definition embed_batch (self : EmbeddingService) (texts : list string)
  (batch_size : nat) : result (list embedding) :=
  match batch_size with
  | O => Raise "ValueError: range() arg 3 must not be zero"
  | S _ =>
      all_embeddings <- embed_all self (batches (List.length texts) batch_size texts) ;;
      vstack all_embeddings
  end.

End Embeddings.

(* ================================================================== *)
(** * models/database.py *)
(* ================================================================== *)

Module Db.
Import Py.

Record Collection : Type := mkCollection {
  collection_id_of : Z;
  collection_name : string
}.

Record Document : Type := mkDocument {
  doc_id : Z;
  doc_collection_id : Z;
  doc_title : string;
  doc_source_type : string;
  doc_source_url : option string;
  doc_checksum : option string
}.

Record Chunk : Type := mkChunk {
  chunk_id : Z;
  document_id : Z;
  text : string;
  token_count : Z;
  chunk_index : Z;
  start_char : Z;
  end_char : Z;
  embedding : Embeddings.embedding;
  meta_data : Chunking.meta
}.

Inductive job_status : Type := pending | processing | completed | failed.

Record IngestJob : Type := mkJob {
  job_id : string;
  job_collection_id : Z;
  job_document_id : Z;
  status : job_status;
  progress : Z;
  error_message : option string;
  completed_at : option Z
}.

Record Citation : Type := mkCitation {
  cit_index : Z;
  cit_text : string;
  cit_document_id : Z;
  cit_chunk_index : Z
}.

Record Query : Type := mkQuery {
  query_id : Z;
  query_collection_id : Z;
  question : string;
  answer : string;
  citations : list Citation;
  latency_ms : Z;
  llm_model : string;
  retrieval_score : Q
}.

Record QueryChunk : Type := mkQueryChunk {
  qc_query_id : Z;
  qc_chunk_id : Z;
  rank : Z;
  qc_score : Q
}.

(** The committed tables, and the sequences behind the integer primary
    keys. *)
Record Store : Type := mkStore {
  collections : list Collection;
  documents : list Document;
  chunks : list Chunk;
  jobs : list IngestJob;
  queries : list Query;
  query_chunks : list QueryChunk;
  next_document_id : Z;
  next_chunk_id : Z;
  next_query_id : Z
}.

Definition empty : Store := mkStore [] [] [] [] [] [] 1 1 1.

(** [db.query(T).filter(...).first()] *)
Definition find_collection (db : Store) (cid : Z) : option Collection :=
  find (fun c => collection_id_of c =? cid) (collections db).

Definition find_job (db : Store) (jid : string) : option IngestJob :=
  find (fun j => String.eqb (job_id j) jid) (jobs db).

Definition option_eqb (a b : option string) : bool :=
  match a, b with
  | Some x, Some y => String.eqb x y
  | _, _ => false
  end.

(** [filter(Document.checksum == checksum).first()]; a NULL checksum
    equals nothing. *)
Definition find_document_by_checksum (db : Store) (checksum : string)
  : option Document :=
  find (fun d => option_eqb (doc_checksum d) (Some checksum)) (documents db).

(** The chunks of one document, and of the documents of one collection. *)
Definition chunks_of_document (db : Store) (did : Z) : list Chunk :=
  filter (fun c => document_id c =? did) (chunks db).

Definition document_in_collection (db : Store) (cid did : Z) : bool :=
  existsb (fun d => (doc_id d =? did) && (doc_collection_id d =? cid)) (documents db).

Definition chunks_of_collection (db : Store) (cid : Z) : list Chunk :=
  filter (fun c => document_in_collection db cid (document_id c)) (chunks db).

(** [filter(Chunk.id.in_(ids)).all()] *)
Definition chunks_with_ids (db : Store) (ids : list Z) : list Chunk :=
  filter (fun c => existsb (Z.eqb (chunk_id c)) ids) (chunks db).

End Db.

(* ================================================================== *)
(** * core/retrieval.py *)
(* ================================================================== *)

Module Retrieval.
Import Py.

(** Comparison of two scores: [a < b]. *)
Definition Qltb (a b : Q) : bool := negb (Qle_bool b a).

(** [sorted(l, key=key, reverse=True)]: Python's sort is stable, also
    when reversed, so an element goes after those of greater or equal
    key that precede it. *)
Fixpoint insert_desc {A} (key : A -> Q) (x : A) (l : list A) : list A :=
  match l with
  | [] => [x]
  | y :: ys =>
      if Qltb (key x) (key y) then y :: insert_desc key x ys else x :: y :: ys
  end.

Definition sorted_desc {A} (key : A -> Q) (l : list A) : list A :=
  fold_right (insert_desc key) [] l.

(** A stable ascending sort of the indices of an array: what
    [np.argsort] returns on an array that its insertion sort handles. *)
Fixpoint insert_asc {A} (key : A -> Q) (x : A) (l : list A) : list A :=
  match l with
  | [] => [x]
  | y :: ys =>
      if Qltb (key y) (key x) then y :: insert_asc key x ys else x :: y :: ys
  end.

Definition argsort_stable (scores : list Q) : list nat :=
  fold_right (insert_asc (fun i => nth i scores 0%Q)) []
             (seq 0 (List.length scores)).

(** The libraries behind the retriever: [BM25Okapi(corpus).get_scores],
    [np.argsort], and the pgvector query of [vector_search]. *)
Record Ports : Type := mkPorts {
  bm25_get_scores : list (list string) -> list string -> list Q;
  argsort : list Q -> list nat;
  sql_nearest : Db.Store -> Embeddings.embedding -> Z -> nat -> list (Z * Q)
}.

(** What [np.argsort] promises: the indices of the array, in ascending
    order of their values.  Nothing is promised on equal values. *)
Definition argsort_spec (f : list Q -> list nat) : Prop :=
  forall scores,
    Permutation (f scores) (seq 0 (List.length scores)) /\
    StronglySorted (fun i j => (nth i scores 0 <= nth j scores 0)%Q) (f scores).

Record HybridRetriever : Type := mkRetriever {
  embedding_service : Embeddings.EmbeddingService;
  bm25_index : option (list (list string));
  chunk_ids : list Z
}.

(** [\w] on one character: letters, digits and the underscore. *)
Definition is_word (c : ascii) : bool :=
  let n := nat_of_ascii c in
  ((48 <=? n) && (n <=? 57) || (65 <=? n) && (n <=? 90) || (n =? 95)
   || (97 <=? n) && (n <=? 122)
   || (n =? 170) || (n =? 178) || (n =? 179) || (n =? 181) || (n =? 185)
   || (n =? 186) || (188 <=? n) && (n <=? 190)
   || (192 <=? n) && (n <=? 214) || (216 <=? n) && (n <=? 246)
   || (248 <=? n))%nat.

Definition space : ascii := ascii_of_nat 32.

(** [re.sub(r'[^\w\s]', ' ', text)] *)
Fixpoint sub_punctuation (s : string) : string :=
  match s with
  | EmptyString => EmptyString
  | String c s' =>
      String (if is_word c || is_space c then c else space) (sub_punctuation s')
  end.

Definition _tokenize (text : string) : list string :=
  split_ws (sub_punctuation text).

Definition build_bm25_index (self : HybridRetriever) (chunks : list Db.Chunk)
  : HybridRetriever :=
  mkRetriever (embedding_service self)
              (Some (map (fun c => _tokenize (Embeddings.lower (Db.text c))) chunks))
              (map Db.chunk_id chunks).

Definition vector_search (lib : Ports) (db : Db.Store)
  (query_embedding : Embeddings.embedding) (collection_id : Z) (top_k : nat)
  : list (Z * Q) :=
  sql_nearest lib db query_embedding collection_id top_k.

(** [a[-top_k:]]: with [top_k = 0] the slice is [a[0:]], the whole
    array. *)
Definition neg_slice {A} (top_k : nat) (l : list A) : list A :=
  match top_k with
  | O => l
  | S _ => last_n top_k l
  end.

(** [argsort] returns indices of [scores], and [chunk_ids] is as long as
    [scores], so the two subscripts below are in range; [nth]'s default
    stands for the [IndexError] that cannot occur. *)
Definition keyword_search (lib : Ports) (self : HybridRetriever) (query : string)
  (top_k : nat) : list (Z * Q) :=
  match bm25_index self with
  | None => []
  | Some corpus =>
      let tokenized_query := _tokenize (Embeddings.lower query) in
      let scores := bm25_get_scores lib corpus tokenized_query in
      let top_indices := rev (neg_slice top_k (argsort lib scores)) in
      flat_map (fun idx =>
                  if Qltb 0 (nth idx scores 0%Q)
                  then [(nth idx (chunk_ids self) 0, nth idx scores 0%Q)]
                  else [])
               top_indices
  end.

(** The dictionaries that [hybrid_search] returns. *)
Record Hit : Type := mkHit {
  chunk : Db.Chunk;
  score : Q;
  hit_text : string;
  hit_document_id : Z;
  hit_chunk_index : Z
}.

Definition k_rrf : Z := 60.

(** [weight / (k + rank + 1)] *)
Definition rrf (weight : Q) (rank : nat) : Q :=
  (weight / inject_Z (k_rrf + Z.of_nat rank + 1))%Q.

Definition scores_dict : Type := list (Z * Q).

(** [scores[chunk_id] = scores.get(chunk_id, 0) + x] *)
Definition add_score (scores : scores_dict) (chunk_id : Z) (x : Q) : scores_dict :=
  let old := match dict_get Z.eqb scores chunk_id with
             | Some v => v
             | None => 0%Q
             end in
  dict_set Z.eqb scores chunk_id (old + x)%Q.

(** [for rank, (chunk_id, score) in enumerate(vector_results)] *)
Definition add_vector_scores (vector_weight : Q) (vector_results : list (Z * Q))
  (scores : scores_dict) : scores_dict :=
  fold_left (fun d '(rank, (chunk_id, _)) => add_score d chunk_id (rrf vector_weight rank))
            (enumerate vector_results) scores.

(** [for rank, (chunk_id, score) in enumerate(keyword_results)], with its
    test [chunk_id in [c[0] for c in vector_results]]. *)
Definition add_keyword_scores (vector_weight : Q) (vector_results keyword_results : list (Z * Q))
  (scores : scores_dict) : scores_dict :=
  fold_left (fun d '(rank, (chunk_id, _)) =>
               if existsb (Z.eqb chunk_id) (map fst vector_results)
               then add_score d chunk_id (rrf (1 - vector_weight) rank)
               else d)
            (enumerate keyword_results) scores.

(** The fused scores after both loops. *)
Definition fused_scores (vector_weight : Q) (vector_results keyword_results : list (Z * Q))
  : scores_dict :=
  add_keyword_scores vector_weight vector_results keyword_results
    (add_vector_scores vector_weight vector_results []).

(** [sorted(scores.items(), key=lambda x: x[1], reverse=True)[:top_k]] *)
Definition sorted_chunks (top_k : nat) (scores : scores_dict) : list (Z * Q) :=
  firstn top_k (sorted_desc snd scores).

(** [{chunk.id: chunk for chunk in chunks}] *)
Definition chunk_dict (chunks : list Db.Chunk) : list (Z * Db.Chunk) :=
  fold_left (fun d c => dict_set Z.eqb d (Db.chunk_id c) c) chunks [].

(** The part of [hybrid_search] after the two searches. *)
Definition fuse (db : Db.Store) (vector_results keyword_results : list (Z * Q))
  (top_k : nat) (vector_weight : Q) : list Hit :=
  let scores := fused_scores vector_weight vector_results keyword_results in
  let sorted := sorted_chunks top_k scores in
  let ids := map fst sorted in
  let chunks := Db.chunks_with_ids db ids in
  let cd := chunk_dict chunks in
  flat_map (fun '(chunk_id, sc) =>
              match dict_get Z.eqb cd chunk_id with
              | Some c => [mkHit c sc (Db.text c) (Db.document_id c) (Db.chunk_index c)]
              | None => []
              end)
           sorted.

Definition hybrid_search (lib : Ports) (self : HybridRetriever) (db : Db.Store)
  (query : string) (collection_id : Z) (top_k : nat) (vector_weight : Q)
  : result (list Hit) :=
  query_embedding <- Embeddings.embed_query (embedding_service self) query ;;
  let vector_results := vector_search lib db query_embedding collection_id (top_k * 2) in
  let keyword_results := keyword_search lib self query (top_k * 2) in
  Ok (fuse db vector_results keyword_results top_k vector_weight).

Definition default_vector_weight : Q := 7 # 10.

(** The rank of a chunk in a list of ids: the place of its first
    occurrence. *)
Fixpoint first_index (x : Z) (l : list Z) : nat :=
  match l with
  | [] => O
  | y :: l' => if Z.eqb x y then O else S (first_index x l')
  end.

End Retrieval.

(* ================================================================== *)
(** * core/llm.py *)
(* ================================================================== *)

Module Llm.
Import Py.

(** What [generate_answer] returns. *)
Record AnswerData : Type := mkAnswerData {
  ad_answer : string;
  ad_citations : list Db.Citation;
  ad_latency_ms : Z;
  ad_model : string
}.

(** [LLMService]: [generate_answer] calls the language model and is a
    port. *)
Record LLMService : Type := mkLLM {
  generate_answer : string -> list Retrieval.Hit -> AnswerData
}.

(** [set(s.lower().split())], as a list without repetition. *)
Definition word_set (s : string) : list string :=
  nodup string_dec (split_ws (Embeddings.lower s)).

Definition check_answerability (query : string) (contexts : list Retrieval.Hit) : Q :=
  match contexts with
  | [] => 0%Q
  | _ :: _ =>
      let query_words := word_set query in
      let context_words :=
        flat_map (fun ctx => split_ws (Embeddings.lower (Retrieval.hit_text ctx))) contexts in
      let common :=
        filter (fun w => existsb (String.eqb w) context_words) query_words in
      let overlap :=
        match query_words with
        | [] => 0%Q
        | _ :: _ => (Z.of_nat (List.length common) # Pos.of_nat (List.length query_words))%Q
        end in
      let base_confidence := (3 # 10)%Q in
      let confidence := (base_confidence + overlap * (5 # 10))%Q in
      Qmin confidence 1%Q
  end.

End Llm.

(* ================================================================== *)
(** * api/query.py *)
(* ================================================================== *)

Module QueryApi.
Import Py.

Record QueryRequest : Type := mkQueryRequest {
  question : string;
  collection_id : Z;
  top_k : nat;
  use_hybrid : bool
}.

Record QueryResponse : Type := mkQueryResponse {
  answer : string;
  citations : list Db.Citation;
  confidence : Q;
  latency_ms : Z
}.

Definition insufficient_answer : string :=
  "I cannot find enough relevant information to answer this question.".

(** The [else] branch of [if request.use_hybrid]. *)
Definition vector_only (lib : Retrieval.Ports) (retriever : Retrieval.HybridRetriever)
  (db : Db.Store) (request : QueryRequest) : result (list Retrieval.Hit) :=
  query_embedding <-
    Embeddings.embed_query (Retrieval.embedding_service retriever) (question request) ;;
  let vector_results :=
    Retrieval.vector_search lib db query_embedding (collection_id request) (top_k request) in
  let chunk_ids := map fst vector_results in
  let chunks_retrieved := Db.chunks_with_ids db chunk_ids in
  Ok (map (fun '(c, (_, sc)) =>
             Retrieval.mkHit c sc (Db.text c) (Db.document_id c) (Db.chunk_index c))
          (combine chunks_retrieved vector_results)).

Definition retrieve (lib : Retrieval.Ports) (retriever : Retrieval.HybridRetriever)
  (db : Db.Store) (request : QueryRequest) : result (list Retrieval.Hit) :=
  if use_hybrid request
  then Retrieval.hybrid_search lib retriever db (question request)
         (collection_id request) (top_k request) Retrieval.default_vector_weight
  else vector_only lib retriever db request.

(** [db.add(query_record); db.commit(); db.refresh(query_record)] and the
    loop over [results[:5]]. *)
Definition save_query (db : Db.Store) (request : QueryRequest) (ad : Llm.AnswerData)
  (conf : Q) (results : list Retrieval.Hit) : Db.Store :=
  let qid := Db.next_query_id db in
  let query_record :=
    Db.mkQuery qid (collection_id request) (question request) (Llm.ad_answer ad)
               (Llm.ad_citations ad) (Llm.ad_latency_ms ad) (Llm.ad_model ad) conf in
  let used :=
    map (fun '(i, r) =>
           Db.mkQueryChunk qid (Db.chunk_id (Retrieval.chunk r)) (Z.of_nat i + 1)
                           (Retrieval.score r))
        (enumerate (firstn 5 results)) in
  Db.mkStore (Db.collections db) (Db.documents db) (Db.chunks db) (Db.jobs db)
             (Db.queries db ++ [query_record]) (Db.query_chunks db ++ used)
             (Db.next_document_id db) (Db.next_chunk_id db) (qid + 1).

(** [ask_question]: the response (or the exception raised), the store and
    the module's retriever afterwards.  [elapsed] is what the clock
    measures. *)
Definition ask_question (lib : Retrieval.Ports) (llm_service : Llm.LLMService)
  (elapsed : Z) (retriever : Retrieval.HybridRetriever) (db : Db.Store)
  (request : QueryRequest)
  : result QueryResponse * Db.Store * Retrieval.HybridRetriever :=
  match Db.find_collection db (collection_id request) with
  | None => (Raise "404: Collection not found", db, retriever)
  | Some _ =>
      match Db.chunks_of_collection db (collection_id request) with
      | [] => (Raise "400: Collection has no documents", db, retriever)
      | (_ :: _) as chunks =>
          let retriever' := Retrieval.build_bm25_index retriever chunks in
          match retrieve lib retriever' db request with
          | Raise e => (Raise e, db, retriever')
          | Ok results =>
              let conf := Llm.check_answerability (question request) results in
              if Retrieval.Qltb conf (5 # 100)%Q then
                (Ok (mkQueryResponse insufficient_answer [] conf elapsed), db, retriever')
              else
                let answer_data :=
                  Llm.generate_answer llm_service (question request) (firstn 5 results) in
                (Ok (mkQueryResponse (Llm.ad_answer answer_data)
                                     (Llm.ad_citations answer_data) conf elapsed),
                 save_query db request answer_data conf results,
                 retriever')
          end
      end
  end.

End QueryApi.

(* ================================================================== *)
(** * core/parsers.py and api/ingest.py *)
(* ================================================================== *)

Module Ingest.
Import Py.

(** The dictionary that a parser returns. *)
Record Parsed : Type := mkParsed {
  parsed_text : string;
  parsed_meta : Chunking.meta
}.

(** What the module reaches outside of itself: the network and the PDF
    reader behind [parse_url] and [parse_pdf], [hashlib.sha256], the
    tokenizer of the global [chunker], the global [embedding_service], the
    clock, and the database server, which may refuse the [n]-th commit of
    a session. *)
Record Ports : Type := mkPorts {
  parse_url : string -> result Parsed;
  parse_pdf : string -> result Parsed;
  sha256_hexdigest : string -> string;
  tiktoken : string -> nat;
  embedding_service : Embeddings.EmbeddingService;
  utcnow : Z;
  commit_fails : nat -> bool
}.

Definition calculate_checksum (lib : Ports) (content : string) : string :=
  sha256_hexdigest lib content.

Definition parse_markdown (content : string) : Parsed :=
  mkParsed content [("source_type", Chunking.MStr "markdown")].

Definition parse_text (content : string) : Parsed :=
  mkParsed content [("source_type", Chunking.MStr "text")].

(** [chunker = DocumentChunker()] *)
Definition chunker (lib : Ports) : Chunking.DocumentChunker :=
  Chunking.mkChunker 800 200 (tiktoken lib).

(** ** The session of [process_document]

    A session holds the committed store and the number of commits it has
    attempted.  Every change that the code makes is followed by
    [db.commit()] before the next call that can raise, so a change and its
    commit are one step: it either reaches the store, or the commit
    raises, the transaction is rolled back and the store is as before.
    After a refused commit the session can be used again, as the handler
    of [process_document] does. *)
Record Session : Type := mkSession {
  store : Db.Store;
  n_commits : nat
}.

Definition M (A : Type) : Type := Session -> result A * Session.

Definition ret {A} (a : A) : M A := fun s => (Ok a, s).

Definition raise {A} (msg : string) : M A := fun s => (Raise msg, s).

Definition bindM {A B} (m : M A) (k : A -> M B) : M B :=
  fun s => match m s with
           | (Ok a, s') => k a s'
           | (Raise e, s') => (Raise e, s')
           end.

Definition lift {A} (r : result A) : M A := fun s => (r, s).

(** [try: body except Exception as e: handler(e)] *)
Definition try_except {A} (body : M A) (handler : string -> M A) : M A :=
  fun s => match body s with
           | (Ok a, s') => (Ok a, s')
           | (Raise e, s') => handler e s'
           end.

(** Changes followed by [db.commit()]. *)
Definition commit (lib : Ports) (change : Db.Store -> Db.Store) : M unit :=
  fun s =>
    if commit_fails lib (n_commits s)
    then (Raise "StorageError: commit failed", mkSession (store s) (S (n_commits s)))
    else (Ok tt, mkSession (change (store s)) (S (n_commits s))).

Definition set_jobs (db : Db.Store) (js : list Db.IngestJob) : Db.Store :=
  Db.mkStore (Db.collections db) (Db.documents db) (Db.chunks db) js
             (Db.queries db) (Db.query_chunks db)
             (Db.next_document_id db) (Db.next_chunk_id db) (Db.next_query_id db).

(** Assignments to the attributes of the job row. *)
Definition update_job (jid : string) (f : Db.IngestJob -> Db.IngestJob)
  (db : Db.Store) : Db.Store :=
  set_jobs db (map (fun j => if String.eqb (Db.job_id j) jid then f j else j) (Db.jobs db)).

Definition set_progress (st : Db.job_status) (p : Z) (j : Db.IngestJob) : Db.IngestJob :=
  Db.mkJob (Db.job_id j) (Db.job_collection_id j) (Db.job_document_id j) st p
           (Db.error_message j) (Db.completed_at j).

Definition set_completed (now : Z) (j : Db.IngestJob) : Db.IngestJob :=
  Db.mkJob (Db.job_id j) (Db.job_collection_id j) (Db.job_document_id j)
           Db.completed 100 (Db.error_message j) (Some now).

Definition set_failed (e : string) (j : Db.IngestJob) : Db.IngestJob :=
  Db.mkJob (Db.job_id j) (Db.job_collection_id j) (Db.job_document_id j)
           Db.failed (Db.progress j) (Some e) (Db.completed_at j).

(** [job = db.query(IngestJob).filter(IngestJob.id == job_id).first()]
    followed by an assignment to [job]: on [None] the assignment raises. *)
Definition the_job (jid : string) : M Db.IngestJob :=
  fun s => match Db.find_job (store s) jid with
           | Some j => (Ok j, s)
           | None => (Raise "AttributeError: 'NoneType' object has no attribute 'status'", s)
           end.

(** The rows made by the loop over [zip(chunks_data, embeddings)], with
    ids from the sequence. *)
Fixpoint chunk_rows (next_id document_id : Z)
  (pairs : list (Chunking.Chunk * Embeddings.embedding)) : list Db.Chunk :=
  match pairs with
  | [] => []
  | (chunk_data, emb) :: rest =>
      Db.mkChunk next_id document_id (Chunking.text chunk_data)
                 (Chunking.token_count chunk_data) (Chunking.chunk_index chunk_data)
                 (Chunking.start_char chunk_data) (len (Chunking.text chunk_data))
                 emb (Chunking.meta_data chunk_data)
      :: chunk_rows (next_id + 1) document_id rest
  end.

Definition add_chunks (document_id : Z)
  (pairs : list (Chunking.Chunk * Embeddings.embedding)) (db : Db.Store) : Db.Store :=
  let rows := chunk_rows (Db.next_chunk_id db) document_id pairs in
  Db.mkStore (Db.collections db) (Db.documents db) (Db.chunks db ++ rows) (Db.jobs db)
             (Db.queries db) (Db.query_chunks db)
             (Db.next_document_id db)
             (Db.next_chunk_id db + Z.of_nat (List.length rows))
             (Db.next_query_id db).

Definition parse_document (lib : Ports) (content source_type : string) : result Parsed :=
  if String.eqb source_type "url" then parse_url lib content
  else if String.eqb source_type "pdf" then parse_pdf lib content
  else if String.eqb source_type "markdown" then Ok (parse_markdown content)
  else Ok (parse_text content).

(** The [try] block of [process_document]. *)
Definition process_body (lib : Ports) (job_id : string) (document_id : Z)
  (content source_type : string) : M unit :=
  bindM (the_job job_id) (fun _ =>
  bindM (commit lib (update_job job_id (set_progress Db.processing 10))) (fun _ =>
  bindM (lift (parse_document lib content source_type)) (fun parsed =>
  bindM (commit lib (update_job job_id (set_progress Db.processing 30))) (fun _ =>
  let chunks_data := Chunking.chunk_text (chunker lib) (parsed_text parsed) in
  bindM (commit lib (update_job job_id (set_progress Db.processing 50))) (fun _ =>
  let texts := map Chunking.text chunks_data in
  bindM (lift (Embeddings.embed_batch (embedding_service lib) texts 32)) (fun embeddings =>
  bindM (commit lib (update_job job_id (set_progress Db.processing 80))) (fun _ =>
  bindM (commit lib (add_chunks document_id (combine chunks_data embeddings))) (fun _ =>
  commit lib (update_job job_id (set_completed (utcnow lib))))))))))).

(** The [except] block. *)
Definition process_handler (lib : Ports) (job_id : string) (e : string) : M unit :=
  bindM (the_job job_id) (fun _ =>
  commit lib (update_job job_id (set_failed e))).

(** [process_document]: the store when the task ends, and the exception
    that leaves it, if any. *)
Definition process_document (lib : Ports) (db : Db.Store) (job_id : string)
  (document_id : Z) (content source_type : string) : result unit * Db.Store :=
  let '(r, s) :=
    try_except (process_body lib job_id document_id content source_type)
               (process_handler lib job_id)
               (mkSession db 0) in
  (r, store s).

(** ** The endpoints *)

Record IngestRequest : Type := mkIngestRequest {
  collection_id : Z;
  url : option string;
  req_text : option string;
  title : string
}.

Record IngestResponse : Type := mkIngestResponse {
  resp_job_id : string;
  resp_status : string;
  message : string
}.

(** The arguments of [background_tasks.add_task(process_document, ...)]. *)
Record Task : Type := mkTask {
  task_job_id : string;
  task_document_id : Z;
  task_content : string;
  task_source_type : string
}.

(** [db.add(document); db.commit(); db.refresh(document)] *)
Definition add_document (db : Db.Store) (cid : Z) (title0 source_type : string)
  (source_url checksum : option string) : Db.Document * Db.Store :=
  let d := Db.mkDocument (Db.next_document_id db) cid title0 source_type source_url checksum in
  (d, Db.mkStore (Db.collections db) (Db.documents db ++ [d]) (Db.chunks db) (Db.jobs db)
                 (Db.queries db) (Db.query_chunks db)
                 (Db.next_document_id db + 1) (Db.next_chunk_id db) (Db.next_query_id db)).

(** [db.add(job); db.commit()] with [status="pending"]. *)
Definition add_job (db : Db.Store) (jid : string) (cid did : Z) : Db.Store :=
  set_jobs db (Db.jobs db ++ [Db.mkJob jid cid did Db.pending 0 None None]).

(** [s.endswith(suffix)] *)
Definition endswith (s suffix : string) : bool :=
  let n := String.length s in
  let m := String.length suffix in
  (m <=? n)%nat && String.eqb (substring (n - m) m s) suffix.

(** [upload_document]: [uuid] is what [uuid.uuid4()] returns, [filename]
    and [content] are the uploaded file. *)
Definition upload_document (lib : Ports) (uuid : string) (db : Db.Store)
  (collection_id0 : Z) (filename content : string)
  : result IngestResponse * Db.Store * option Task :=
  match Db.find_collection db collection_id0 with
  | None => (Raise "404: Collection not found", db, None)
  | Some _ =>
      let temp_path := ("/tmp/" ++ filename)%string in
      let is_pdf := endswith filename ".pdf" in
      let source_type := if is_pdf then "pdf" else "text" in
      match (if is_pdf then parse_pdf lib temp_path else Ok (parse_text content)) with
      | Raise e => (Raise e, db, None)
      | Ok parsed =>
          let checksum := calculate_checksum lib (parsed_text parsed) in
          match Db.find_document_by_checksum db checksum with
          | Some _ => (Raise "400: Document already exists", db, None)
          | None =>
              let '(document, db1) :=
                add_document db collection_id0 filename source_type None (Some checksum) in
              let db2 := add_job db1 uuid collection_id0 (Db.doc_id document) in
              (Ok (mkIngestResponse uuid "pending"
                     ("Document '" ++ filename ++ "' queued for processing")%string),
               db2,
               Some (mkTask uuid (Db.doc_id document)
                            (if is_pdf then temp_path else parsed_text parsed)
                            source_type))
          end
      end
  end.

Definition ingest_url (uuid : string) (db : Db.Store) (request : IngestRequest)
  : result IngestResponse * Db.Store * option Task :=
  match url request with
  | None | Some EmptyString => (Raise "400: URL is required", db, None)
  | Some u =>
      match Db.find_collection db (collection_id request) with
      | None => (Raise "404: Collection not found", db, None)
      | Some _ =>
          let '(document, db1) :=
            add_document db (collection_id request) (title request) "url" (Some u) None in
          let db2 := add_job db1 uuid (collection_id request) (Db.doc_id document) in
          (Ok (mkIngestResponse uuid "pending"
                 ("URL '" ++ u ++ "' queued for processing")%string),
           db2,
           Some (mkTask uuid (Db.doc_id document) u "url"))
      end
  end.

(** The background task runs after the response is sent. *)
Definition run_task (lib : Ports) (db : Db.Store) (t : option Task) : Db.Store :=
  match t with
  | None => db
  | Some t =>
      snd (process_document lib db (task_job_id t) (task_document_id t)
                            (task_content t) (task_source_type t))
  end.

Definition job_status_of (db : Db.Store) (jid : string) : option Db.job_status :=
  option_map Db.status (Db.find_job db jid).

End Ingest.

(* ================================================================== *)
(** * core/llm.py: citations *)
(* ================================================================== *)

Module Citations.
Import Py.

Definition is_digit (c : ascii) : bool :=
  let n := nat_of_ascii c in ((48 <=? n) && (n <=? 57))%nat.

Definition is_open (c : ascii) : bool := (nat_of_ascii c =? 91)%nat.

Definition is_close (c : ascii) : bool := (nat_of_ascii c =? 93)%nat.

(** [re.findall(r'\[(\d+)\]', s)]: the digits of every marker.  [st] holds
    the digits read since an opening bracket, if one is open. *)
Fixpoint find_markers (s : string) (st : option string) : list string :=
  match s with
  | EmptyString => []
  | String c s' =>
      if is_open c then find_markers s' (Some EmptyString)
      else match st with
           | Some digits =>
               if is_digit c then find_markers s' (Some (snoc digits c))
               else if is_close c && nonempty digits
                    then digits :: find_markers s' None
                    else find_markers s' None
           | None => find_markers s' None
           end
  end.

(** [int(match)] on a string of digits. *)
Fixpoint int_of_digits_from (acc : Z) (s : string) : Z :=
  match s with
  | EmptyString => acc
  | String c s' => int_of_digits_from (acc * 10 + (Z.of_nat (nat_of_ascii c) - 48)) s'
  end.

Definition int_of_digits (s : string) : Z := int_of_digits_from 0 s.

(** One iteration of [for match in matches]. *)
Definition citation_of (contexts : list Retrieval.Hit) (m : string) : list Db.Citation :=
  let idx := int_of_digits m - 1 in
  if (0 <=? idx) && (idx <? Z.of_nat (List.length contexts)) then
    match nth_error contexts (Z.to_nat idx) with
    | Some ctx =>
        [Db.mkCitation (idx + 1)
                       (substring 0 200 (Retrieval.hit_text ctx) ++ "...")%string
                       (Retrieval.hit_document_id ctx)
                       (Retrieval.hit_chunk_index ctx)]
    | None => []
    end
  else [].

Definition _extract_citations (answer : string) (contexts : list Retrieval.Hit)
  : list Db.Citation :=
  flat_map (citation_of contexts) (find_markers answer None).

End Citations.

(* ================================================================== *)
(** * api/query.py: feedback *)
(* ================================================================== *)

Module Feedback.
Import Py.

Record Feedback : Type := mkFeedback {
  feedback_id : Z;
  query_id : Z;
  value : Z;
  note : option string
}.

(** The table [feedback] and the sequence of its primary key. *)
Record Table : Type := mkTable {
  rows : list Feedback;
  next_feedback_id : Z
}.

(** [filter(Feedback.query_id == query_id).first()] *)
Definition find_feedback (t : Table) (qid : Z) : option Feedback :=
  find (fun f => query_id f =? qid) (rows t).

(** [existing.value = value; existing.note = note] on the first row of
    the query. *)
Fixpoint update_first (qid v : Z) (n : option string) (l : list Feedback)
  : list Feedback :=
  match l with
  | [] => []
  | f :: l' =>
      if query_id f =? qid then mkFeedback (feedback_id f) (query_id f) v n :: l'
      else f :: update_first qid v n l'
  end.

Definition find_query (db : Db.Store) (qid : Z) : option Db.Query :=
  find (fun q => Db.query_id q =? qid) (Db.queries db).

Definition submit_feedback (db : Db.Store) (t : Table) (qid v : Z) (n : option string)
  : result string * Table :=
  match find_query db qid with
  | None => (Raise "404: Query not found", t)
  | Some _ =>
      (Ok "Feedback submitted successfully",
       match find_feedback t qid with
       | Some _ => mkTable (update_first qid v n (rows t)) (next_feedback_id t)
       | None =>
           mkTable (rows t ++ [mkFeedback (next_feedback_id t) qid v n])
                   (next_feedback_id t + 1)
       end)
  end.

End Feedback.

(* ================================================================== *)
(** * api/ingest.py: the status of a job *)
(* ================================================================== *)

Module Status.
Import Py.

(** The answer of [get_job_status], without [created_at], which the model
    of the job row does not have. *)
Record JobStatus : Type := mkJobStatus {
  job_id : string;
  status : Db.job_status;
  progress : Z;
  error_message : option string;
  completed_at : option Z
}.

Definition get_job_status (db : Db.Store) (jid : string) : result JobStatus :=
  match Db.find_job db jid with
  | None => Raise "404: Job not found"
  | Some j =>
      Ok (mkJobStatus (Db.job_id j) (Db.status j) (Db.progress j)
                      (Db.error_message j) (Db.completed_at j))
  end.

End Status.

(* ================================================================== *)
(** * api/collections.py *)
(* ================================================================== *)

Module Collections.
Import Py.

(** [CollectionResponse], without the description and the creation time,
    which the model of the collection row does not have. *)
Record CollectionResponse : Type := mkCollectionResponse {
  id : Z;
  name : string;
  document_count : Z
}.

(** [db.query(Document).filter(Document.collection_id == cid).count()] *)
Definition count_documents (db : Db.Store) (cid : Z) : Z :=
  Z.of_nat (List.length (filter (fun d => Db.doc_collection_id d =? cid) (Db.documents db))).

Definition find_by_name (db : Db.Store) (n : string) : option Db.Collection :=
  find (fun c => String.eqb (Db.collection_name c) n) (Db.collections db).

(** [create_collection]: [new_id] is the id that the database gives the
    new row. *)
Definition create_collection (new_id : Z) (db : Db.Store) (n : string)
  : result CollectionResponse * Db.Store :=
  match find_by_name db n with
  | Some _ => (Raise "400: Collection name already exists", db)
  | None =>
      (Ok (mkCollectionResponse new_id n 0),
       Db.mkStore (Db.collections db ++ [Db.mkCollection new_id n])
                  (Db.documents db) (Db.chunks db) (Db.jobs db)
                  (Db.queries db) (Db.query_chunks db)
                  (Db.next_document_id db) (Db.next_chunk_id db) (Db.next_query_id db))
  end.

Definition list_collections (db : Db.Store) : list CollectionResponse :=
  map (fun col =>
         mkCollectionResponse (Db.collection_id_of col) (Db.collection_name col)
                              (count_documents db (Db.collection_id_of col)))
      (Db.collections db).

Definition get_collection (db : Db.Store) (cid : Z) : result CollectionResponse :=
  match Db.find_collection db cid with
  | None => Raise "404: Collection not found"
  | Some col =>
      Ok (mkCollectionResponse (Db.collection_id_of col) (Db.collection_name col)
                               (count_documents db cid))
  end.

End Collections.

(* ================================================================== *)
(** * The embedding on small inputs *)
(* ================================================================== *)

Example split_paragraphs_ex :
  Py.split_paragraphs ("a" ++ String Py.newline (String Py.newline (String Py.newline
     ("b" ++ String Py.newline "c"))))
  = ["a"; ("b" ++ String Py.newline "c")%string].
Proof. reflexivity. Qed.

Example split_sentences_ex :
  Py.split_sentences "Hi.  Is it? Yes!no. 3.5 ok" = ["Hi."; "Is it?"; "Yes!no."; "3.5 ok"].
Proof. reflexivity. Qed.

Example strip_ex : Py.strip "  a b  " = "a b".
Proof. reflexivity. Qed.

Example split_ws_ex : Py.split_ws " the  quick fox " = ["the"; "quick"; "fox"].
Proof. reflexivity. Qed.

Example header_match_ex1 : Chunking.header_match "## Intro  x" = Some "Intro  x".
Proof. reflexivity. Qed.

Example header_match_ex2 : Chunking.header_match "####### seven" = None.
Proof. reflexivity. Qed.

Example header_match_ex3 : Chunking.header_match "#tag" = None.
Proof. reflexivity. Qed.

Example chunk_text_ex :
  map (fun c => (Chunking.text c, Chunking.chunk_index c, Chunking.token_count c,
                 Chunking.start_char c))
      (Chunking.chunk_text (Chunking.mkChunker 3 200 Chunking.word_tokenizer)
         ("aa bb" ++ Chunking.newline_str ++ Chunking.newline_str ++ "cc dd"
          ++ Chunking.newline_str ++ Chunking.newline_str ++ "ee")%string)
  = [("aa bb", 0, 2, 0); ("aa bb cc dd", 1, 4, 5); ("cc dd ee", 2, 3, 17)].
Proof. reflexivity. Qed.

(* ================================================================== *)
(** * The chunker: indices *)
(* ================================================================== *)

Section ChunkIndices.
Import Chunking.

Variable self : DocumentChunker.

(** The indices of a list of chunks are [0, 1, ..., N-1] in list order. *)
Definition dense (l : list Chunk) : Prop :=
  map chunk_index l = map Z.of_nat (seq 0 (List.length l)).

(** The loop invariant of [chunk_text]: the chunks emitted so far are
    densely indexed and [chunk_index] is their number. *)
Definition indexed (st : state) : Prop :=
  dense (chunks st) /\ cur_index st = Z.of_nat (List.length (chunks st)).

Lemma dense_snoc (l : list Chunk) (c : Chunk) :
  dense l -> chunk_index c = Z.of_nat (List.length l) -> dense (l ++ [c]).
Proof.
  unfold dense. intros Hl Hc.
  rewrite length_app, Nat.add_1_r, seq_S, !map_app, Hl.
  simpl. now rewrite Hc.
Qed.

Lemma emit_length (m : string) (st : state) :
  List.length (emit m st) = S (List.length (chunks st)).
Proof. unfold emit. rewrite length_app. simpl. lia. Qed.

Lemma emit_dense (m : string) (st : state) : indexed st -> dense (emit m st).
Proof.
  intros [Hd Hi]. unfold emit. apply dense_snoc; [exact Hd | exact Hi].
Qed.

Lemma indexed_after_emit (m : string) (st : state) (cc : list string) (tk : Z) :
  indexed st -> indexed (mkState (emit m st) cc tk (cur_index st + 1)).
Proof.
  intros H. split; simpl.
  - now apply emit_dense.
  - rewrite emit_length. destruct H as [_ ->]. lia.
Qed.

Lemma indexed_keep (st : state) (cc : list string) (tk : Z) :
  indexed st -> indexed (mkState (chunks st) cc tk (cur_index st)).
Proof. intros [Hd Hi]. split; assumption. Qed.

Lemma sentence_step_indexed (st : state) (s : string) :
  indexed st -> indexed (sentence_step self st s).
Proof.
  intros H. unfold sentence_step.
  destruct (_ >? _).
  - destruct (current_chunk st) eqn:Hcc; [exact H|].
    destruct (_ && _); now apply indexed_after_emit.
  - now apply indexed_keep.
Qed.

Lemma paragraph_step_indexed (st : state) (p : string) :
  indexed st -> indexed (paragraph_step self st p).
Proof.
  intros H. unfold paragraph_step.
  destruct (_ >? _).
  - destruct (current_chunk st) eqn:Hcc; [exact H|].
    destruct (_ >? _); now apply indexed_after_emit.
  - now apply indexed_keep.
Qed.

Lemma fold_sentences_indexed (ss : list string) (st : state) :
  indexed st -> indexed (fold_left (sentence_step self) ss st).
Proof.
  revert st. induction ss as [|s ss IH]; intros st H; simpl; [exact H|].
  apply IH. now apply sentence_step_indexed.
Qed.

Lemma para_step_indexed (st : state) (p : string) :
  indexed st -> indexed (para_step self st p).
Proof.
  intros H. unfold para_step.
  destruct (Py.nonempty _); [|exact H].
  destruct (_ >? _).
  - now apply fold_sentences_indexed.
  - now apply paragraph_step_indexed.
Qed.

Lemma fold_paras_indexed (ps : list string) (st : state) :
  indexed st -> indexed (fold_left (para_step self) ps st).
Proof.
  revert st. induction ps as [|p ps IH]; intros st H; simpl; [exact H|].
  apply IH. now apply para_step_indexed.
Qed.

Lemma init_indexed : indexed init.
Proof. split; reflexivity. Qed.

Lemma finish_dense (st : state) : indexed st -> dense (finish st).
Proof.
  intros H. unfold finish. destruct (current_chunk st).
  - exact (proj1 H).
  - now apply emit_dense.
Qed.

Lemma chunk_text_dense (t : string) : dense (chunk_text self t).
Proof.
  unfold chunk_text. destruct (Py.nonempty _).
  - apply finish_dense, fold_paras_indexed, init_indexed.
  - reflexivity.
Qed.

Lemma reindex_from (i : nat) (l : list Chunk) :
  map chunk_index (map set_index (Py.enumerate_from i l))
  = map Z.of_nat (seq i (List.length l)).
Proof.
  revert i. induction l as [|c l IH]; intros i; simpl; [reflexivity|].
  now rewrite IH.
Qed.

Lemma enumerate_from_length {A} (i : nat) (l : list A) :
  List.length (Py.enumerate_from i l) = List.length l.
Proof. revert i. induction l; intros; simpl; auto. Qed.

Lemma chunk_markdown_dense (t : string) : dense (chunk_markdown self t).
Proof.
  unfold dense, chunk_markdown, Py.enumerate.
  now rewrite reindex_from, length_map, enumerate_from_length.
Qed.

End ChunkIndices.

(** C6.  For every chunker and every input text, the [chunk_index]
    values of the chunks that [chunk_text] returns, and of those that
    [chunk_markdown] returns after its reindexing, are [0, 1, ..., N-1]
    in list order, [N] being the number of chunks returned. *)
Theorem chunk_index_dense :
  forall (self : Chunking.DocumentChunker) (t : string),
    map Chunking.chunk_index (Chunking.chunk_text self t)
    = map Z.of_nat (seq 0 (List.length (Chunking.chunk_text self t)))
    /\ map Chunking.chunk_index (Chunking.chunk_markdown self t)
       = map Z.of_nat (seq 0 (List.length (Chunking.chunk_markdown self t))).
Proof.
  intros self t. split.
  - apply chunk_text_dense.
  - apply chunk_markdown_dense.
Qed.

(* ================================================================== *)
(** * The chunker: what is emitted, and its metadata *)
(* ================================================================== *)

Lemma append_empty_r (s : string) : (s ++ "")%string = s.
Proof. induction s as [|c s IH]; simpl; [reflexivity | now rewrite IH]. Qed.

Lemma append_assoc (a b c : string) : ((a ++ b) ++ c)%string = (a ++ b ++ c)%string.
Proof. induction a as [|x a IH]; simpl; [reflexivity | now rewrite IH]. Qed.

(** [s] occurs in [t]. *)
Definition piece (s t : string) : Prop :=
  exists pre post, t = (pre ++ s ++ post)%string.

Lemma join_piece (sep s : string) (l : list string) :
  In s l -> piece s (Py.join sep l).
Proof.
  unfold Py.join. induction l as [|x xs IH]; intros Hin; [destruct Hin|].
  destruct Hin as [-> | Hin].
  - destruct xs as [|y ys].
    + exists "", "". simpl. now rewrite append_empty_r.
    + exists "", (sep ++ String.concat sep (y :: ys))%string. reflexivity.
  - destruct xs as [|y ys]; [destruct Hin|].
    destruct (IH Hin) as (pre & post & E).
    exists (x ++ sep ++ pre)%string, post.
    change (String.concat sep (x :: y :: ys))
      with (x ++ sep ++ String.concat sep (y :: ys))%string.
    rewrite E. now rewrite !append_assoc.
Qed.

Section ChunkCoverage.
Import Chunking.

Variable self : DocumentChunker.

(** [s] is in an emitted chunk, or waits in the current chunk. *)
Definition covered (s : string) (st : state) : Prop :=
  (exists c, In c (chunks st) /\ piece s (text c)) \/ In s (current_chunk st).

Definition emitted (s : string) (l : list Chunk) : Prop :=
  exists c, In c l /\ piece s (text c).

Lemma emit_covers (m s : string) (st : state) :
  covered s st -> emitted s (emit m st).
Proof.
  intros [(c & Hc & Hp) | Hin]; unfold emit.
  - exists c. split; [apply in_or_app; now left | exact Hp].
  - eexists. split; [apply in_or_app; right; left; reflexivity|].
    simpl. now apply join_piece.
Qed.

Lemma covered_after_emit (m s : string) (st : state) (cc : list string) (tk i : Z) :
  covered s st -> covered s (mkState (emit m st) cc tk i).
Proof. intros H. left. exact (emit_covers m s st H). Qed.

Lemma covered_append (s x : string) (st : state) (tk i : Z) :
  covered s st -> covered s (mkState (chunks st) (current_chunk st ++ [x]) tk i).
Proof.
  intros [H | H]; [left; exact H | right; simpl; apply in_or_app; now left].
Qed.

Lemma sentence_step_covered (s x : string) (st : state) :
  covered s st -> covered s (sentence_step self st x).
Proof.
  intros H. unfold sentence_step. destruct (_ >? _).
  - destruct (current_chunk st) eqn:E; [exact H|].
    destruct (_ && _); now apply covered_after_emit.
  - now apply covered_append.
Qed.

Lemma paragraph_step_covered (s x : string) (st : state) :
  covered s st -> covered s (paragraph_step self st x).
Proof.
  intros H. unfold paragraph_step. destruct (_ >? _).
  - destruct (current_chunk st) eqn:E; [exact H|].
    destruct (_ >? _); now apply covered_after_emit.
  - now apply covered_append.
Qed.

Lemma fold_sentences_covered (s : string) (xs : list string) (st : state) :
  covered s st -> covered s (fold_left (sentence_step self) xs st).
Proof.
  revert st. induction xs as [|x xs IH]; intros st H; simpl; [exact H|].
  now apply IH, sentence_step_covered.
Qed.

Lemma para_step_covered (s p : string) (st : state) :
  covered s st -> covered s (para_step self st p).
Proof.
  intros H. unfold para_step. destruct (Py.nonempty _); [|exact H].
  destruct (_ >? _).
  - now apply fold_sentences_covered.
  - now apply paragraph_step_covered.
Qed.

Lemma fold_paras_covered (s : string) (ps : list string) (st : state) :
  covered s st -> covered s (fold_left (para_step self) ps st).
Proof.
  revert st. induction ps as [|p ps IH]; intros st H; simpl; [exact H|].
  now apply IH, para_step_covered.
Qed.

(** A sentence that arrives while the current chunk is not empty joins the
    current chunk, whatever its size. *)
Lemma sentence_step_admits (x : string) (st : state) :
  current_chunk st <> [] -> In x (current_chunk (sentence_step self st x)).
Proof.
  intros Hne. unfold sentence_step. destruct (_ >? _).
  - destruct (current_chunk st) eqn:E; [contradiction|].
    destruct (_ && _); simpl.
    + apply in_or_app. right. now left.
    + now left.
  - simpl. apply in_or_app. right. now left.
Qed.

Lemma in_nonempty {A} (x : A) (l : list A) : In x l -> l <> [].
Proof. intros H ->. destruct H. Qed.

(** Once the current chunk is not empty it stays so. *)
Lemma sentence_step_nonempty (x : string) (st : state) :
  current_chunk st <> [] -> current_chunk (sentence_step self st x) <> [].
Proof. intros H. exact (in_nonempty _ _ (sentence_step_admits x st H)). Qed.

Lemma paragraph_step_nonempty (x : string) (st : state) :
  current_chunk st <> [] -> current_chunk (paragraph_step self st x) <> [].
Proof.
  intros Hne. unfold paragraph_step. destruct (_ >? _).
  - destruct (current_chunk st) eqn:E; [contradiction|].
    destruct (_ >? _); simpl; [|discriminate].
    destruct (Py.nonempty _); discriminate.
  - simpl. intros E. apply app_eq_nil in E. destruct E as [_ E]. discriminate.
Qed.

Lemma fold_sentences_nonempty (xs : list string) (st : state) :
  current_chunk st <> [] ->
  current_chunk (fold_left (sentence_step self) xs st) <> [].
Proof.
  revert st. induction xs as [|x xs IH]; intros st H; simpl; [exact H|].
  now apply IH, sentence_step_nonempty.
Qed.

Lemma para_step_nonempty (p : string) (st : state) :
  current_chunk st <> [] -> current_chunk (para_step self st p) <> [].
Proof.
  intros H. unfold para_step. destruct (Py.nonempty _); [|exact H].
  destruct (_ >? _).
  - now apply fold_sentences_nonempty.
  - now apply paragraph_step_nonempty.
Qed.

Lemma fold_paras_nonempty (ps : list string) (st : state) :
  current_chunk st <> [] ->
  current_chunk (fold_left (para_step self) ps st) <> [].
Proof.
  revert st. induction ps as [|p ps IH]; intros st H; simpl; [exact H|].
  now apply IH, para_step_nonempty.
Qed.

(** Every sentence of a run of sentences that starts on a non-empty
    current chunk is covered afterwards. *)
Lemma fold_sentences_admits (s : string) (xs : list string) (st : state) :
  current_chunk st <> [] -> In s xs ->
  covered s (fold_left (sentence_step self) xs st).
Proof.
  revert st. induction xs as [|x xs IH]; intros st Hne Hin; [destruct Hin|].
  simpl. destruct Hin as [-> | Hin].
  - apply fold_sentences_covered. right. now apply sentence_step_admits.
  - apply IH; [now apply sentence_step_nonempty | exact Hin].
Qed.

Lemma finish_covers (s : string) (st : state) :
  covered s st -> current_chunk st <> [] -> emitted s (finish st).
Proof.
  intros H Hne. unfold finish. destruct (current_chunk st) eqn:E; [contradiction|].
  now apply emit_covers.
Qed.

(** A property of the list of chunks that holds of the empty list and
    that every [chunks.append] keeps holds of what [chunk_text] returns. *)
Section EmittedChunks.

Variable good : list Chunk -> Prop.
Hypothesis good_nil : good [].
Hypothesis good_emit : forall m st, good (chunks st) -> good (emit m st).

Lemma sentence_step_good (x : string) (st : state) :
  good (chunks st) -> good (chunks (sentence_step self st x)).
Proof.
  intros H. unfold sentence_step. destruct (_ >? _).
  - destruct (current_chunk st) eqn:E; [exact H|].
    destruct (_ && _); now apply good_emit.
  - exact H.
Qed.

Lemma paragraph_step_good (x : string) (st : state) :
  good (chunks st) -> good (chunks (paragraph_step self st x)).
Proof.
  intros H. unfold paragraph_step. destruct (_ >? _).
  - destruct (current_chunk st) eqn:E; [exact H|].
    destruct (_ >? _); now apply good_emit.
  - exact H.
Qed.

Lemma fold_sentences_good (xs : list string) (st : state) :
  good (chunks st) -> good (chunks (fold_left (sentence_step self) xs st)).
Proof.
  revert st. induction xs as [|x xs IH]; intros st H; simpl; [exact H|].
  now apply IH, sentence_step_good.
Qed.

Lemma para_step_good (p : string) (st : state) :
  good (chunks st) -> good (chunks (para_step self st p)).
Proof.
  intros H. unfold para_step. destruct (Py.nonempty _); [|exact H].
  destruct (_ >? _).
  - now apply fold_sentences_good.
  - now apply paragraph_step_good.
Qed.

Lemma fold_paras_good (ps : list string) (st : state) :
  good (chunks st) -> good (chunks (fold_left (para_step self) ps st)).
Proof.
  revert st. induction ps as [|p ps IH]; intros st H; simpl; [exact H|].
  now apply IH, para_step_good.
Qed.

Lemma chunk_text_good (t : string) : good (chunk_text self t).
Proof.
  unfold chunk_text. destruct (Py.nonempty _); [|exact good_nil].
  unfold finish.
  pose proof (fold_paras_good (Py.split_paragraphs (Py.strip t)) init good_nil) as H.
  destruct (current_chunk _); [exact H | now apply good_emit].
Qed.

End EmittedChunks.

(** The metadata of every chunk has the two keys [chunk_method] and
    [has_overlap], and no other. *)
Definition plain_meta (c : Chunk) : Prop :=
  exists m b, meta_data c = [("chunk_method", MStr m); ("has_overlap", MBool b)].

Lemma chunk_text_plain (t : string) : Forall plain_meta (chunk_text self t).
Proof.
  apply (chunk_text_good (Forall plain_meta)); [constructor|].
  intros m st H. unfold emit. apply Forall_app. split; [exact H|].
  constructor; [|constructor]. eexists _, _. reflexivity.
Qed.

(** Every [start_char] is the length of the texts of the chunks before it,
    joined by single spaces. *)
Definition cumulative (l : list Chunk) : Prop :=
  forall i c, nth_error l i = Some c ->
              start_char c = Py.len (Py.join " " (map text (firstn i l))).

Lemma chunk_text_cumulative (t : string) : cumulative (chunk_text self t).
Proof.
  apply (chunk_text_good cumulative).
  - intros i c H. destruct i; discriminate H.
  - intros m st H i c Hi. unfold emit in *.
    destruct (Nat.lt_ge_cases i (List.length (chunks st))) as [Hlt | Hge].
    + rewrite nth_error_app1 in Hi by exact Hlt.
      rewrite firstn_app. replace (i - List.length (chunks st))%nat with 0%nat by lia.
      simpl firstn. rewrite app_nil_r. now apply H.
    + rewrite nth_error_app2 in Hi by exact Hge.
      destruct (i - List.length (chunks st))%nat as [|k] eqn:E.
      * injection Hi as <-. simpl start_char.
        replace i with (List.length (chunks st)) by lia.
        rewrite firstn_app, firstn_all, Nat.sub_diag. simpl firstn.
        now rewrite app_nil_r.
      * destruct k; discriminate Hi.
Qed.

Lemma plain_no_oversize (c : Chunk) :
  plain_meta c -> meta_get (meta_data c) "oversize" = None.
Proof. intros (m & b & ->). reflexivity. Qed.

End ChunkCoverage.

(** A chunker with a limit of three tokens and one token per word, and a
    text of two paragraphs whose second paragraph has a sentence of five
    tokens. *)
Definition small_chunker : Chunking.DocumentChunker :=
  Chunking.mkChunker 3 200 Chunking.word_tokenizer.

Definition blank_line : string :=
  (Chunking.newline_str ++ Chunking.newline_str)%string.

Definition oversize_text : string :=
  ("Hi there." ++ blank_line ++ "One two three four five. Tiny.")%string.

(** C7, as the code has it.  Take a text whose first paragraph fits the
    limit, and a later paragraph that exceeds it and is therefore split into
    sentences.  Every sentence of that paragraph, whatever its token
    count, occurs in the text of a chunk that [chunk_text] returns; and no
    chunk that [chunk_text] returns has an [oversize] key in its
    metadata. *)
Theorem oversize_sentence_emitted_unflagged :
  forall (self : Chunking.DocumentChunker) (t p0 para s : string)
         (before after : list string),
    Py.split_paragraphs (Py.strip t) = p0 :: before ++ para :: after ->
    Py.nonempty (Py.strip p0) = true ->
    Chunking.count_tokens self (Py.strip p0) <= Chunking.chunk_size self ->
    Py.nonempty (Py.strip para) = true ->
    Chunking.count_tokens self (Py.strip para) > Chunking.chunk_size self ->
    In s (Py.split_sentences (Py.strip para)) ->
    (exists c, In c (Chunking.chunk_text self t) /\ piece s (Chunking.text c))
    /\ (forall c, In c (Chunking.chunk_text self t) ->
                  Chunking.meta_get (Chunking.meta_data c) "oversize" = None).
Proof.
  intros self t p0 para s before after Hsplit Hp0 Hfit Hpara Hbig Hs.
  split.
  2:{ intros c Hc. apply plain_no_oversize.
      exact (proj1 (Forall_forall _ _) (chunk_text_plain self t) c Hc). }
  unfold Chunking.chunk_text.
  destruct (Py.nonempty (Py.strip t)) eqn:Hne.
  2:{ destruct (Py.strip t); [|discriminate Hne].
      unfold Py.split_paragraphs in Hsplit. simpl in Hsplit.
      injection Hsplit as _ Hnil. now apply app_cons_not_nil in Hnil. }
  rewrite Hsplit. simpl fold_left. rewrite fold_left_app. simpl fold_left.
  set (st0 := Chunking.para_step self Chunking.init p0).
  assert (H0 : Chunking.current_chunk st0 <> []).
  { subst st0. unfold Chunking.para_step. rewrite Hp0.
    destruct (Z.gtb_spec (Chunking.count_tokens self (Py.strip p0))
                         (Chunking.chunk_size self)) as [Hgt | _]; [lia|].
    unfold Chunking.paragraph_step. simpl Chunking.current_tokens.
    destruct (Z.gtb_spec (0 + Chunking.count_tokens self (Py.strip p0))
                         (Chunking.chunk_size self)) as [Hgt | _]; [lia|].
    simpl. discriminate. }
  set (st1 := fold_left (Chunking.para_step self) before st0).
  assert (H1 : Chunking.current_chunk st1 <> [])
    by (subst st1; now apply fold_paras_nonempty).
  set (st2 := Chunking.para_step self st1 para).
  assert (H2 : covered s st2 /\ Chunking.current_chunk st2 <> []).
  { subst st2. unfold Chunking.para_step. rewrite Hpara.
    destruct (Z.gtb_spec (Chunking.count_tokens self (Py.strip para))
                         (Chunking.chunk_size self)) as [_ | Hle]; [|lia].
    split.
    - now apply fold_sentences_admits.
    - now apply fold_sentences_nonempty. }
  destruct H2 as [Hcov H2].
  apply finish_covers.
  - now apply fold_paras_covered.
  - now apply fold_paras_nonempty.
Qed.

Lemma oversize_sentence_emitted_unflagged_witness :
  (exists c, In c (Chunking.chunk_text small_chunker oversize_text)
             /\ piece "One two three four five." (Chunking.text c))
  /\ (forall c, In c (Chunking.chunk_text small_chunker oversize_text) ->
                Chunking.meta_get (Chunking.meta_data c) "oversize" = None).
Proof.
  apply (oversize_sentence_emitted_unflagged small_chunker oversize_text
           "Hi there." "One two three four five. Tiny." "One two three four five."
           [] []).
  - reflexivity.
  - reflexivity.
  - vm_compute. discriminate.
  - reflexivity.
  - reflexivity.
  - simpl. left. reflexivity.
Defined.

(** C7 as the specification states it fails: the chunk that holds the
    sentence of five tokens under a limit of three is emitted with a token
    count of five, and its metadata has no [oversize] entry. *)
Lemma oversize_flag_absent :
  map (fun c => (Chunking.text c, Chunking.token_count c,
                 Chunking.meta_get (Chunking.meta_data c) "oversize"))
      (Chunking.chunk_text small_chunker oversize_text)
  = [ ("Hi there.", 2, None);
      ("One two three four five.", 5, None);
      ("Tiny.", 1, None) ].
Proof. reflexivity. Qed.

(** A text that is one sentence above the limit: the loop finds the current
    chunk empty, skips the sentence, and nothing is returned. *)
Example lone_oversize_sentence_dropped :
  Chunking.chunk_text small_chunker "One two three four five." = [].
Proof. reflexivity. Qed.

(* ================================================================== *)
(** * The chunker: [start_char] *)
(* ================================================================== *)

Lemma length_append (a b : string) :
  String.length (a ++ b) = (String.length a + String.length b)%nat.
Proof. induction a as [|c a IH]; simpl; [reflexivity | now rewrite IH]. Qed.

Lemma join_length_prefix (sep : string) (l1 l2 : list string) :
  (String.length (Py.join sep l1) <= String.length (Py.join sep (l1 ++ l2)))%nat.
Proof.
  unfold Py.join. induction l1 as [|x l1 IH]; [simpl; lia|].
  destruct l1 as [|y l1].
  - simpl app. destruct l2 as [|z l2]; [simpl; lia|].
    change (String.concat sep (x :: z :: l2))
      with (x ++ sep ++ String.concat sep (z :: l2))%string.
    rewrite length_append. simpl String.concat. lia.
  - change (String.concat sep (x :: y :: l1))
      with (x ++ sep ++ String.concat sep (y :: l1))%string.
    change (String.concat sep ((x :: y :: l1) ++ l2))
      with (x ++ sep ++ String.concat sep ((y :: l1) ++ l2))%string.
    rewrite !length_append. lia.
Qed.

(** The half of C8 that the code has: along the chunks that [chunk_text]
    returns, [start_char] never decreases. *)
Lemma start_char_monotone (self : Chunking.DocumentChunker) (t : string)
  (i j : nat) (ci cj : Chunking.Chunk) :
  (i <= j)%nat ->
  nth_error (Chunking.chunk_text self t) i = Some ci ->
  nth_error (Chunking.chunk_text self t) j = Some cj ->
  Chunking.start_char ci <= Chunking.start_char cj.
Proof.
  intros Hij Hi Hj.
  rewrite (chunk_text_cumulative self t i ci Hi), (chunk_text_cumulative self t j cj Hj).
  unfold Py.len. apply Nat2Z.inj_le.
  set (l := Chunking.chunk_text self t).
  replace (firstn i l) with (firstn i (firstn j l))
    by (rewrite firstn_firstn; f_equal; lia).
  rewrite <- (firstn_skipn i (firstn j l)) at 2.
  rewrite map_app. apply join_length_prefix.
Qed.

Definition no_overlap_chunker : Chunking.DocumentChunker :=
  Chunking.mkChunker 3 0 Chunking.word_tokenizer.

Definition gap_text : string := ("aa bb" ++ blank_line ++ "cc dd")%string.

(** C8 at a text of two paragraphs, with a limit of three tokens and no
    overlap.  The second chunk is the second paragraph, which starts at
    offset 7 of the stripped text and nowhere else; its [start_char] is 5,
    the length of the first chunk. *)
Theorem start_char_is_not_the_offset :
  map (fun c => (Chunking.text c, Chunking.start_char c))
      (Chunking.chunk_text no_overlap_chunker gap_text)
  = [("aa bb", 0); ("cc dd", 5)]
  /\ (forall n : nat, substring n 5 (Py.strip gap_text) = "cc dd" <-> n = 7%nat).
Proof.
  split; [reflexivity|].
  intros n. split.
  - do 13 (destruct n as [|n]; [try reflexivity; vm_compute; discriminate|]).
    vm_compute. destruct n; discriminate.
  - intros ->. reflexivity.
Qed.

(** With the default overlap the second chunk repeats the first paragraph
    and joins the two with one space: its text does not occur in the
    stripped text at all, and its [start_char] is again 5. *)
Example start_char_with_overlap :
  map (fun c => (Chunking.text c, Chunking.start_char c))
      (Chunking.chunk_text small_chunker gap_text)
  = [("aa bb", 0); ("aa bb cc dd", 5)].
Proof. reflexivity. Qed.

(* ================================================================== *)
(** * Sorting by a score *)
(* ================================================================== *)

Lemma Qltb_lt (a b : Q) : Retrieval.Qltb a b = true <-> (a < b)%Q.
Proof.
  unfold Retrieval.Qltb. rewrite negb_true_iff. split.
  - intros H. apply Qnot_le_lt. intros Hle.
    apply Qle_bool_iff in Hle. congruence.
  - intros H. destruct (Qle_bool b a) eqn:E; [|reflexivity].
    apply Qle_bool_iff in E. exfalso. exact (Qlt_not_le _ _ H E).
Qed.

Lemma Qltb_ge (a b : Q) : Retrieval.Qltb a b = false <-> (b <= a)%Q.
Proof.
  unfold Retrieval.Qltb. rewrite negb_false_iff. apply Qle_bool_iff.
Qed.

Lemma StronglySorted_app_cross {A} (R : A -> A -> Prop) (l1 l2 : list A) :
  StronglySorted R (l1 ++ l2) ->
  forall a b, In a l1 -> In b l2 -> R a b.
Proof.
  induction l1 as [|x l1 IH]; intros H a b Ha Hb; [destruct Ha|].
  simpl in H. inversion H as [|? ? Hs Hf]; subst.
  destruct Ha as [-> | Ha].
  - exact (proj1 (Forall_forall _ _) Hf b (in_or_app _ _ _ (or_intror Hb))).
  - now apply IH.
Qed.

Lemma StronglySorted_app_l {A} (R : A -> A -> Prop) (l1 l2 : list A) :
  StronglySorted R (l1 ++ l2) -> StronglySorted R l1.
Proof.
  induction l1 as [|x l1 IH]; intros H; [constructor|].
  simpl in H. inversion H as [|? ? Hs Hf]; subst.
  constructor; [now apply IH|].
  apply Forall_app in Hf. exact (proj1 Hf).
Qed.

Lemma StronglySorted_app_r {A} (R : A -> A -> Prop) (l1 l2 : list A) :
  StronglySorted R (l1 ++ l2) -> StronglySorted R l2.
Proof.
  induction l1 as [|x l1 IH]; intros H; [exact H|].
  simpl in H. inversion H; subst. now apply IH.
Qed.

Lemma StronglySorted_firstn {A} (R : A -> A -> Prop) (n : nat) (l : list A) :
  StronglySorted R l -> StronglySorted R (firstn n l).
Proof.
  intros H. rewrite <- (firstn_skipn n l) in H.
  exact (StronglySorted_app_l _ _ _ H).
Qed.

Lemma StronglySorted_filter {A} (R : A -> A -> Prop) (f : A -> bool) (l : list A) :
  StronglySorted R l -> StronglySorted R (filter f l).
Proof.
  induction 1 as [|x l Hs IH Hf]; simpl; [constructor|].
  destruct (f x); [|exact IH].
  constructor; [exact IH|].
  apply Forall_forall. intros y Hy. apply filter_In in Hy.
  exact (proj1 (Forall_forall _ _) Hf y (proj1 Hy)).
Qed.

Lemma StronglySorted_snoc {A} (R : A -> A -> Prop) (l : list A) (x : A) :
  StronglySorted R l -> Forall (fun y => R y x) l -> StronglySorted R (l ++ [x]).
Proof.
  induction 1 as [|y l Hs IH Hf]; intros Hx; simpl.
  - constructor; constructor.
  - inversion Hx; subst. constructor; [now apply IH|].
    apply Forall_app. split; [exact Hf|]. constructor; [assumption | constructor].
Qed.

Lemma StronglySorted_rev {A} (R : A -> A -> Prop) (l : list A) :
  StronglySorted R l -> StronglySorted (fun a b => R b a) (rev l).
Proof.
  induction 1 as [|x l Hs IH Hf]; simpl; [constructor|].
  apply StronglySorted_snoc; [exact IH|].
  apply Forall_forall. intros y Hy. apply in_rev in Hy.
  exact (proj1 (Forall_forall _ _) Hf y Hy).
Qed.

Section SortedDesc.
Context {A : Type} (key : A -> Q) (P : A -> A -> Prop).

(** [a] goes before [b]: its score is greater, or the scores are equal and
    [a] preceded [b] in the input. *)
Definition desc_then (a b : A) : Prop :=
  (key b < key a)%Q \/ ((key a == key b)%Q /\ P a b).

Lemma insert_desc_perm (x : A) (l : list A) :
  Permutation (Retrieval.insert_desc key x l) (x :: l).
Proof.
  induction l as [|y ys IH]; simpl; [reflexivity|].
  destruct (Retrieval.Qltb _ _); [|reflexivity].
  rewrite IH. apply perm_swap.
Qed.

Lemma sorted_desc_perm (l : list A) : Permutation (Retrieval.sorted_desc key l) l.
Proof.
  induction l as [|x l IH]; simpl; [reflexivity|].
  rewrite insert_desc_perm. now constructor.
Qed.

Lemma insert_desc_sorted (x : A) (l : list A) :
  StronglySorted desc_then l -> Forall (P x) l ->
  StronglySorted desc_then (Retrieval.insert_desc key x l).
Proof.
  induction 1 as [|y ys Hs IH Hf]; intros HP; simpl.
  - constructor; constructor.
  - inversion HP as [|? ? HPy HPys]; subst.
    destruct (Retrieval.Qltb (key x) (key y)) eqn:E.
    + apply Qltb_lt in E. constructor; [now apply IH|].
      rewrite (insert_desc_perm x ys). constructor; [now left | exact Hf].
    + apply Qltb_ge in E.
      assert (Hle : forall z, In z (y :: ys) -> (key z <= key x)%Q).
      { intros z [<- | Hz]; [exact E|].
        apply Qle_trans with (key y); [|exact E].
        destruct (proj1 (Forall_forall _ _) Hf z Hz) as [Hlt | [Heq _]].
        - now apply Qlt_le_weak.
        - rewrite Heq. apply Qle_refl. }
      constructor; [now constructor|].
      apply Forall_forall. intros z Hz.
      destruct (Qle_lt_or_eq _ _ (Hle z Hz)) as [Hlt | Heq].
      * now left.
      * right. split; [now symmetry|].
        exact (proj1 (Forall_forall _ _) HP z Hz).
Qed.

Lemma sorted_desc_sorted (l : list A) :
  StronglySorted P l -> StronglySorted desc_then (Retrieval.sorted_desc key l).
Proof.
  induction 1 as [|x l Hs IH Hf]; simpl; [constructor|].
  apply insert_desc_sorted; [exact IH|].
  now rewrite sorted_desc_perm.
Qed.

End SortedDesc.

Section SortedAsc.
Context {A : Type} (key : A -> Q).

Lemma insert_asc_perm (x : A) (l : list A) :
  Permutation (Retrieval.insert_asc key x l) (x :: l).
Proof.
  induction l as [|y ys IH]; simpl; [reflexivity|].
  destruct (Retrieval.Qltb _ _); [|reflexivity].
  rewrite IH. apply perm_swap.
Qed.

Lemma insert_asc_sorted (x : A) (l : list A) :
  StronglySorted (fun a b => (key a <= key b)%Q) l ->
  StronglySorted (fun a b => (key a <= key b)%Q) (Retrieval.insert_asc key x l).
Proof.
  induction 1 as [|y ys Hs IH Hf]; simpl.
  - constructor; constructor.
  - destruct (Retrieval.Qltb (key y) (key x)) eqn:E.
    + apply Qltb_lt in E. constructor; [exact IH|].
      rewrite (insert_asc_perm x ys). constructor; [now apply Qlt_le_weak | exact Hf].
    + apply Qltb_ge in E. constructor; [now constructor|].
      constructor; [exact E|].
      apply Forall_forall. intros z Hz.
      apply Qle_trans with (key y); [exact E|].
      exact (proj1 (Forall_forall _ _) Hf z Hz).
Qed.

End SortedAsc.

(** The stable sort of the indices meets what [np.argsort] promises. *)
Lemma argsort_stable_spec : Retrieval.argsort_spec Retrieval.argsort_stable.
Proof.
  intros scores. unfold Retrieval.argsort_stable.
  generalize (seq 0 (List.length scores)) as l.
  induction l as [|i l [IHp IHs]]; simpl.
  - split; [reflexivity | constructor].
  - split.
    + rewrite insert_asc_perm. now constructor.
    + now apply (insert_asc_sorted (fun i => nth i scores 0%Q)).
Qed.

(* ================================================================== *)
(** * The fused scores *)
(* ================================================================== *)

Lemma existsb_eqb_in (x : Z) (l : list Z) : existsb (Z.eqb x) l = true <-> In x l.
Proof.
  rewrite existsb_exists. split.
  - intros (y & Hy & E). apply Z.eqb_eq in E. now subst.
  - intros H. exists x. split; [exact H | apply Z.eqb_refl].
Qed.

Lemma existsb_eqb_not_in (x : Z) (l : list Z) : existsb (Z.eqb x) l = false <-> ~ In x l.
Proof.
  rewrite <- existsb_eqb_in. destruct (existsb _ _); split; intros; congruence.
Qed.

(** The keys of a dictionary after [d[k] = v]. *)
Definition note_key (keys : list Z) (k : Z) : list Z :=
  if existsb (Z.eqb k) keys then keys else keys ++ [k].

(** The ids of a list in the order of their first occurrence. *)
Definition first_occurrences (l : list Z) : list Z := fold_left note_key l [].

Lemma dict_set_keys {V} (d : list (Z * V)) (k : Z) (v : V) :
  map fst (Py.dict_set Z.eqb d k v) = note_key (map fst d) k.
Proof.
  unfold note_key. induction d as [|[k' v'] d IH]; simpl; [reflexivity|].
  destruct (Z.eqb k k'); simpl; [reflexivity|].
  rewrite IH. now destruct (existsb _ _).
Qed.

Lemma dict_set_in {V} (d : list (Z * V)) (k k0 : Z) (v v0 : V) :
  In (k, v) (Py.dict_set Z.eqb d k0 v0) -> In (k, v) d \/ (k, v) = (k0, v0).
Proof.
  induction d as [|[k' v'] d IH]; simpl.
  - intros [E | []]. right. now symmetry.
  - destruct (Z.eqb_spec k0 k') as [-> | Hne]; simpl.
    + intros [E | H]; [right; now symmetry | left; now right].
    + intros [E | H]; [left; now left|].
      destruct (IH H) as [H' | H']; [left; now right | now right].
Qed.

Lemma dict_get_in {V} (d : list (Z * V)) (k : Z) (v : V) :
  Py.dict_get Z.eqb d k = Some v -> In (k, v) d.
Proof.
  induction d as [|[k' v'] d IH]; simpl; [discriminate|].
  destruct (Z.eqb_spec k k') as [-> | Hne].
  - intros [= ->]. now left.
  - intros H. right. now apply IH.
Qed.

Lemma dict_get_none {V} (d : list (Z * V)) (k : Z) :
  Py.dict_get Z.eqb d k = None <-> ~ In k (map fst d).
Proof.
  induction d as [|[k' v'] d IH]; simpl; [tauto|].
  destruct (Z.eqb_spec k k') as [-> | Hne].
  - split; [discriminate | intros H; exfalso; apply H; now left].
  - rewrite IH. split; [intros H [E | H']; [congruence | tauto] | tauto].
Qed.

Lemma add_score_keys (d : Retrieval.scores_dict) (k : Z) (x : Q) :
  map fst (Retrieval.add_score d k x) = note_key (map fst d) k.
Proof. unfold Retrieval.add_score. apply dict_set_keys. Qed.

Lemma note_key_in (keys : list Z) (k x : Z) :
  In x (note_key keys k) <-> In x keys \/ x = k.
Proof.
  unfold note_key. destruct (existsb (Z.eqb k) keys) eqn:E.
  - apply existsb_eqb_in in E. split; [tauto | intros [H | ->]; assumption].
  - rewrite in_app_iff. simpl. intuition.
Qed.

Lemma fold_note_key_in (l keys : list Z) (x : Z) :
  In x (fold_left note_key l keys) <-> In x keys \/ In x l.
Proof.
  revert keys. induction l as [|k l IH]; intros keys; simpl; [tauto|].
  rewrite IH, note_key_in. intuition.
Qed.

Lemma first_occurrences_in (l : list Z) (x : Z) :
  In x (first_occurrences l) <-> In x l.
Proof. unfold first_occurrences. rewrite fold_note_key_in. simpl. tauto. Qed.

(** The vector loop makes the ids of the vector results the keys, in the
    order of their first occurrence. *)
Lemma vector_loop_keys (w : Q) (V : list (Z * Q)) (i : nat) (d : Retrieval.scores_dict) :
  map fst (fold_left (fun d '(rank, (chunk_id, _)) =>
                        Retrieval.add_score d chunk_id (Retrieval.rrf w rank))
                     (Py.enumerate_from i V) d)
  = fold_left note_key (map fst V) (map fst d).
Proof.
  revert i d. induction V as [|[id sc] V IH]; intros i d; simpl; [reflexivity|].
  now rewrite IH, add_score_keys.
Qed.

(** The keyword loop adds no key: it only touches ids of the vector
    results, which are keys already. *)
Lemma keyword_loop_keys (w : Q) (V B : list (Z * Q)) (i : nat) (d : Retrieval.scores_dict) :
  (forall id, In id (map fst V) -> In id (map fst d)) ->
  map fst (fold_left (fun d '(rank, (chunk_id, _)) =>
                        if existsb (Z.eqb chunk_id) (map fst V)
                        then Retrieval.add_score d chunk_id (Retrieval.rrf (1 - w) rank)
                        else d)
                     (Py.enumerate_from i B) d)
  = map fst d.
Proof.
  revert i d. induction B as [|[id sc] B IH]; intros i d Hd; simpl; [reflexivity|].
  destruct (existsb (Z.eqb id) (map fst V)) eqn:E.
  - assert (Hk : map fst (Retrieval.add_score d id (Retrieval.rrf (1 - w) i)) = map fst d).
    { rewrite add_score_keys. unfold note_key.
      apply existsb_eqb_in in E. apply Hd in E. apply existsb_eqb_in in E.
      now rewrite E. }
    rewrite IH; [exact Hk|]. intros id' Hid'. rewrite Hk. now apply Hd.
  - now apply IH.
Qed.

Lemma fused_scores_keys (w : Q) (V B : list (Z * Q)) :
  map fst (Retrieval.fused_scores w V B) = first_occurrences (map fst V).
Proof.
  unfold Retrieval.fused_scores, Retrieval.add_keyword_scores,
    Retrieval.add_vector_scores, Py.enumerate.
  rewrite keyword_loop_keys.
  - now rewrite vector_loop_keys.
  - intros id Hid. rewrite vector_loop_keys. apply fold_note_key_in. now right.
Qed.

(** ** Ranks *)

Lemma first_index_in_prefix (y : Z) (pre l : list Z) :
  In y pre -> (Retrieval.first_index y (pre ++ l) < List.length pre)%nat.
Proof.
  induction pre as [|x pre IH]; intros H; [destruct H|].
  simpl. destruct (Z.eqb_spec y x) as [-> | Hne]; [lia|].
  destruct H as [E | H]; [congruence|]. apply IH in H. lia.
Qed.

Lemma first_index_fresh (x : Z) (pre l : list Z) :
  ~ In x pre -> Retrieval.first_index x (pre ++ x :: l) = List.length pre.
Proof.
  induction pre as [|y pre IH]; intros H; simpl.
  - now rewrite Z.eqb_refl.
  - destruct (Z.eqb_spec x y) as [-> | Hne]; [exfalso; apply H; now left|].
    rewrite IH; [reflexivity|]. intros H'. apply H. now right.
Qed.

Definition rank_lt (ids : list Z) (a b : Z) : Prop :=
  (Retrieval.first_index a ids < Retrieval.first_index b ids)%nat.

Lemma fold_note_key_sorted (ids l pre keys : list Z) :
  ids = pre ++ l ->
  (forall x, In x keys <-> In x pre) ->
  StronglySorted (rank_lt ids) keys ->
  StronglySorted (rank_lt ids) (fold_left note_key l keys).
Proof.
  revert pre keys. induction l as [|k l IH]; intros pre keys Hids Hkeys Hs; simpl.
  - exact Hs.
  - apply (IH (pre ++ [k])).
    + now rewrite <- app_assoc.
    + intros x. rewrite note_key_in, in_app_iff, Hkeys. simpl. intuition.
    + unfold note_key. destruct (existsb (Z.eqb k) keys) eqn:E; [exact Hs|].
      apply existsb_eqb_not_in in E.
      apply StronglySorted_snoc; [exact Hs|].
      apply Forall_forall. intros y Hy. unfold rank_lt. subst ids.
      rewrite (first_index_fresh k pre l) by (now rewrite <- Hkeys).
      apply first_index_in_prefix. now apply Hkeys.
Qed.

Lemma first_occurrences_sorted (ids : list Z) :
  StronglySorted (rank_lt ids) (first_occurrences ids).
Proof.
  apply (fold_note_key_sorted ids ids [] []); [reflexivity | tauto | constructor].
Qed.

Lemma StronglySorted_map_inv {A B} (f : A -> B) (R : B -> B -> Prop) (l : list A) :
  StronglySorted R (map f l) -> StronglySorted (fun a b => R (f a) (f b)) l.
Proof.
  induction l as [|x l IH]; simpl; intros H; [constructor|].
  inversion H as [|? ? Hs Hf]; subst. constructor; [now apply IH|].
  apply Forall_forall. intros y Hy.
  exact (proj1 (Forall_forall _ _) Hf (f y) (in_map f l y Hy)).
Qed.

Lemma StronglySorted_map {A B} (f : A -> B) (R : B -> B -> Prop) (l : list A) :
  StronglySorted (fun a b => R (f a) (f b)) l -> StronglySorted R (map f l).
Proof.
  induction 1 as [|x l Hs IH Hf]; simpl; [constructor|].
  constructor; [exact IH|]. now apply Forall_map.
Qed.

(** An entry of the fused scores goes before another one: its score is
    greater, or the scores are equal and its chunk comes first in the
    vector results. *)
Definition outranks (ids : list Z) (a b : Z * Q) : Prop :=
  (snd b < snd a)%Q \/ ((snd a == snd b)%Q /\ rank_lt ids (fst a) (fst b)).

Lemma sorted_fused_outranks (w : Q) (V B : list (Z * Q)) :
  StronglySorted (outranks (map fst V))
                 (Retrieval.sorted_desc snd (Retrieval.fused_scores w V B)).
Proof.
  apply (sorted_desc_sorted snd (fun a b => rank_lt (map fst V) (fst a) (fst b))).
  apply StronglySorted_map_inv. rewrite fused_scores_keys.
  apply first_occurrences_sorted.
Qed.

(* ================================================================== *)
(** * [hybrid_search] *)
(* ================================================================== *)

(** The chunk id and the score of a result. *)
Definition hit_entry (h : Retrieval.Hit) : Z * Q :=
  (Db.chunk_id (Retrieval.chunk h), Retrieval.score h).

(** The store has a chunk row with this id. *)
Definition has_row (db : Db.Store) (id : Z) : bool :=
  existsb (fun c => Db.chunk_id c =? id) (Db.chunks db).

Lemma chunk_dict_keys (chunks : list Db.Chunk) (d : list (Z * Db.Chunk)) :
  map fst (fold_left (fun d c => Py.dict_set Z.eqb d (Db.chunk_id c) c) chunks d)
  = fold_left note_key (map Db.chunk_id chunks) (map fst d).
Proof.
  revert d. induction chunks as [|c chunks IH]; intros d; simpl; [reflexivity|].
  now rewrite IH, dict_set_keys.
Qed.

Lemma chunk_dict_ids (chunks : list Db.Chunk) (d : list (Z * Db.Chunk)) :
  (forall k c, In (k, c) d -> Db.chunk_id c = k) ->
  forall k c,
    In (k, c) (fold_left (fun d c => Py.dict_set Z.eqb d (Db.chunk_id c) c) chunks d) ->
    Db.chunk_id c = k.
Proof.
  revert d. induction chunks as [|c0 chunks IH]; intros d Hd k c; simpl; [apply Hd|].
  apply IH. intros k' c' H. apply dict_set_in in H.
  destruct H as [H | [= -> ->]]; [now apply Hd | reflexivity].
Qed.

Lemma chunk_dict_get (chunks : list Db.Chunk) (k : Z) (c : Db.Chunk) :
  Py.dict_get Z.eqb (Retrieval.chunk_dict chunks) k = Some c -> Db.chunk_id c = k.
Proof.
  intros H. apply dict_get_in in H.
  apply (chunk_dict_ids chunks [] (fun _ _ F => match F with end) k c H).
Qed.

Lemma has_row_hydrated (db : Db.Store) (ids : list Z) (id : Z) :
  In id ids ->
  has_row db id = true <->
  In id (map fst (Retrieval.chunk_dict (Db.chunks_with_ids db ids))).
Proof.
  intros Hid. unfold Retrieval.chunk_dict, has_row.
  rewrite chunk_dict_keys, fold_note_key_in, existsb_exists.
  unfold Db.chunks_with_ids. simpl. split.
  - intros (c & Hc & E). apply Z.eqb_eq in E. right.
    apply in_map_iff. exists c. split; [exact E|].
    apply filter_In. split; [exact Hc|]. rewrite E. now apply existsb_eqb_in.
  - intros [[] | H]. apply in_map_iff in H. destruct H as (c & E & Hc).
    apply filter_In in Hc.
    exists c. split; [exact (proj1 Hc) | now apply Z.eqb_eq].
Qed.

(** The results are the sorted and truncated entries whose chunk row
    exists, in the same order. *)
Lemma hydrate_entries (db : Db.Store) (ids : list Z) (l : list (Z * Q)) :
  (forall e, In e l -> In (fst e) ids) ->
  map hit_entry
      (flat_map (fun '(chunk_id, sc) =>
                   match Py.dict_get Z.eqb
                           (Retrieval.chunk_dict (Db.chunks_with_ids db ids)) chunk_id with
                   | Some c => [Retrieval.mkHit c sc (Db.text c) (Db.document_id c)
                                                (Db.chunk_index c)]
                   | None => []
                   end) l)
  = filter (fun e => has_row db (fst e)) l.
Proof.
  induction l as [|[id sc] l IH]; intros Hl; simpl; [reflexivity|].
  assert (Hid : In id ids) by (apply (Hl (id, sc)); now left).
  rewrite map_app, IH by (intros e He; apply Hl; now right).
  destruct (Py.dict_get Z.eqb _ id) as [c|] eqn:E.
  - assert (Hrow : has_row db id = true).
    { apply (has_row_hydrated db ids id Hid).
      apply dict_get_in in E. exact (in_map fst _ _ E). }
    rewrite Hrow. simpl. unfold hit_entry. simpl.
    now rewrite (chunk_dict_get _ _ _ E).
  - assert (Hrow : has_row db id = false).
    { destruct (has_row db id) eqn:F; [|reflexivity].
      apply (has_row_hydrated db ids id Hid) in F.
      apply dict_get_none in E. contradiction. }
    now rewrite Hrow.
Qed.

Lemma fuse_entries (db : Db.Store) (V B : list (Z * Q)) (top_k : nat) (w : Q) :
  map hit_entry (Retrieval.fuse db V B top_k w)
  = filter (fun e => has_row db (fst e))
           (Retrieval.sorted_chunks top_k (Retrieval.fused_scores w V B)).
Proof.
  unfold Retrieval.fuse. apply hydrate_entries.
  intros e He. now apply in_map.
Qed.

Lemma in_firstn {A} (n : nat) (l : list A) (x : A) : In x (firstn n l) -> In x l.
Proof.
  intros H. rewrite <- (firstn_skipn n l). apply in_or_app. now left.
Qed.

Lemma sorted_chunks_in (top_k : nat) (d : Retrieval.scores_dict) (e : Z * Q) :
  In e (Retrieval.sorted_chunks top_k d) -> In e d.
Proof.
  unfold Retrieval.sorted_chunks. intros H.
  apply (Permutation_in _ (sorted_desc_perm snd d)).
  now apply (in_firstn top_k).
Qed.

Lemma fuse_within_vector_results (db : Db.Store) (V B : list (Z * Q)) (top_k : nat)
  (w : Q) (h : Retrieval.Hit) :
  In h (Retrieval.fuse db V B top_k w) ->
  In (Db.chunk_id (Retrieval.chunk h)) (map fst V).
Proof.
  intros H. apply (in_map hit_entry) in H. rewrite fuse_entries in H.
  apply filter_In in H. destruct H as [H _]. apply sorted_chunks_in in H.
  apply (in_map fst) in H. rewrite fused_scores_keys in H.
  exact (proj1 (first_occurrences_in _ _) H).
Qed.

Lemma hybrid_search_inv (lib : Retrieval.Ports) (self : Retrieval.HybridRetriever)
  (db : Db.Store) (query : string) (cid : Z) (top_k : nat) (w : Q)
  (hits : list Retrieval.Hit) :
  Retrieval.hybrid_search lib self db query cid top_k w = Py.Ok hits ->
  exists qv,
    Embeddings.embed_query (Retrieval.embedding_service self) query = Py.Ok qv /\
    hits = Retrieval.fuse db
             (Retrieval.vector_search lib db qv cid (top_k * 2))
             (Retrieval.keyword_search lib self query (top_k * 2)) top_k w.
Proof.
  unfold Retrieval.hybrid_search. intros H.
  destruct (Embeddings.embed_query _ query) as [qv|e]; simpl in H; [|discriminate].
  exists qv. split; [reflexivity|]. now injection H as <-.
Qed.

(** [hybrid_search] returns whenever the query can be embedded. *)
Lemma hybrid_search_returns (lib : Retrieval.Ports) (self : Retrieval.HybridRetriever)
  (db : Db.Store) (query : string) (cid : Z) (top_k : nat) (w : Q)
  (qv : Embeddings.embedding) :
  Embeddings.embed_query (Retrieval.embedding_service self) query = Py.Ok qv ->
  exists hits, Retrieval.hybrid_search lib self db query cid top_k w = Py.Ok hits.
Proof.
  intros H. unfold Retrieval.hybrid_search. rewrite H. simpl. eexists. reflexivity.
Qed.

(** C1.  Whenever [hybrid_search] returns, with [V] the vector results for
    the limit [2 * top_k] and [B] the keyword results: a chunk id that is
    not in [V] has no fused score, whatever its BM25 rank; and the chunk of
    every returned result is one of the chunks of [V]. *)
Theorem hybrid_results_within_vector_results :
  forall (lib : Retrieval.Ports) (self : Retrieval.HybridRetriever) (db : Db.Store)
         (query : string) (cid : Z) (top_k : nat) (w : Q) (hits : list Retrieval.Hit),
    Retrieval.hybrid_search lib self db query cid top_k w = Py.Ok hits ->
    exists qv,
      Embeddings.embed_query (Retrieval.embedding_service self) query = Py.Ok qv /\
      let V := Retrieval.vector_search lib db qv cid (top_k * 2) in
      let B := Retrieval.keyword_search lib self query (top_k * 2) in
      (forall id, ~ In id (map fst V) ->
                  Py.dict_get Z.eqb (Retrieval.fused_scores w V B) id = None)
      /\ (forall h, In h hits -> In (Db.chunk_id (Retrieval.chunk h)) (map fst V)).
Proof.
  intros lib self db query cid top_k w hits H.
  destruct (hybrid_search_inv _ _ _ _ _ _ _ _ H) as (qv & Hq & ->).
  exists qv. split; [exact Hq|]. split.
  - intros id Hid. apply dict_get_none. rewrite fused_scores_keys.
    now rewrite first_occurrences_in.
  - intros h. apply fuse_within_vector_results.
Qed.

(** C4, as the code has it.  Whenever [hybrid_search] returns, its results
    are the entries of the fused scores sorted by descending score, equal
    scores in the order of the vector results, cut after [top_k] entries,
    less those whose chunk row is not in the store: at most [top_k]
    results, each outranking the next, and all of them outranking every
    fused entry that was cut. *)
Theorem hybrid_results_sorted_by_score_then_vector_rank :
  forall (lib : Retrieval.Ports) (self : Retrieval.HybridRetriever) (db : Db.Store)
         (query : string) (cid : Z) (top_k : nat) (w : Q) (hits : list Retrieval.Hit),
    Retrieval.hybrid_search lib self db query cid top_k w = Py.Ok hits ->
    exists qv,
      Embeddings.embed_query (Retrieval.embedding_service self) query = Py.Ok qv /\
      let V := Retrieval.vector_search lib db qv cid (top_k * 2) in
      let B := Retrieval.keyword_search lib self query (top_k * 2) in
      let fused := Retrieval.fused_scores w V B in
      let entries := map hit_entry hits in
      (List.length hits <= top_k)%nat
      /\ StronglySorted (outranks (map fst V)) entries
      /\ entries = filter (fun e => has_row db (fst e))
                          (firstn top_k (Retrieval.sorted_desc snd fused))
      /\ Permutation (Retrieval.sorted_desc snd fused) fused
      /\ (forall e, In e fused ->
            In e (firstn top_k (Retrieval.sorted_desc snd fused))
            \/ forall e', In e' entries -> outranks (map fst V) e' e).
Proof.
  intros lib self db query cid top_k w hits H.
  destruct (hybrid_search_inv _ _ _ _ _ _ _ _ H) as (qv & Hq & ->).
  exists qv. split; [exact Hq|].
  set (V := Retrieval.vector_search lib db qv cid (top_k * 2)).
  set (B := Retrieval.keyword_search lib self query (top_k * 2)).
  cbv zeta. rewrite fuse_entries. unfold Retrieval.sorted_chunks.
  set (sorted := Retrieval.sorted_desc snd (Retrieval.fused_scores w V B)).
  assert (Hs : StronglySorted (outranks (map fst V)) sorted)
    by apply sorted_fused_outranks.
  assert (Hp : Permutation sorted (Retrieval.fused_scores w V B))
    by apply sorted_desc_perm.
  split; [|split; [|split; [|split]]].
  - rewrite <- (length_map hit_entry), fuse_entries.
    unfold Retrieval.sorted_chunks. fold sorted.
    etransitivity; [apply filter_length_le|]. apply firstn_le_length.
  - now apply StronglySorted_filter, StronglySorted_firstn.
  - reflexivity.
  - exact Hp.
  - intros e He. apply (Permutation_in _ (Permutation_sym Hp)) in He.
    rewrite <- (firstn_skipn top_k sorted) in He. apply in_app_or in He.
    destruct He as [He | He]; [now left | right].
    intros e' He'. apply filter_In in He'. destruct He' as [He' _].
    rewrite <- (firstn_skipn top_k sorted) in Hs.
    exact (StronglySorted_app_cross _ _ _ Hs e' e He' He).
Qed.

(* ================================================================== *)
(** * [keyword_search] *)
(* ================================================================== *)

Lemma flat_map_option {A B} (f : A -> bool) (h : A -> B) (l : list A) :
  flat_map (fun x => if f x then [h x] else []) l = map h (filter f l).
Proof.
  induction l as [|x l IH]; simpl; [reflexivity|].
  rewrite IH. now destruct (f x).
Qed.

Lemma filter_all {A} (f : A -> bool) (l : list A) :
  (forall x, In x l -> f x = true) -> filter f l = l.
Proof.
  induction l as [|x l IH]; intros H; simpl; [reflexivity|].
  rewrite (H x (or_introl eq_refl)), IH; [reflexivity|].
  intros y Hy. apply H. now right.
Qed.

Section KeywordSearch.

Variable lib : Retrieval.Ports.
Variable self : Retrieval.HybridRetriever.
Variable corpus : list (list string).
Variable query : string.
Variable top_k : nat.

Hypothesis argsort_ok : Retrieval.argsort_spec (Retrieval.argsort lib).
Hypothesis index_built : Retrieval.bm25_index self = Some corpus.
Hypothesis top_k_positive : (1 <= top_k)%nat.

Let scores : list Q :=
  Retrieval.bm25_get_scores lib corpus (Retrieval._tokenize (Embeddings.lower query)).
Let entry (i : nat) : Z * Q := (nth i (Retrieval.chunk_ids self) 0, nth i scores 0%Q).
Let order : list nat := Retrieval.argsort lib scores.
Let cut : nat := (List.length order - top_k)%nat.
Let positive (i : nat) : bool := Retrieval.Qltb 0 (nth i scores 0%Q).

Lemma keyword_search_eq :
  Retrieval.keyword_search lib self query top_k
  = map entry (filter positive (rev (skipn cut order))).
Proof.
  unfold Retrieval.keyword_search. rewrite index_built.
  fold scores. fold order. unfold Retrieval.neg_slice, Py.last_n.
  destruct top_k as [|k]; [lia|]. fold cut.
  apply (flat_map_option positive entry).
Qed.

Lemma order_length : List.length order = List.length scores.
Proof.
  unfold order. rewrite (Permutation_length (proj1 (argsort_ok scores))).
  apply length_seq.
Qed.

Lemma order_in (i : nat) : In i order <-> (i < List.length scores)%nat.
Proof.
  unfold order. split; intros H.
  - apply (Permutation_in _ (proj1 (argsort_ok scores))) in H.
    apply in_seq in H. lia.
  - apply (Permutation_in _ (Permutation_sym (proj1 (argsort_ok scores)))).
    apply in_seq. lia.
Qed.

Lemma keyword_search_length :
  (List.length (Retrieval.keyword_search lib self query top_k) <= top_k)%nat.
Proof.
  rewrite keyword_search_eq, length_map.
  etransitivity; [apply filter_length_le|].
  rewrite length_rev, length_skipn. unfold cut. lia.
Qed.

Lemma keyword_search_sorted :
  StronglySorted (fun a b => (snd b <= snd a)%Q)
                 (Retrieval.keyword_search lib self query top_k).
Proof.
  rewrite keyword_search_eq. apply StronglySorted_map.
  apply StronglySorted_filter.
  apply (StronglySorted_rev (fun i j => (nth i scores 0 <= nth j scores 0)%Q)).
  apply (StronglySorted_app_r _ (firstn cut order)).
  rewrite firstn_skipn. exact (proj2 (argsort_ok scores)).
Qed.

Lemma keyword_search_in (e : Z * Q) :
  In e (Retrieval.keyword_search lib self query top_k) ->
  (0 < snd e)%Q /\ exists i, (i < List.length scores)%nat /\ e = entry i.
Proof.
  rewrite keyword_search_eq, in_map_iff. intros (i & <- & Hi).
  apply filter_In in Hi. destruct Hi as [Hi Hpos].
  split; [now apply Qltb_lt|].
  exists i. split; [|reflexivity].
  apply order_in. apply in_rev in Hi.
  rewrite <- (firstn_skipn cut order). apply in_or_app. now right.
Qed.

Lemma keyword_search_top (i : nat) :
  (i < List.length scores)%nat -> (0 < nth i scores 0)%Q ->
  In (entry i) (Retrieval.keyword_search lib self query top_k)
  \/ (List.length (Retrieval.keyword_search lib self query top_k) = top_k
      /\ forall e, In e (Retrieval.keyword_search lib self query top_k) ->
                   (nth i scores 0 <= snd e)%Q).
Proof.
  intros Hi Hpos. rewrite keyword_search_eq.
  apply order_in in Hi. rewrite <- (firstn_skipn cut order) in Hi.
  apply in_app_or in Hi. destruct Hi as [Hi | Hi].
  - right.
    assert (Hcross : forall j, In j (skipn cut order) ->
                               (nth i scores 0 <= nth j scores 0)%Q).
    { intros j Hj.
      pose proof (proj2 (argsort_ok scores)) as Hs. fold order in Hs.
      rewrite <- (firstn_skipn cut order) in Hs.
      exact (StronglySorted_app_cross _ _ _ Hs i j Hi Hj). }
    assert (Hall : filter positive (rev (skipn cut order)) = rev (skipn cut order)).
    { apply filter_all. intros j Hj. apply in_rev in Hj.
      apply Qltb_lt. apply Qlt_le_trans with (nth i scores 0%Q); [exact Hpos|].
      now apply Hcross. }
    rewrite Hall. split.
    + rewrite length_map, length_rev, length_skipn.
      assert (cut <> 0)%nat by (intros E; rewrite E in Hi; destruct Hi).
      unfold cut in *. lia.
    + intros e He. apply in_map_iff in He. destruct He as (j & <- & Hj).
      apply in_rev in Hj. now apply Hcross.
  - left. apply in_map. apply filter_In. split.
    + now apply in_rev in Hi.
    + now apply Qltb_lt.
Qed.

End KeywordSearch.

(** C5, as the code has it.  With an index built, [top_k >= 1] and an
    [argsort] that returns the indices in ascending order of score,
    [keyword_search] returns at most [top_k] pairs, in non-increasing order
    of score, each the chunk id and the positive score of an indexed
    chunk; and an indexed chunk of positive score is either returned or
    has a score no greater than that of the [top_k] pairs returned.  The
    order among equal scores is [argsort]'s, reversed. *)
Theorem keyword_search_top_positive :
  forall (lib : Retrieval.Ports) (self : Retrieval.HybridRetriever)
         (corpus : list (list string)) (query : string) (top_k : nat),
    Retrieval.argsort_spec (Retrieval.argsort lib) ->
    Retrieval.bm25_index self = Some corpus ->
    (1 <= top_k)%nat ->
    let scores :=
      Retrieval.bm25_get_scores lib corpus
        (Retrieval._tokenize (Embeddings.lower query)) in
    let results := Retrieval.keyword_search lib self query top_k in
    let entry := fun i => (nth i (Retrieval.chunk_ids self) 0, nth i scores 0%Q) in
    (List.length results <= top_k)%nat
    /\ StronglySorted (fun a b => (snd b <= snd a)%Q) results
    /\ (forall e, In e results ->
          (0 < snd e)%Q /\ exists i, (i < List.length scores)%nat /\ e = entry i)
    /\ (forall i, (i < List.length scores)%nat -> (0 < nth i scores 0)%Q ->
          In (entry i) results
          \/ (List.length results = top_k
              /\ forall e, In e results -> (nth i scores 0 <= snd e)%Q)).
Proof.
  intros lib self corpus query top_k Hsort Hidx Hk. cbv zeta.
  split; [|split; [|split]].
  - now apply (keyword_search_length lib self corpus).
  - now apply (keyword_search_sorted lib self corpus).
  - now apply (keyword_search_in lib self corpus).
  - now apply (keyword_search_top lib self corpus).
Qed.

(* ================================================================== *)
(** * A small collection *)
(* ================================================================== *)

(** A model that embeds every text as the same vector. *)
Definition demo_embedder : Embeddings.EmbeddingService :=
  Embeddings.mkEmbeddingService "BAAI/bge-small-en-v1.5"
    (fun texts => Py.Ok (map (fun _ => [1%Q]) texts)).

Definition demo_chunk (id : Z) (t : string) : Db.Chunk :=
  Db.mkChunk id 1 t 2 0 0 (Py.len t) [1%Q] [].

(** A scorer in the place of BM25: a query term counts two when it opens
    the document, one when it occurs later, nothing otherwise. *)
Definition demo_term_score (doc : list string) (term : string) : Q :=
  match doc with
  | first :: rest =>
      if String.eqb first term then 2%Q
      else if existsb (String.eqb term) rest then 1%Q else 0%Q
  | [] => 0%Q
  end.

Definition demo_get_scores (corpus : list (list string)) (q : list string) : list Q :=
  map (fun doc => fold_left (fun acc t => (acc + demo_term_score doc t)%Q) q 0%Q) corpus.

(** The vector search ranks chunk 7 before chunk 3. *)
Definition demo_lib : Retrieval.Ports :=
  Retrieval.mkPorts demo_get_scores Retrieval.argsort_stable
    (fun _ _ _ limit => firstn limit [(7, (9 # 10)%Q); (3, (8 # 10)%Q)]).

Definition demo_db : Db.Store :=
  Db.mkStore [Db.mkCollection 1 "animals"]
             [Db.mkDocument 1 1 "foxes" "text" None None]
             [demo_chunk 7 "quick fox"; demo_chunk 3 "fox quick"]
             [] [] [] 2 8 1.

Definition demo_retriever : Retrieval.HybridRetriever :=
  Retrieval.build_bm25_index (Retrieval.mkRetriever demo_embedder None [])
                             (Db.chunks demo_db).

(** The results of a search, as chunk ids and scores. *)
Definition entries_of (r : Py.result (list Retrieval.Hit)) : list (Z * Q) :=
  match r with
  | Py.Ok hits => map hit_entry hits
  | Py.Raise _ => []
  end.

Example demo_keyword_search :
  Retrieval.keyword_search demo_lib demo_retriever "Fox!" 4
  = [(3, (0 + 2)%Q); (7, (0 + 1)%Q)].
Proof. reflexivity. Qed.

Example demo_hybrid_search :
  map fst (entries_of (Retrieval.hybrid_search demo_lib demo_retriever demo_db "fox" 1 2
                         Retrieval.default_vector_weight))
  = [7; 3].
Proof. reflexivity. Qed.

Lemma hybrid_results_within_vector_results_witness :
  exists qv,
    Embeddings.embed_query (Retrieval.embedding_service demo_retriever) "fox" = Py.Ok qv /\
    let V := Retrieval.vector_search demo_lib demo_db qv 1 (2 * 2) in
    let B := Retrieval.keyword_search demo_lib demo_retriever "fox" (2 * 2) in
    (forall id, ~ In id (map fst V) ->
                Py.dict_get Z.eqb (Retrieval.fused_scores (7 # 10) V B) id = None)
    /\ (forall h,
          In h (Retrieval.fuse demo_db
                  (Retrieval.vector_search demo_lib demo_db [1%Q] 1 (2 * 2))
                  (Retrieval.keyword_search demo_lib demo_retriever "fox" (2 * 2))
                  2 (7 # 10)) ->
          In (Db.chunk_id (Retrieval.chunk h)) (map fst V)).
Proof.
  apply (hybrid_results_within_vector_results demo_lib demo_retriever demo_db
           "fox" 1 2 (7 # 10)).
  reflexivity.
Defined.

Lemma hybrid_results_sorted_witness :
  exists qv,
    Embeddings.embed_query (Retrieval.embedding_service demo_retriever) "fox" = Py.Ok qv /\
    let V := Retrieval.vector_search demo_lib demo_db qv 1 (2 * 2) in
    let B := Retrieval.keyword_search demo_lib demo_retriever "fox" (2 * 2) in
    let fused := Retrieval.fused_scores (1 # 2) V B in
    let entries :=
      map hit_entry
          (Retrieval.fuse demo_db
             (Retrieval.vector_search demo_lib demo_db [1%Q] 1 (2 * 2))
             (Retrieval.keyword_search demo_lib demo_retriever "fox" (2 * 2))
             2 (1 # 2)) in
    (List.length entries <= 2)%nat
    /\ StronglySorted (outranks (map fst V)) entries
    /\ entries = filter (fun e => has_row demo_db (fst e))
                        (firstn 2 (Retrieval.sorted_desc snd fused))
    /\ Permutation (Retrieval.sorted_desc snd fused) fused
    /\ (forall e, In e fused ->
          In e (firstn 2 (Retrieval.sorted_desc snd fused))
          \/ forall e', In e' entries -> outranks (map fst V) e' e).
Proof.
  destruct (hybrid_results_sorted_by_score_then_vector_rank demo_lib demo_retriever
              demo_db "fox" 1 2 (1 # 2) _ eq_refl) as (qv & Hq & H).
  exists qv. split; [exact Hq|].
  cbv zeta in H |- *. rewrite length_map. exact H.
Defined.

(** C4 as the specification states it fails.  With a weight of one half,
    chunk 7 is first in the vector results and second in the keyword
    results, chunk 3 the other way round: their fused scores are equal,
    and chunk 7 is returned before chunk 3. *)
Lemma equal_scores_keep_vector_order :
  map fst (entries_of (Retrieval.hybrid_search demo_lib demo_retriever demo_db "fox" 1 2
                         (1 # 2)))
  = [7; 3]
  /\ Forall (fun e => (snd e == 123 # 7564)%Q)
            (entries_of (Retrieval.hybrid_search demo_lib demo_retriever demo_db "fox" 1 2
                           (1 # 2))).
Proof.
  split; [reflexivity|].
  vm_compute. repeat constructor.
Qed.

(** With a weight of zero and a query without a word, every fused score
    is [0 / (k + rank + 1)], that is 0, and the results come in the order of
    the vector results. *)
Example zero_weight_keeps_vector_order :
  Retrieval.keyword_search demo_lib demo_retriever "?!" 4 = []
  /\ map fst (entries_of (Retrieval.hybrid_search demo_lib demo_retriever demo_db "?!" 1 2 0))
     = [7; 3]
  /\ Forall (fun e => (snd e == 0)%Q)
            (entries_of (Retrieval.hybrid_search demo_lib demo_retriever demo_db "?!" 1 2 0)).
Proof.
  split; [reflexivity|]. split; [reflexivity|]. vm_compute. repeat constructor.
Qed.

Lemma keyword_search_top_positive_witness :
  let scores :=
    Retrieval.bm25_get_scores demo_lib
      [["quick"; "fox"]; ["fox"; "quick"]]
      (Retrieval._tokenize (Embeddings.lower "fox")) in
  let results := Retrieval.keyword_search demo_lib demo_retriever "fox" 1 in
  let entry := fun i => (nth i (Retrieval.chunk_ids demo_retriever) 0, nth i scores 0%Q) in
  (List.length results <= 1)%nat
  /\ StronglySorted (fun a b => (snd b <= snd a)%Q) results
  /\ (forall e, In e results ->
        (0 < snd e)%Q /\ exists i, (i < List.length scores)%nat /\ e = entry i)
  /\ (forall i, (i < List.length scores)%nat -> (0 < nth i scores 0)%Q ->
        In (entry i) results
        \/ (List.length results = 1%nat
            /\ forall e, In e results -> (nth i scores 0 <= snd e)%Q)).
Proof.
  apply (keyword_search_top_positive demo_lib demo_retriever
           [["quick"; "fox"]; ["fox"; "quick"]] "fox" 1).
  - exact argsort_stable_spec.
  - reflexivity.
  - lia.
Defined.

(** Two chunks with the same words, hence with the same score. *)
Definition tie_retriever (ids : list Z) : Retrieval.HybridRetriever :=
  Retrieval.mkRetriever demo_embedder (Some [["fox"; "den"]; ["fox"; "den"]]) ids.

(** C5 as the specification states it fails: two chunks of equal score
    come back with the greater chunk id first. *)
Lemma equal_scores_not_by_chunk_id :
  Retrieval.keyword_search demo_lib (tie_retriever [1; 2]) "fox" 2
  = [(2, (0 + 2)%Q); (1, (0 + 2)%Q)].
Proof. reflexivity. Qed.

(** This does not depend on how [argsort] orders equal scores: it sees the
    scores and not the chunk ids, so whichever order it picks for two equal
    scores, one of the two ways of numbering the two chunks comes back with
    the greater id first. *)
Lemma equal_scores_follow_argsort (sort : list Q -> list nat) :
  Retrieval.argsort_spec sort ->
  let lib := Retrieval.mkPorts demo_get_scores sort (Retrieval.sql_nearest demo_lib) in
  map fst (Retrieval.keyword_search lib (tie_retriever [1; 2]) "fox" 2) = [2; 1]
  \/ map fst (Retrieval.keyword_search lib (tie_retriever [2; 1]) "fox" 2) = [2; 1].
Proof.
  intros Hsort lib.
  destruct (Hsort [(0 + 2)%Q; (0 + 2)%Q]) as [Hperm _].
  apply Permutation_sym, Permutation_length_2_inv in Hperm.
  unfold Retrieval.keyword_search. simpl Retrieval.bm25_index. cbv iota.
  change (Retrieval.bm25_get_scores lib [["fox"; "den"]; ["fox"; "den"]]
            (Retrieval._tokenize (Embeddings.lower "fox")))
    with [(0 + 2)%Q; (0 + 2)%Q].
  change (Retrieval.argsort lib) with sort.
  destruct Hperm as [-> | ->]; [left | right]; reflexivity.
Qed.

(** With [top_k = 0] the slice [[-0:]] keeps every index, and every chunk
    of positive score is returned. *)
Example keyword_search_top_zero :
  map fst (Retrieval.keyword_search demo_lib demo_retriever "fox" 0) = [3; 7].
Proof. reflexivity. Qed.

(* ================================================================== *)
(** * The session of [process_document] *)
(* ================================================================== *)

Section SessionRules.
Import Ingest.

Variable lib : Ports.

(** A property of the store that a computation keeps, whether it returns
    or raises. *)
Definition preserves {A} (I : Db.Store -> Prop) (m : M A) : Prop :=
  forall s, I (store s) -> I (store (snd (m s))).

Lemma preserves_lift {A} (I : Db.Store -> Prop) (r : Py.result A) :
  preserves I (lift r).
Proof. intros s H. exact H. Qed.

Lemma preserves_the_job (I : Db.Store -> Prop) (jid : string) :
  preserves I (the_job jid).
Proof. intros s H. unfold the_job. now destruct (Db.find_job _ _). Qed.

Lemma preserves_commit (I : Db.Store -> Prop) (change : Db.Store -> Db.Store) :
  (forall db, I db -> I (change db)) -> preserves I (commit lib change).
Proof.
  intros Hc s H. unfold commit. destruct (commit_fails lib _); simpl; auto.
Qed.

Lemma preserves_bind {A B} (I : Db.Store -> Prop) (m : M A) (k : A -> M B) :
  preserves I m -> (forall a, preserves I (k a)) -> preserves I (bindM m k).
Proof.
  intros Hm Hk s H. unfold bindM. specialize (Hm s H).
  destruct (m s) as [[a | e] s']; simpl in *; [now apply Hk | exact Hm].
Qed.

(** After a call that raises, the rest of the block does not run. *)
Lemma preserves_bind_lift {A B} (I : Db.Store -> Prop) (r : Py.result A) (k : A -> M B) :
  (forall a, r = Py.Ok a -> preserves I (k a)) -> preserves I (bindM (lift r) k).
Proof.
  intros Hk s H. unfold bindM, lift. destruct r as [a | e]; simpl; [|exact H].
  now apply (Hk a).
Qed.

Lemma preserves_try {A} (I : Db.Store -> Prop) (body : M A) (handler : string -> M A) :
  preserves I body -> (forall e, preserves I (handler e)) ->
  preserves I (try_except body handler).
Proof.
  intros Hb Hh s H. unfold try_except. specialize (Hb s H).
  destruct (body s) as [[a | e] s']; simpl in *; [exact Hb | now apply Hh].
Qed.

Lemma process_document_store (db : Db.Store) (jid : string) (did : Z)
  (content source_type : string) :
  snd (process_document lib db jid did content source_type)
  = store (snd (try_except (process_body lib jid did content source_type)
                           (process_handler lib jid) (mkSession db 0))).
Proof.
  unfold process_document. now destruct (try_except _ _ _).
Qed.

Lemma commit_succeeds (change : Db.Store -> Db.Store) (s : Session) :
  (forall n, commit_fails lib n = false) ->
  commit lib change s = (Py.Ok tt, mkSession (change (store s)) (S (n_commits s))).
Proof. intros H. unfold commit. now rewrite H. Qed.

End SessionRules.

(** ** The job row under updates *)

Lemma find_map_same {A} (p : A -> bool) (g : A -> A) (l : list A) :
  (forall x, p (g x) = p x) -> find p (map g l) = option_map g (find p l).
Proof.
  intros H. induction l as [|x l IH]; simpl; [reflexivity|].
  rewrite H. now destruct (p x).
Qed.

Lemma find_job_update (db : Db.Store) (jid : string) (f : Db.IngestJob -> Db.IngestJob) :
  (forall j, Db.job_id (f j) = Db.job_id j) ->
  Db.find_job (Ingest.update_job jid f db) jid = option_map f (Db.find_job db jid).
Proof.
  intros Hf. unfold Db.find_job, Ingest.update_job. simpl.
  rewrite find_map_same.
  - destruct (find _ (Db.jobs db)) as [j|] eqn:E; simpl; [|reflexivity].
    apply find_some in E. destruct E as [_ E]. rewrite E. reflexivity.
  - intros j. destruct (String.eqb (Db.job_id j) jid) eqn:E;
      [now rewrite Hf | exact E].
Qed.

Lemma find_job_progress (db : Db.Store) (jid : string) (st : Db.job_status) (p : Z) :
  Db.find_job (Ingest.update_job jid (Ingest.set_progress st p) db) jid
  = option_map (Ingest.set_progress st p) (Db.find_job db jid).
Proof. now apply find_job_update. Qed.

Lemma find_job_failed (db : Db.Store) (jid e : string) :
  Db.find_job (Ingest.update_job jid (Ingest.set_failed e) db) jid
  = option_map (Ingest.set_failed e) (Db.find_job db jid).
Proof. now apply find_job_update. Qed.

Lemma find_job_completed (db : Db.Store) (jid : string) (now : Z) :
  Db.find_job (Ingest.update_job jid (Ingest.set_completed now) db) jid
  = option_map (Ingest.set_completed now) (Db.find_job db jid).
Proof. now apply find_job_update. Qed.


Lemma chunk_rows_text (next did : Z) (cs : list Chunking.Chunk)
  (es : list Embeddings.embedding) :
  List.length es = List.length cs ->
  map Db.text (Ingest.chunk_rows next did (combine cs es)) = map Chunking.text cs.
Proof.
  revert next es. induction cs as [|c cs IH]; intros next es H; [reflexivity|].
  destruct es as [|e es]; [discriminate|]. simpl.
  rewrite IH; [reflexivity | simpl in H; lia].
Qed.

Section NoFault.
Import Ingest.

Variable lib : Ports.
Variable db : Db.Store.
Variable jid : string.
Variable did : Z.
Variable content source_type : string.
Variable j : Db.IngestJob.

Hypothesis no_fault : forall n, commit_fails lib n = false.
Hypothesis job_exists : Db.find_job db jid = Some j.

Definition progressed (p : Z) (d : Db.Store) : Db.Store :=
  update_job jid (set_progress Db.processing p) d.

Lemma process_document_no_fault :
  process_document lib db jid did content source_type
  = match parse_document lib content source_type with
    | Py.Raise e => (Py.Ok tt, update_job jid (set_failed e) (progressed 10 db))
    | Py.Ok parsed =>
        let chunks_data := Chunking.chunk_text (chunker lib) (parsed_text parsed) in
        match Embeddings.embed_batch (embedding_service lib)
                (map Chunking.text chunks_data) 32 with
        | Py.Raise e =>
            (Py.Ok tt,
             update_job jid (set_failed e) (progressed 50 (progressed 30 (progressed 10 db))))
        | Py.Ok embeddings =>
            (Py.Ok tt,
             update_job jid (set_completed (utcnow lib))
               (add_chunks did (combine chunks_data embeddings)
                  (progressed 80 (progressed 50 (progressed 30 (progressed 10 db))))))
        end
    end.
Proof.
  unfold process_document, try_except, process_body, process_handler.
  unfold bindM at 1. unfold the_job at 1. cbn [store]. rewrite job_exists.
  unfold bindM at 1. rewrite (commit_succeeds lib _ _ no_fault). cbn [store n_commits].
  unfold bindM at 1. unfold lift at 1.
  destruct (parse_document lib content source_type) as [parsed | e].
  2:{ unfold bindM, the_job. cbn [store].
      fold (progressed 10 db). unfold progressed at 1.
      rewrite find_job_progress, job_exists. cbn [option_map].
      rewrite (commit_succeeds lib _ _ no_fault). reflexivity. }
  unfold bindM at 1. rewrite (commit_succeeds lib _ _ no_fault). cbn [store n_commits].
  unfold bindM at 1. rewrite (commit_succeeds lib _ _ no_fault). cbn [store n_commits].
  unfold bindM at 1. unfold lift at 1. cbv zeta.
  destruct (Embeddings.embed_batch _ _ 32) as [embeddings | e].
  2:{ unfold bindM, the_job. cbn [store].
      rewrite !find_job_progress, job_exists. cbn [option_map].
      rewrite (commit_succeeds lib _ _ no_fault). reflexivity. }
  unfold bindM at 1. rewrite (commit_succeeds lib _ _ no_fault). cbn [store n_commits].
  unfold bindM at 1. rewrite (commit_succeeds lib _ _ no_fault). cbn [store n_commits].
  rewrite (commit_succeeds lib _ _ no_fault). reflexivity.
Qed.

End NoFault.

(* ================================================================== *)
(** * Ingestion jobs *)
(* ================================================================== *)

Lemma chunk_text_blank (self : Chunking.DocumentChunker) (t : string) :
  Py.strip t = "" -> Chunking.chunk_text self t = [].
Proof. intros H. unfold Chunking.chunk_text. now rewrite H. Qed.

Lemma embed_batch_empty (self : Embeddings.EmbeddingService) (batch_size : nat) :
  exists msg, Embeddings.embed_batch self [] batch_size = Py.Raise msg.
Proof. destruct batch_size; simpl; eexists; reflexivity. Qed.

(** The job row is there and is not marked completed. *)
Definition not_completed (jid : string) (db : Db.Store) : Prop :=
  exists j, Db.find_job db jid = Some j /\ Db.status j <> Db.completed.

Lemma not_completed_progress (jid : string) (p : Z) (db : Db.Store) :
  not_completed jid db ->
  not_completed jid (Ingest.update_job jid (Ingest.set_progress Db.processing p) db).
Proof.
  intros (j & Hj & _). eexists. rewrite find_job_progress, Hj. simpl.
  split; [reflexivity | discriminate].
Qed.

Lemma not_completed_failed (jid e : string) (db : Db.Store) :
  not_completed jid db ->
  not_completed jid (Ingest.update_job jid (Ingest.set_failed e) db).
Proof.
  intros (j & Hj & _). eexists. rewrite find_job_failed, Hj. simpl.
  split; [reflexivity | discriminate].
Qed.

Section BlankDocument.
Import Ingest.

Variable lib : Ports.
Variable db : Db.Store.
Variable jid : string.
Variable did : Z.
Variable content source_type : string.
Variable parsed : Parsed.

Hypothesis parse_ok : parse_document lib content source_type = Py.Ok parsed.
Hypothesis blank : Py.strip (parsed_text parsed) = "".

(** What a job on a blank text keeps, whichever commits are refused. *)
Let kept (d : Db.Store) : Prop := not_completed jid d /\ Db.chunks d = Db.chunks db.

Lemma kept_progress (p : Z) (d : Db.Store) :
  kept d -> kept (update_job jid (set_progress Db.processing p) d).
Proof. intros [H1 H2]. split; [now apply not_completed_progress | exact H2]. Qed.

Lemma kept_failed (e : string) (d : Db.Store) :
  kept d -> kept (update_job jid (set_failed e) d).
Proof. intros [H1 H2]. split; [now apply not_completed_failed | exact H2]. Qed.

Lemma blank_body_keeps : preserves kept (process_body lib jid did content source_type).
Proof.
  unfold process_body.
  apply preserves_bind; [apply preserves_the_job | intros _].
  apply preserves_bind; [apply preserves_commit, kept_progress | intros _].
  apply preserves_bind_lift. intros p Hp.
  rewrite parse_ok in Hp. injection Hp as <-.
  apply preserves_bind; [apply preserves_commit, kept_progress | intros _].
  apply preserves_bind; [apply preserves_commit, kept_progress | intros _].
  apply preserves_bind_lift. intros es Hes.
  rewrite (chunk_text_blank _ _ blank) in Hes. discriminate Hes.
Qed.

Lemma blank_handler_keeps (e : string) : preserves kept (process_handler lib jid e).
Proof.
  unfold process_handler.
  apply preserves_bind; [apply preserves_the_job | intros _].
  apply preserves_commit, kept_failed.
Qed.

Lemma blank_job_keeps :
  not_completed jid db ->
  kept (snd (process_document lib db jid did content source_type)).
Proof.
  intros H. rewrite process_document_store.
  apply (preserves_try kept _ _ blank_body_keeps blank_handler_keeps
           (mkSession db 0)).
  split; [exact H | reflexivity].
Qed.

Lemma blank_job_fails (j : Db.IngestJob) :
  (forall n, commit_fails lib n = false) ->
  Db.find_job db jid = Some j ->
  job_status_of (snd (process_document lib db jid did content source_type)) jid
  = Some Db.failed.
Proof.
  intros Hno Hj. rewrite (process_document_no_fault lib db jid did _ _ j Hno Hj).
  rewrite parse_ok. cbv zeta. rewrite (chunk_text_blank _ _ blank).
  simpl. unfold job_status_of, progressed.
  now rewrite find_job_failed, !find_job_progress, Hj.
Qed.

End BlankDocument.

(** C10.  [embed_batch] raises on an empty list of texts.  Hence a job
    that is not yet completed and whose parsed text is empty or white space
    (for which the chunker returns no chunk) is never marked completed and
    stores no chunk, whichever commits the database refuses; and when the
    database refuses none, the job ends failed. *)
Theorem blank_document_job_fails :
  forall (lib : Ingest.Ports) (db : Db.Store) (job_id : string) (document_id : Z)
         (content source_type : string) (j : Db.IngestJob) (parsed : Ingest.Parsed),
    Db.find_job db job_id = Some j ->
    Db.status j <> Db.completed ->
    Ingest.parse_document lib content source_type = Py.Ok parsed ->
    Py.strip (Ingest.parsed_text parsed) = "" ->
    (forall self batch_size,
        exists msg, Embeddings.embed_batch self [] batch_size = Py.Raise msg)
    /\ Chunking.chunk_text (Ingest.chunker lib) (Ingest.parsed_text parsed) = []
    /\ let db' :=
         snd (Ingest.process_document lib db job_id document_id content source_type) in
       Ingest.job_status_of db' job_id <> Some Db.completed
       /\ Db.chunks db' = Db.chunks db
       /\ ((forall n, Ingest.commit_fails lib n = false) ->
           Ingest.job_status_of db' job_id = Some Db.failed).
Proof.
  intros lib db jid did content st j parsed Hj Hst Hparse Hblank.
  split; [apply embed_batch_empty|].
  split; [now apply chunk_text_blank|].
  cbv zeta.
  destruct (blank_job_keeps lib db jid did content st parsed Hparse Hblank)
    as [(j' & Hj' & Hst') Hchunks]; [now exists j|].
  split; [|split].
  - unfold Ingest.job_status_of. rewrite Hj'. simpl. congruence.
  - exact Hchunks.
  - intros Hno. now apply (blank_job_fails lib db jid did content st parsed Hparse Hblank j).
Qed.

Section NeverRemoves.
Import Ingest.

Variable lib : Ports.
Variable db : Db.Store.
Variable jid : string.
Variable did : Z.
Variable content source_type : string.





End NeverRemoves.


(* ================================================================== *)
(** * A small deployment *)
(* ================================================================== *)

(** Two pages: one with two words, one with white space only. *)
Definition demo_parse_url (u : string) : Py.result Ingest.Parsed :=
  if String.eqb u "http://example.org/fox"
  then Py.Ok (Ingest.mkParsed "quick fox" [("source_type", Chunking.MStr "url")])
  else if String.eqb u "http://example.org/blank"
  then Py.Ok (Ingest.mkParsed "   " [("source_type", Chunking.MStr "url")])
  else Py.Raise "Error parsing URL: 404".

(** The ports of the deployment; the digest is a stand-in that, like
    SHA-256 on these texts, gives different texts different digests.
    [refused] tells which commits of a session the database refuses. *)
Definition demo_ports (refused : nat -> bool) : Ingest.Ports :=
  Ingest.mkPorts demo_parse_url
                 (fun _ => Py.Raise "Error parsing PDF: no such file")
                 (fun s => ("sha256:" ++ s)%string)
                 Chunking.word_tokenizer
                 demo_embedder
                 1000
                 refused.

Definition no_refusal (n : nat) : bool := false.

Definition base_db : Db.Store :=
  Db.mkStore [Db.mkCollection 1 "animals"] [] [] [] [] [] 1 1 1.

Definition fox_request : Ingest.IngestRequest :=
  Ingest.mkIngestRequest 1 (Some "http://example.org/fox") None "Foxes".

Definition blank_request : Ingest.IngestRequest :=
  Ingest.mkIngestRequest 1 (Some "http://example.org/blank") None "Blank".

(** The store after an endpoint has answered, and the task it queued. *)
Definition db_of {A} (r : A * Db.Store * option Ingest.Task) : Db.Store := snd (fst r).
Definition task_of {A} (r : A * Db.Store * option Ingest.Task) : option Ingest.Task := snd r.

Definition pending_job (jid : string) (did : Z) : Db.IngestJob :=
  Db.mkJob jid 1 did Db.pending 0 None None.

Lemma blank_document_job_fails_witness :
  let lib := demo_ports no_refusal in
  let db := db_of (Ingest.ingest_url "job-1" base_db blank_request) in
  (forall self batch_size,
      exists msg, Embeddings.embed_batch self [] batch_size = Py.Raise msg)
  /\ Chunking.chunk_text (Ingest.chunker lib) "   " = []
  /\ let db' :=
       snd (Ingest.process_document lib db "job-1" 1 "http://example.org/blank" "url") in
     Ingest.job_status_of db' "job-1" <> Some Db.completed
     /\ Db.chunks db' = Db.chunks db
     /\ ((forall n, Ingest.commit_fails lib n = false) ->
         Ingest.job_status_of db' "job-1" = Some Db.failed).
Proof.
  apply (blank_document_job_fails (demo_ports no_refusal)
           (db_of (Ingest.ingest_url "job-1" base_db blank_request))
           "job-1" 1 "http://example.org/blank" "url"
           (pending_job "job-1" 1)
           (Ingest.mkParsed "   " [("source_type", Chunking.MStr "url")])).
  - reflexivity.
  - discriminate.
  - reflexivity.
  - reflexivity.
Defined.


Example fox_job_completes :
  let db' := Ingest.run_task (demo_ports no_refusal)
               (db_of (Ingest.ingest_url "job-1" base_db fox_request))
               (task_of (Ingest.ingest_url "job-1" base_db fox_request)) in
  Ingest.job_status_of db' "job-1" = Some Db.completed
  /\ map (fun c => (Db.chunk_id c, Db.text c, Db.chunk_index c))
         (Db.chunks_of_document db' 1)
     = [(1, "quick fox", 0)].
Proof. split; reflexivity. Qed.

(** The database refuses the sixth commit of the session, the one that
    marks the job completed. *)
Definition sixth_refused (n : nat) : bool := Nat.eqb n 5.


(** When it is the commit of the chunk rows that is refused, the
    transaction is rolled back and no row is stored. *)
Example refused_chunk_commit_stores_nothing :
  let db' := Ingest.run_task (demo_ports (Nat.eqb 4))
               (db_of (Ingest.ingest_url "job-1" base_db fox_request))
               (task_of (Ingest.ingest_url "job-1" base_db fox_request)) in
  Ingest.job_status_of db' "job-1" = Some Db.failed
  /\ Db.chunks_of_document db' 1 = [].
Proof. split; reflexivity. Qed.

(* ================================================================== *)
(** * Duplicates *)
(* ================================================================== *)

(** [ingest_url] adds a document row without a checksum, whatever the
    store holds. *)
Lemma ingest_url_adds_document (uuid : string) (db : Db.Store)
  (request : Ingest.IngestRequest) (u : string) (c : Db.Collection) :
  Ingest.url request = Some u -> u <> "" ->
  Db.find_collection db (Ingest.collection_id request) = Some c ->
  Db.documents (db_of (Ingest.ingest_url uuid db request))
  = Db.documents db
    ++ [Db.mkDocument (Db.next_document_id db) (Ingest.collection_id request)
                      (Ingest.title request) "url" (Some u) None].
Proof.
  intros Hu Hne Hc. unfold Ingest.ingest_url, db_of. rewrite Hu, Hc.
  destruct u; [contradiction | reflexivity].
Qed.

(** A text file with the words of the page is uploaded and processed. *)
Definition after_upload : Db.Store :=
  let r := Ingest.upload_document (demo_ports no_refusal) "job-1" base_db 1
                                  "fox.txt" "quick fox" in
  Ingest.run_task (demo_ports no_refusal) (db_of r) (task_of r).

(** Then the page is ingested by its URL. *)
Definition after_url : Db.Store :=
  let r := Ingest.ingest_url "job-2" after_upload fox_request in
  Ingest.run_task (demo_ports no_refusal) (db_of r) (task_of r).

(** C3 at a page whose text was uploaded before.  The store has a document
    with the checksum of the page's text; the URL job still ends
    completed, with a second document row, without checksum, and its
    chunk.  Uploading the same text again is refused. *)
Theorem url_ingestion_skips_duplicate_check :
  Ingest.parse_url (demo_ports no_refusal) "http://example.org/fox"
  = Py.Ok (Ingest.mkParsed "quick fox" [("source_type", Chunking.MStr "url")])
  /\ option_map Db.doc_id
       (Db.find_document_by_checksum after_upload
          (Ingest.calculate_checksum (demo_ports no_refusal) "quick fox"))
     = Some 1
  /\ Ingest.job_status_of after_url "job-2" = Some Db.completed
  /\ map (fun d => (Db.doc_id d, Db.doc_source_type d, Db.doc_checksum d))
         (Db.documents after_url)
     = [(1, "text", Some "sha256:quick fox"); (2, "url", None)]
  /\ map Db.text (Db.chunks_of_document after_url 2) = ["quick fox"]
  /\ fst (fst (Ingest.upload_document (demo_ports no_refusal) "job-3" after_url 1
                 "copy.txt" "quick fox"))
     = Py.Raise "400: Document already exists".
Proof. repeat split; reflexivity. Qed.

(* ================================================================== *)
(** * [ask_question] *)
(* ================================================================== *)

(** C9, as the code has it.  When the retrieval returns and the confidence
    is below 0.05, [ask_question] answers with the fixed message, no
    citation and that confidence, and returns before the language model is
    called and before anything is saved: the store is the one it was given,
    with no new [Query] row. *)
Theorem low_confidence_short_circuit :
  forall (lib : Retrieval.Ports) (llm_service : Llm.LLMService) (elapsed : Z)
         (retriever : Retrieval.HybridRetriever) (db : Db.Store)
         (request : QueryApi.QueryRequest) (c : Db.Collection)
         (results : list Retrieval.Hit),
    Db.find_collection db (QueryApi.collection_id request) = Some c ->
    Db.chunks_of_collection db (QueryApi.collection_id request) <> [] ->
    QueryApi.retrieve lib
      (Retrieval.build_bm25_index retriever
         (Db.chunks_of_collection db (QueryApi.collection_id request)))
      db request = Py.Ok results ->
    (Llm.check_answerability (QueryApi.question request) results < 5 # 100)%Q ->
    QueryApi.ask_question lib llm_service elapsed retriever db request
    = (Py.Ok (QueryApi.mkQueryResponse QueryApi.insufficient_answer []
                (Llm.check_answerability (QueryApi.question request) results) elapsed),
       db,
       Retrieval.build_bm25_index retriever
         (Db.chunks_of_collection db (QueryApi.collection_id request))).
Proof.
  intros lib llm elapsed retriever db request c results Hc Hne Hr Hlow.
  unfold QueryApi.ask_question. rewrite Hc.
  destruct (Db.chunks_of_collection db (QueryApi.collection_id request)) as [|x l] eqn:E;
    [contradiction|].
  rewrite Hr. apply Qltb_lt in Hlow. now rewrite Hlow.
Qed.

(** The language model of the examples answers with the first context. *)
Definition demo_llm : Llm.LLMService :=
  Llm.mkLLM (fun q contexts =>
               Llm.mkAnswerData
                 (match contexts with
                  | h :: _ => (Retrieval.hit_text h ++ " [1]")%string
                  | [] => "I cannot answer this based on the provided documents"
                  end)
                 [] 12 "ollama").

(** A request for no chunk at all. *)
Definition zero_request : QueryApi.QueryRequest :=
  QueryApi.mkQueryRequest "where do foxes sleep" 1 0 true.

Definition fox_question : QueryApi.QueryRequest :=
  QueryApi.mkQueryRequest "where do foxes sleep" 1 2 true.

Definition unindexed : Retrieval.HybridRetriever :=
  Retrieval.mkRetriever demo_embedder None [].

Lemma low_confidence_short_circuit_witness :
  QueryApi.ask_question demo_lib demo_llm 5 unindexed demo_db zero_request
  = (Py.Ok (QueryApi.mkQueryResponse QueryApi.insufficient_answer []
              (Llm.check_answerability "where do foxes sleep" []) 5),
     demo_db,
     Retrieval.build_bm25_index unindexed (Db.chunks_of_collection demo_db 1)).
Proof.
  apply (low_confidence_short_circuit demo_lib demo_llm 5 unindexed demo_db
           zero_request (Db.mkCollection 1 "animals") []).
  - reflexivity.
  - discriminate.
  - reflexivity.
  - reflexivity.
Defined.

(** C9 as the specification states it fails: the confidence is 0, the
    fixed answer is returned without citations, and the store has no
    [Query] row afterwards. *)
Lemma low_confidence_writes_no_query :
  fst (fst (QueryApi.ask_question demo_lib demo_llm 5 unindexed demo_db zero_request))
  = Py.Ok (QueryApi.mkQueryResponse QueryApi.insufficient_answer [] 0%Q 5)
  /\ Db.queries
       (snd (fst (QueryApi.ask_question demo_lib demo_llm 5 unindexed demo_db zero_request)))
     = [].
Proof. split; reflexivity. Qed.

(** With a confidence of 0.05 or more the answer is generated and a
    [Query] row is saved with the chunks used. *)
Example answered_question_is_saved :
  let r := QueryApi.ask_question demo_lib demo_llm 5 unindexed demo_db fox_question in
  map (fun q => (Db.query_id q, Db.answer q)) (Db.queries (snd (fst r)))
  = [(1, "quick fox [1]")]
  /\ map (fun qc => (Db.qc_chunk_id qc, Db.rank qc)) (Db.query_chunks (snd (fst r)))
     = [(7, 1); (3, 2)].
Proof. split; reflexivity. Qed.

(** The confidence is 0 when nothing was retrieved and at least 0.3
    otherwise: the branch of the fixed answer is the branch of an empty
    retrieval. *)
Lemma confidence_of_results (query : string) (results : list Retrieval.Hit) :
  results <> [] -> (3 # 10 <= Llm.check_answerability query results)%Q.
Proof.
  intros Hne. destruct results as [|h t]; [contradiction|].
  unfold Llm.check_answerability.
  apply Q.min_glb; [|discriminate].
  rewrite <- (Qplus_0_r (3 # 10)) at 1.
  apply Qplus_le_r. apply Qmult_le_0_compat; [|discriminate].
  destruct (Llm.word_set query); [discriminate|].
  unfold Qle. simpl. lia.
Qed.

(* ================================================================== *)
(** * More on the chunker *)
(* ================================================================== *)

(** The case analysis of one step of the loops of [chunk_text]. *)
Ltac chunk_step :=
  match goal with
  | |- context [Chunking.sentence_step _ ?st _] =>
      unfold Chunking.sentence_step;
      destruct (_ >? _) eqn:?;
      [ destruct (Chunking.current_chunk st) eqn:?;
        [ | destruct (_ && _) eqn:? ] | ]
  | |- context [Chunking.paragraph_step _ ?st _] =>
      unfold Chunking.paragraph_step;
      destruct (_ >? _) eqn:?;
      [ destruct (Chunking.current_chunk st) eqn:?;
        [ | destruct (Chunking.chunk_overlap _ >? 0) eqn:? ] | ]
  end.

(** An invariant of the state that the steps keep holds after the loop
    over the paragraphs. *)
Section StateInvariant.
Import Chunking.

Variable self : DocumentChunker.
Variable inv : state -> Prop.
Hypothesis inv_sentence : forall st x, inv st -> inv (sentence_step self st x).
Hypothesis inv_paragraph : forall st x, inv st -> inv (paragraph_step self st x).

Lemma fold_sentences_inv (xs : list string) (st : state) :
  inv st -> inv (fold_left (sentence_step self) xs st).
Proof.
  revert st. induction xs as [|x xs IH]; intros st H; simpl; [exact H|].
  now apply IH, inv_sentence.
Qed.

Lemma para_step_inv (p : string) (st : state) : inv st -> inv (para_step self st p).
Proof.
  intros H. unfold para_step. destruct (Py.nonempty _); [|exact H].
  destruct (_ >? _); [now apply fold_sentences_inv | now apply inv_paragraph].
Qed.

Lemma fold_paras_inv (ps : list string) (st : state) :
  inv st -> inv (fold_left (para_step self) ps st).
Proof.
  revert st. induction ps as [|p ps IH]; intros st H; simpl; [exact H|].
  now apply IH, para_step_inv.
Qed.

End StateInvariant.

Definition overlap_flag (c : Chunking.Chunk) : option Chunking.meta_value :=
  Chunking.meta_get (Chunking.meta_data c) "has_overlap".

Definition chunk_method (c : Chunking.Chunk) : option Chunking.meta_value :=
  Chunking.meta_get (Chunking.meta_data c) "chunk_method".

Lemma chunk_text_flag_of_index (self : Chunking.DocumentChunker) (t : string) :
  Forall (fun c => overlap_flag c = Some (Chunking.MBool (0 <? Chunking.chunk_index c)))
         (Chunking.chunk_text self t).
Proof.
  apply (chunk_text_good self
           (Forall (fun c => overlap_flag c
                             = Some (Chunking.MBool (0 <? Chunking.chunk_index c)))));
    [constructor|].
  intros m st H. unfold Chunking.emit. apply Forall_app. split; [exact H|].
  constructor; [reflexivity | constructor].
Qed.

Lemma flags_along_indices (l : list Chunking.Chunk) (i : nat) :
  map Chunking.chunk_index l = map Z.of_nat (seq i (List.length l)) ->
  Forall (fun c => overlap_flag c = Some (Chunking.MBool (0 <? Chunking.chunk_index c))) l ->
  map overlap_flag l
  = map (fun k => Some (Chunking.MBool (negb (Nat.eqb k 0)))) (seq i (List.length l)).
Proof.
  revert i. induction l as [|c l IH]; intros i Hd Hf; [reflexivity|].
  simpl in *. injection Hd as Hc Hl. inversion Hf as [|? ? Hfc Hrest]; subst.
  rewrite Hfc, Hc. f_equal.
  - do 2 f_equal. destruct i; [reflexivity|]. simpl negb. apply Z.ltb_lt. lia.
  - now apply IH.
Qed.

(** X1.  In the list that [chunk_text] returns, the first chunk has
    [has_overlap] false and every other chunk has it true, whatever
    [chunk_overlap] is: the flag is [chunk_index > 0], also when overlap is
    disabled and nothing is repeated. *)
Theorem has_overlap_is_index_positive :
  forall (self : Chunking.DocumentChunker) (t : string),
    map overlap_flag (Chunking.chunk_text self t)
    = map (fun i => Some (Chunking.MBool (negb (Nat.eqb i 0))))
          (seq 0 (List.length (Chunking.chunk_text self t))).
Proof.
  intros self t. apply flags_along_indices.
  - exact (chunk_text_dense self t).
  - apply chunk_text_flag_of_index.
Qed.

(** A chunk emitted inside the loops. *)
Definition split_method (c : Chunking.Chunk) : Prop :=
  chunk_method c = Some (Chunking.MStr "sentence_split")
  \/ chunk_method c = Some (Chunking.MStr "paragraph_split").

Section ChunkMethods.
Import Chunking.

Variable self : DocumentChunker.

(** The chunks emitted so far come from the loops, and once one is
    emitted the current chunk is not empty. *)
Let methods_ok (st : state) : Prop :=
  Forall split_method (chunks st) /\ (chunks st <> [] -> current_chunk st <> []).

Lemma emit_split (m : string) (st : state) :
  Forall split_method (chunks st) ->
  m = "sentence_split" \/ m = "paragraph_split" ->
  Forall split_method (emit m st).
Proof.
  intros H Hm. unfold emit. apply Forall_app. split; [exact H|].
  constructor; [|constructor]. destruct Hm as [-> | ->]; [left | right]; reflexivity.
Qed.

Lemma sentence_step_methods (st : state) (x : string) :
  methods_ok st -> methods_ok (sentence_step self st x).
Proof.
  intros H. chunk_step; [exact H | destruct H as [H1 H2] ..].
  - split; simpl; [apply emit_split; auto|].
    intros _ E. apply app_eq_nil in E. destruct E as [_ E]. discriminate.
  - split; simpl; [apply emit_split; auto | discriminate].
  - split; simpl; [exact H1|].
    intros _ E. apply app_eq_nil in E. destruct E as [_ E]. discriminate.
Qed.

Lemma paragraph_step_methods (st : state) (x : string) :
  methods_ok st -> methods_ok (paragraph_step self st x).
Proof.
  intros H. chunk_step; [exact H | destruct H as [H1 H2] ..].
  - split; simpl; [apply emit_split; auto|].
    intros _. destruct (Py.nonempty _); discriminate.
  - split; simpl; [apply emit_split; auto | discriminate].
  - split; simpl; [exact H1|].
    intros _ E. apply app_eq_nil in E. destruct E as [_ E]. discriminate.
Qed.

Lemma loop_methods (t : string) :
  methods_ok (fold_left (para_step self) (Py.split_paragraphs (Py.strip t)) init).
Proof.
  apply (fold_paras_inv self methods_ok sentence_step_methods paragraph_step_methods).
  split; [constructor | intros H; now contradiction H].
Qed.

End ChunkMethods.

(** X2.  What [chunk_text] returns is empty, or ends with one chunk of
    method [final_chunk] that follows chunks of method [sentence_split] or
    [paragraph_split]: the last chunk is always the residual one. *)
Theorem last_chunk_is_final :
  forall (self : Chunking.DocumentChunker) (t : string),
    Chunking.chunk_text self t = []
    \/ exists front last,
         Chunking.chunk_text self t = front ++ [last]
         /\ chunk_method last = Some (Chunking.MStr "final_chunk")
         /\ Forall split_method front.
Proof.
  intros self t. unfold Chunking.chunk_text.
  destruct (Py.nonempty _); [|now left].
  destruct (loop_methods self t) as [H1 H2]. unfold Chunking.finish.
  destruct (Chunking.current_chunk _) eqn:E.
  - left. destruct (Chunking.chunks _); [reflexivity|].
    exfalso. now apply H2.
  - right. eexists _, _. split; [reflexivity|]. split; [reflexivity | exact H1].
Qed.

Section FittingParagraphs.
Import Chunking.

Variable self : DocumentChunker.

(** An empty current chunk has no token. *)
Let fresh (st : state) : Prop := current_chunk st = [] -> current_tokens st = 0.

Lemma sentence_step_fresh (st : state) (x : string) :
  fresh st -> fresh (sentence_step self st x).
Proof.
  intros H. chunk_step; [exact H | unfold fresh; simpl ..].
  - intros E. apply app_eq_nil in E. destruct E as [_ E]. discriminate.
  - discriminate.
  - intros E. apply app_eq_nil in E. destruct E as [_ E]. discriminate.
Qed.

Lemma paragraph_step_fresh (st : state) (x : string) :
  fresh st -> fresh (paragraph_step self st x).
Proof.
  intros H. chunk_step; [exact H | unfold fresh; simpl ..].
  - destruct (Py.nonempty _); discriminate.
  - discriminate.
  - intros E. apply app_eq_nil in E. destruct E as [_ E]. discriminate.
Qed.

(** A paragraph that fits the limit joins the current chunk. *)
Lemma paragraph_step_admits (st : state) (x : string) :
  fresh st -> Py.nonempty x = true -> count_tokens self x <= chunk_size self ->
  In x (current_chunk (paragraph_step self st x)).
Proof.
  intros H Hx Hfit. unfold paragraph_step.
  destruct (Z.gtb_spec (current_tokens st + count_tokens self x) (chunk_size self))
    as [Hgt | Hle].
  - destruct (current_chunk st) eqn:E; [rewrite (H E) in Hgt; lia|].
    destruct (chunk_overlap self >? 0); simpl; [|now left].
    match goal with |- context [Py.nonempty ?a] => destruct (Py.nonempty a) end;
      simpl; auto.
  - simpl. apply in_or_app. right. now left.
Qed.

Lemma fitting_paragraph_covered (ps : list string) (p : string) (st : state) :
  fresh st -> In p ps ->
  Py.nonempty (Py.strip p) = true ->
  count_tokens self (Py.strip p) <= chunk_size self ->
  covered (Py.strip p) (fold_left (para_step self) ps st)
  /\ current_chunk (fold_left (para_step self) ps st) <> [].
Proof.
  revert st. induction ps as [|q ps IH]; intros st Hst Hin Hne Hfit; [destruct Hin|].
  simpl. destruct Hin as [-> | Hin].
  - assert (Hadm : In (Py.strip p) (current_chunk (para_step self st p))).
    { unfold para_step. rewrite Hne.
      destruct (Z.gtb_spec (count_tokens self (Py.strip p)) (chunk_size self)); [lia|].
      now apply paragraph_step_admits. }
    split.
    + apply fold_paras_covered. now right.
    + apply fold_paras_nonempty. exact (in_nonempty _ _ Hadm).
  - apply IH; try assumption.
    apply (para_step_inv self fresh sentence_step_fresh paragraph_step_fresh). exact Hst.
Qed.

End FittingParagraphs.

(** X3.  A paragraph of the stripped text that is not blank and whose
    token count is within [chunk_size] is never lost: its stripped text
    occurs in the text of a chunk that [chunk_text] returns. *)
Theorem fitting_paragraph_is_kept :
  forall (self : Chunking.DocumentChunker) (t p : string),
    In p (Py.split_paragraphs (Py.strip t)) ->
    Py.nonempty (Py.strip p) = true ->
    Chunking.count_tokens self (Py.strip p) <= Chunking.chunk_size self ->
    exists c, In c (Chunking.chunk_text self t) /\ piece (Py.strip p) (Chunking.text c).
Proof.
  intros self t p Hin Hne Hfit. unfold Chunking.chunk_text.
  destruct (Py.nonempty (Py.strip t)) eqn:Ht.
  2:{ destruct (Py.strip t); [|discriminate Ht].
      destruct Hin as [<- | []]. discriminate Hne. }
  destruct (fitting_paragraph_covered self _ p Chunking.init (fun _ => eq_refl)
              Hin Hne Hfit) as [Hcov Hcur].
  now apply finish_covers.
Qed.

Lemma fitting_paragraph_is_kept_witness :
  exists c, In c (Chunking.chunk_text small_chunker oversize_text)
            /\ piece "Hi there." (Chunking.text c).
Proof.
  apply (fitting_paragraph_is_kept small_chunker oversize_text "Hi there.").
  - left. reflexivity.
  - reflexivity.
  - vm_compute. discriminate.
Defined.

Section OverlapDisabled.
Import Chunking.

Variable self : DocumentChunker.
Hypothesis disabled : chunk_overlap self <= 0.

(** A chunk within the limit, or whose token count is that of its text. *)
Definition within_or_exact (c : Chunk) : Prop :=
  token_count c <= chunk_size self \/ token_count c = count_tokens self (text c).

Let bounded (st : state) : Prop :=
  Forall within_or_exact (chunks st)
  /\ (current_chunk st = []
      \/ current_tokens st <= chunk_size self
      \/ current_tokens st = count_tokens self (Py.join " " (current_chunk st))).

Lemma emit_bounded (m : string) (st : state) (x : string) (l : list string) :
  bounded st -> current_chunk st = x :: l -> Forall within_or_exact (emit m st).
Proof.
  intros [H1 H2] E. unfold emit. apply Forall_app. split; [exact H1|].
  constructor; [|constructor]. unfold within_or_exact. simpl.
  destruct H2 as [H2 | [H2 | H2]]; [congruence | now left | now right].
Qed.

Lemma overlap_off : (chunk_overlap self >? 0) = false.
Proof. destruct (Z.gtb_spec (chunk_overlap self) 0); [lia | reflexivity]. Qed.

Lemma sentence_step_bounded (st : state) (x : string) :
  bounded st -> bounded (sentence_step self st x).
Proof.
  intros H. unfold sentence_step. rewrite overlap_off. simpl andb.
  destruct (Z.gtb_spec (current_tokens st + count_tokens self x) (chunk_size self))
    as [Hgt | Hle].
  - destruct (current_chunk st) as [|y l] eqn:E; [exact H|].
    split; simpl; [now apply (emit_bounded _ st y l) | right; right; reflexivity].
  - split; simpl; [exact (proj1 H) | right; left; exact Hle].
Qed.

Lemma paragraph_step_bounded (st : state) (x : string) :
  bounded st -> bounded (paragraph_step self st x).
Proof.
  intros H. unfold paragraph_step. rewrite overlap_off.
  destruct (Z.gtb_spec (current_tokens st + count_tokens self x) (chunk_size self))
    as [Hgt | Hle].
  - destruct (current_chunk st) as [|y l] eqn:E; [exact H|].
    split; simpl; [now apply (emit_bounded _ st y l) | right; right; reflexivity].
  - split; simpl; [exact (proj1 H) | right; left; exact Hle].
Qed.

Lemma chunk_text_bounded (t : string) : Forall within_or_exact (chunk_text self t).
Proof.
  unfold chunk_text. destruct (Py.nonempty _); [|constructor].
  pose proof (fold_paras_inv self bounded sentence_step_bounded paragraph_step_bounded
                (Py.split_paragraphs (Py.strip t)) init
                (conj (Forall_nil _) (or_introl eq_refl))) as H.
  unfold finish. destruct (current_chunk _) as [|y l] eqn:E; [exact (proj1 H)|].
  now apply (emit_bounded _ _ y l).
Qed.

End OverlapDisabled.

(** X4.  With overlap disabled ([chunk_overlap <= 0]) every chunk that
    [chunk_text] returns has a token count within [chunk_size], or is a
    single sentence or paragraph: its token count is then the tokenizer's
    count of its text. *)
Theorem overlap_disabled_token_bound :
  forall (self : Chunking.DocumentChunker) (t : string),
    Chunking.chunk_overlap self <= 0 ->
    Forall (fun c =>
              Chunking.token_count c <= Chunking.chunk_size self
              \/ Chunking.token_count c
                 = Chunking.count_tokens self (Chunking.text c))
           (Chunking.chunk_text self t).
Proof. intros self t H. exact (chunk_text_bounded self H t). Qed.

Lemma overlap_disabled_token_bound_witness :
  Forall (fun c =>
            Chunking.token_count c <= Chunking.chunk_size no_overlap_chunker
            \/ Chunking.token_count c
               = Chunking.count_tokens no_overlap_chunker (Chunking.text c))
         (Chunking.chunk_text no_overlap_chunker oversize_text).
Proof.
  apply (overlap_disabled_token_bound no_overlap_chunker oversize_text).
  vm_compute. discriminate.
Defined.

(* ================================================================== *)
(** * Stripping, paragraphs and lines *)
(* ================================================================== *)

Lemma lstrip_head (s : string) :
  match Py.lstrip s with
  | EmptyString => True
  | String c _ => Py.is_space c = false
  end.
Proof.
  induction s as [|c s IH]; simpl; [exact I|].
  destruct (Py.is_space c) eqn:E; [exact IH | exact E].
Qed.

Lemma rstrip_head (c : ascii) (s : string) :
  Py.is_space c = false -> exists r, Py.rstrip (String c s) = String c r.
Proof.
  intros H. simpl. destruct (Py.rstrip s); [rewrite H|]; eexists; reflexivity.
Qed.

Lemma rstrip_idempotent (s : string) : Py.rstrip (Py.rstrip s) = Py.rstrip s.
Proof.
  induction s as [|c s IH]; [reflexivity|].
  simpl. destruct (Py.rstrip s) as [|d r] eqn:E.
  - destruct (Py.is_space c) eqn:F; [reflexivity|]. simpl. now rewrite F.
  - change (Py.rstrip (String c (String d r)))
      with (match Py.rstrip (String d r) with
            | EmptyString =>
                if Py.is_space c then EmptyString else String c EmptyString
            | r' => String c r'
            end).
    now rewrite IH.
Qed.

(** [strip] does nothing to a stripped text. *)
Lemma strip_idempotent (s : string) : Py.strip (Py.strip s) = Py.strip s.
Proof.
  unfold Py.strip. pose proof (lstrip_head s) as H.
  destruct (Py.lstrip s) as [|c u]; [reflexivity|].
  destruct (rstrip_head c u H) as (r & E). rewrite E.
  simpl Py.lstrip. rewrite H. rewrite <- E. apply rstrip_idempotent.
Qed.

Lemma is_newline_eq (c : ascii) : Py.is_newline c = true -> c = Py.newline.
Proof.
  unfold Py.is_newline, Py.newline. intros H. apply Nat.eqb_eq in H.
  rewrite <- H. symmetry. apply ascii_nat_embedding.
Qed.

(** The text has two newlines in a row. *)
Fixpoint has_blank_line (s : string) : bool :=
  match s with
  | String c ((String d _) as s') =>
      (Py.is_newline c && Py.is_newline d) || has_blank_line s'
  | _ => false
  end.

Lemma split_paragraphs_single_aux (s cur : string) :
  has_blank_line s = false ->
  Py.split_paragraphs_aux s cur 0 = [(cur ++ s)%string]
  /\ (match s with
      | String c _ => Py.is_newline c = false
      | EmptyString => True
      end ->
      Py.split_paragraphs_aux s cur 1
      = [(Py.snoc cur Py.newline ++ s)%string]).
Proof.
  revert cur. induction s as [|c s IH]; intros cur H.
  - simpl. rewrite !append_empty_r. auto.
  - assert (Hs : has_blank_line s = false).
    { simpl in H. destruct s; [reflexivity|].
      apply orb_false_iff in H. exact (proj2 H). }
    assert (Hstep : forall cur', Py.split_paragraphs_aux s (Py.snoc cur' c) 0
                                 = [(cur' ++ String c s)%string]).
    { intros cur'. rewrite (proj1 (IH (Py.snoc cur' c) Hs)).
      unfold Py.snoc. now rewrite append_assoc. }
    split.
    + simpl. destruct (Py.is_newline c) eqn:E; [|apply Hstep].
      apply is_newline_eq in E. subst c.
      rewrite (proj2 (IH cur Hs)).
      * unfold Py.snoc. now rewrite append_assoc.
      * destruct s as [|d s]; [exact I|].
        simpl in H. apply orb_false_iff in H. destruct H as [H _].
        now destruct (Py.is_newline d).
    + intros Hc. simpl. rewrite Hc. apply Hstep.
Qed.

(** A text without blank line is one paragraph. *)
Lemma split_paragraphs_single (s : string) :
  has_blank_line s = false -> Py.split_paragraphs s = [s].
Proof.
  intros H. unfold Py.split_paragraphs.
  now rewrite (proj1 (split_paragraphs_single_aux s "" H)).
Qed.

(** X5.  A text that is not blank, has no blank line and whose stripped
    form is within [chunk_size] comes back as one chunk: the stripped text,
    with index 0, the tokenizer's count, [start_char] 0 and the method
    [final_chunk]. *)
Theorem short_text_is_one_chunk :
  forall (self : Chunking.DocumentChunker) (t : string),
    Py.nonempty (Py.strip t) = true ->
    has_blank_line (Py.strip t) = false ->
    Chunking.count_tokens self (Py.strip t) <= Chunking.chunk_size self ->
    Chunking.chunk_text self t
    = [Chunking.mkChunk (Py.strip t) 0 (Chunking.count_tokens self (Py.strip t)) 0
         [("chunk_method", Chunking.MStr "final_chunk");
          ("has_overlap", Chunking.MBool false)]].
Proof.
  intros self t Hne Hblank Hfit. unfold Chunking.chunk_text.
  rewrite Hne, (split_paragraphs_single _ Hblank). simpl fold_left.
  unfold Chunking.para_step. rewrite strip_idempotent, Hne.
  destruct (Z.gtb_spec (Chunking.count_tokens self (Py.strip t))
                       (Chunking.chunk_size self)); [lia|].
  unfold Chunking.paragraph_step. simpl Chunking.current_tokens.
  destruct (Z.gtb_spec (0 + Chunking.count_tokens self (Py.strip t))
                       (Chunking.chunk_size self)); [lia|].
  reflexivity.
Qed.

Lemma short_text_is_one_chunk_witness :
  Chunking.chunk_text (Chunking.mkChunker 800 200 Chunking.word_tokenizer) " hello world "
  = [Chunking.mkChunk "hello world" 0 2 0
       [("chunk_method", Chunking.MStr "final_chunk");
        ("has_overlap", Chunking.MBool false)]].
Proof.
  apply (short_text_is_one_chunk (Chunking.mkChunker 800 200 Chunking.word_tokenizer)
           " hello world ").
  - reflexivity.
  - reflexivity.
  - vm_compute. discriminate.
Defined.

Lemma concat_cons (sep x : string) (l : list string) :
  l <> [] -> String.concat sep (x :: l) = (x ++ sep ++ String.concat sep l)%string.
Proof. destruct l; [contradiction | reflexivity]. Qed.

Lemma split_char_aux_nonempty (sep : ascii) (s cur : string) :
  Py.split_char_aux sep s cur <> [].
Proof.
  revert cur. induction s as [|c s IH]; intros cur; simpl; [discriminate|].
  destruct (Ascii.eqb c sep); [discriminate | apply IH].
Qed.

Lemma join_split_char_aux (sep : ascii) (s cur : string) :
  Py.join (String sep "") (Py.split_char_aux sep s cur) = (cur ++ s)%string.
Proof.
  unfold Py.join. revert cur. induction s as [|c s IH]; intros cur; simpl.
  - now rewrite append_empty_r.
  - destruct (Ascii.eqb_spec c sep) as [-> | Hne].
    + rewrite concat_cons by apply split_char_aux_nonempty.
      now rewrite IH.
    + rewrite IH. unfold Py.snoc. now rewrite append_assoc.
Qed.

(** Splitting a text at a character and joining the pieces with that
    character gives the text back. *)
Lemma join_split_char (sep : ascii) (s : string) :
  Py.join (String sep "") (Py.split_char sep s) = s.
Proof. unfold Py.split_char. now rewrite join_split_char_aux. Qed.

Lemma reindex_dense (l : list Chunking.Chunk) (i : nat) :
  map Chunking.chunk_index l = map Z.of_nat (seq i (List.length l)) ->
  map Chunking.set_index (Py.enumerate_from i l) = l.
Proof.
  revert i. induction l as [|c l IH]; intros i H; [reflexivity|].
  simpl in *. injection H as Hc Hl. rewrite (IH _ Hl).
  destruct c. simpl in *. now rewrite Hc.
Qed.

Lemma set_header_indices (h : option string) (l : list Chunking.Chunk) :
  map Chunking.chunk_index (map (Chunking.set_header h) l) = map Chunking.chunk_index l.
Proof. rewrite map_map. reflexivity. Qed.

Lemma fold_lines_without_header (self : Chunking.DocumentChunker)
  (lines : list string) (st : Chunking.md_state) :
  (forall line, In line lines -> Chunking.header_match line = None) ->
  fold_left (Chunking.line_step self) lines st
  = Chunking.mkMd (Chunking.md_chunks st) (Chunking.current_section st ++ lines)
                  (Chunking.current_header st).
Proof.
  revert st. induction lines as [|x lines IH]; intros st H; simpl.
  - rewrite app_nil_r. now destruct st.
  - unfold Chunking.line_step at 2. rewrite (H x (or_introl eq_refl)).
    rewrite IH by (intros line Hl; apply H; now right).
    simpl. now rewrite <- app_assoc.
Qed.

(** X6.  On a text none of whose lines is a header, [chunk_markdown]
    returns the chunks of [chunk_text], each with the entry [header: None]
    added to its metadata. *)
Theorem markdown_without_headers :
  forall (self : Chunking.DocumentChunker) (t : string),
    (forall line, In line (Py.split_char Py.newline t) ->
                  Chunking.header_match line = None) ->
    Chunking.chunk_markdown self t
    = map (Chunking.set_header None) (Chunking.chunk_text self t).
Proof.
  intros self t H. unfold Chunking.chunk_markdown.
  rewrite (fold_lines_without_header self _ _ H). unfold Chunking.flush_section.
  simpl Chunking.current_section. simpl Chunking.md_chunks.
  simpl Chunking.current_header.
  destruct (Py.split_char Py.newline t) as [|x l] eqn:E.
  { exfalso. exact (split_char_aux_nonempty _ _ _ E). }
  rewrite <- E. unfold Chunking.newline_str. rewrite join_split_char. simpl app.
  apply reindex_dense. rewrite set_header_indices, length_map.
  exact (chunk_text_dense self t).
Qed.

Lemma markdown_without_headers_witness :
  Chunking.chunk_markdown small_chunker gap_text
  = map (Chunking.set_header None) (Chunking.chunk_text small_chunker gap_text).
Proof.
  apply (markdown_without_headers small_chunker gap_text).
  intros line H. vm_compute in H.
  repeat (destruct H as [<- | H]; [reflexivity|]). destruct H.
Defined.

Section MarkdownHeaders.
Import Chunking.

Variable self : DocumentChunker.
Variable lines : list string.

(** [None], or the title of a header line of the text. *)
Definition header_of_text (h : option string) : Prop :=
  h = None \/ exists line title,
                In line lines /\ header_match line = Some title /\ h = Some title.

(** The metadata is that of [chunk_text] followed by a header of the
    text. *)
Definition with_header (c : Chunk) : Prop :=
  exists m b h,
    meta_data c = [("chunk_method", MStr m); ("has_overlap", MBool b);
                   ("header", header_value h)]
    /\ header_of_text h.

Let headers_ok (st : md_state) : Prop :=
  Forall with_header (md_chunks st) /\ header_of_text (current_header st).

Lemma flush_section_headers (st : md_state) :
  headers_ok st -> Forall with_header (flush_section self st).
Proof.
  intros [H1 H2]. unfold flush_section. destruct (current_section st); [exact H1|].
  apply Forall_app. split; [exact H1|].
  apply Forall_map. apply Forall_forall. intros c Hc.
  destruct (proj1 (Forall_forall _ _) (chunk_text_plain self _) c Hc) as (m & b & E).
  exists m, b, (current_header st). split; [|exact H2].
  unfold set_header. simpl. now rewrite E.
Qed.

Lemma fold_lines_headers (ls : list string) (st : md_state) :
  incl ls lines -> headers_ok st -> headers_ok (fold_left (line_step self) ls st).
Proof.
  revert st. induction ls as [|x ls IH]; intros st Hin H; simpl; [exact H|].
  apply IH; [intros y Hy; apply Hin; now right|].
  unfold line_step. destruct (header_match x) as [title|] eqn:E.
  - split; simpl; [now apply flush_section_headers|].
    right. exists x, title. split; [apply Hin; now left | auto].
  - exact H.
Qed.

End MarkdownHeaders.

(** X7.  Every chunk that [chunk_markdown] returns has the metadata of
    [chunk_text] followed by a [header] entry, whose value is the title of
    one of the header lines of the text, or [None]. *)
Theorem markdown_chunks_carry_a_header :
  forall (self : Chunking.DocumentChunker) (t : string),
    Forall (with_header (Py.split_char Py.newline t)) (Chunking.chunk_markdown self t).
Proof.
  intros self t. unfold Chunking.chunk_markdown, Py.enumerate.
  set (lines := Py.split_char Py.newline t).
  pose proof (fold_lines_headers self lines lines (Chunking.mkMd [] [] None)
                (incl_refl _) (conj (Forall_nil _) (or_introl eq_refl))) as H.
  apply (flush_section_headers self lines) in H. revert H.
  generalize (Chunking.flush_section self
                (fold_left (Chunking.line_step self) lines (Chunking.mkMd [] [] None))).
  intros l. generalize 0%nat.
  induction l as [|c l IH]; intros i H; simpl; [constructor|].
  inversion H as [|? ? Hc Hl]; subst. constructor; [|now apply IH].
  destruct Hc as (m & b & h & E & Hh). exists m, b, h. now split.
Qed.

Example markdown_headers_ex :
  map (fun c => (Chunking.text c, Chunking.chunk_index c,
                 Chunking.meta_get (Chunking.meta_data c) "header"))
      (Chunking.chunk_markdown (Chunking.mkChunker 800 200 Chunking.word_tokenizer)
         ("intro" ++ Chunking.newline_str ++ "# One" ++ Chunking.newline_str ++ "aa bb"
          ++ Chunking.newline_str ++ "## Two" ++ Chunking.newline_str ++ "cc")%string)
  = [("intro", 0, Some Chunking.MNone);
     (("# One" ++ Chunking.newline_str ++ "aa bb")%string, 1, Some (Chunking.MStr "One"));
     (("## Two" ++ Chunking.newline_str ++ "cc")%string, 2, Some (Chunking.MStr "Two"))].
Proof. reflexivity. Qed.

(* ================================================================== *)
(** * Batches of texts *)
(* ================================================================== *)

Lemma batches_concat {A} (fuel batch_size : nat) (l : list A) :
  (1 <= batch_size)%nat -> (List.length l <= fuel)%nat ->
  List.concat (Embeddings.batches fuel batch_size l) = l.
Proof.
  intros Hb. revert l. induction fuel as [|fuel IH]; intros l Hl.
  - destruct l; [reflexivity | simpl in Hl; lia].
  - destruct l as [|x l]; [reflexivity|].
    change (Embeddings.batches (S fuel) batch_size (x :: l))
      with (firstn batch_size (x :: l)
            :: Embeddings.batches fuel batch_size (skipn batch_size (x :: l))).
    simpl List.concat. rewrite IH.
    + apply firstn_skipn.
    + rewrite length_skipn.
      change (List.length (x :: l)) with (S (List.length l)) in *. lia.
Qed.

Lemma batches_nonempty {A} (fuel batch_size : nat) (x : A) (l : list A) :
  Embeddings.batches (S fuel) batch_size (x :: l) <> [].
Proof. discriminate. Qed.

Lemma embed_all_pointwise (self : Embeddings.EmbeddingService)
  (f : string -> Embeddings.embedding) (bs : list (list string)) :
  (forall l, Embeddings.encode self l = Py.Ok (map f l)) ->
  Embeddings.embed_all self bs = Py.Ok (map (map f) bs).
Proof.
  intros H. induction bs as [|b bs IH]; [reflexivity|].
  simpl. unfold Embeddings.embed_text. rewrite H. simpl. now rewrite IH.
Qed.

(** X8.  When the model embeds each text on its own, whatever the batch it
    comes in, [embed_batch] on a non-empty list returns the embeddings of
    the texts in order, the same for every batch size from 1 on: batching
    is not visible in the result. *)
Theorem embed_batch_is_batch_independent :
  forall (self : Embeddings.EmbeddingService) (f : string -> Embeddings.embedding)
         (texts : list string) (batch_size : nat),
    (forall l, Embeddings.encode self l = Py.Ok (map f l)) ->
    texts <> [] ->
    (1 <= batch_size)%nat ->
    Embeddings.embed_batch self texts batch_size = Py.Ok (map f texts).
Proof.
  intros self f texts bs Hf Hne Hbs. unfold Embeddings.embed_batch.
  destruct bs as [|bs]; [lia|].
  rewrite (embed_all_pointwise self f _ Hf). simpl Py.bind.
  destruct texts as [|x texts]; [contradiction|].
  unfold Embeddings.vstack.
  destruct (map (map f) (Embeddings.batches _ (S bs) (x :: texts))) eqn:E.
  - apply map_eq_nil in E. now apply batches_nonempty in E.
  - rewrite <- E, <- concat_map. now rewrite batches_concat by (simpl; lia).
Qed.

Lemma embed_batch_is_batch_independent_witness :
  Embeddings.embed_batch demo_embedder ["a"; "b"; "c"] 2
  = Py.Ok (map (fun _ => [1%Q]) ["a"; "b"; "c"]).
Proof.
  apply (embed_batch_is_batch_independent demo_embedder (fun _ => [1%Q])
           ["a"; "b"; "c"] 2).
  - intros l. reflexivity.
  - discriminate.
  - lia.
Defined.

Lemma embed_all_lengths (self : Embeddings.EmbeddingService) (bs : list (list string))
  (ess : list (list Embeddings.embedding)) :
  (forall l es, Embeddings.encode self l = Py.Ok es -> List.length es = List.length l) ->
  Embeddings.embed_all self bs = Py.Ok ess ->
  List.length (List.concat ess) = List.length (List.concat bs).
Proof.
  intros H. revert ess. induction bs as [|b bs IH]; intros ess E; simpl in E.
  - now injection E as <-.
  - unfold Embeddings.embed_text in E.
    destruct (Embeddings.encode self b) as [e|] eqn:Eb; simpl in E; [|discriminate].
    destruct (Embeddings.embed_all self bs) as [es|]; simpl in E; [|discriminate].
    injection E as <-. simpl. rewrite !length_app, (H b e Eb). f_equal. now apply IH.
Qed.

(** X9.  When the model returns one vector for each text it is given, so
    does [embed_batch]: whenever it returns, the array has as many rows as
    there are texts, and there is at least one. *)
Theorem embed_batch_one_row_per_text :
  forall (self : Embeddings.EmbeddingService) (texts : list string) (batch_size : nat)
         (es : list Embeddings.embedding),
    (forall l e, Embeddings.encode self l = Py.Ok e -> List.length e = List.length l) ->
    Embeddings.embed_batch self texts batch_size = Py.Ok es ->
    List.length es = List.length texts /\ texts <> [].
Proof.
  intros self texts bs es H E. unfold Embeddings.embed_batch in E.
  destruct bs as [|bs]; [discriminate|].
  destruct (Embeddings.embed_all self _) as [ess|] eqn:Ea; simpl in E; [|discriminate].
  unfold Embeddings.vstack in E. destruct ess as [|e0 ess]; [discriminate|].
  injection E as <-.
  pose proof (embed_all_lengths self _ _ H Ea) as HL.
  rewrite batches_concat in HL by lia. split; [exact HL|].
  intros ->. simpl in Ea. discriminate.
Qed.

Lemma embed_batch_one_row_per_text_witness :
  List.length (map (fun _ : string => [1%Q]) ["a"; "b"; "c"]) = List.length ["a"; "b"; "c"]
  /\ ["a"; "b"; "c"] <> [].
Proof.
  apply (embed_batch_one_row_per_text demo_embedder ["a"; "b"; "c"] 2).
  - intros l e E. injection E as <-. apply length_map.
  - reflexivity.
Defined.

(* ================================================================== *)
(** * Tokens *)
(* ================================================================== *)

(** Every character of the text passes the test. *)
Fixpoint all_chars (p : ascii -> bool) (s : string) : bool :=
  match s with
  | EmptyString => true
  | String c s' => p c && all_chars p s'
  end.

Lemma all_chars_snoc (p : ascii -> bool) (s : string) (c : ascii) :
  all_chars p (Py.snoc s c) = all_chars p s && p c.
Proof.
  unfold Py.snoc. induction s as [|d s IH]; simpl.
  - now rewrite andb_true_r.
  - now rewrite IH, andb_assoc.
Qed.

Lemma split_ws_aux_tokens (q : ascii -> bool) (s cur : string) :
  all_chars q cur = true ->
  all_chars (fun c => Py.is_space c || q c) s = true ->
  Forall (fun tok => Py.nonempty tok = true /\ all_chars q tok = true)
         (Py.split_ws_aux s cur).
Proof.
  revert cur. induction s as [|c s IH]; intros cur Hcur Hs; simpl.
  - destruct (Py.nonempty cur) eqn:E; constructor; [now split | constructor].
  - simpl in Hs. apply andb_true_iff in Hs. destruct Hs as [Hc Hs].
    destruct (Py.is_space c) eqn:Esp.
    + destruct (Py.nonempty cur) eqn:E.
      * constructor; [now split | now apply IH].
      * now apply IH.
    + apply IH; [|exact Hs]. rewrite all_chars_snoc, Hcur. exact Hc.
Qed.

Lemma sub_punctuation_chars (s : string) :
  all_chars (fun c => Py.is_space c || Retrieval.is_word c)
            (Retrieval.sub_punctuation s) = true.
Proof.
  induction s as [|c s IH]; [reflexivity|].
  cbn [Retrieval.sub_punctuation all_chars]. rewrite IH, andb_true_r.
  destruct (Retrieval.is_word c) eqn:Ew; cbn [orb]; [rewrite Ew; apply orb_true_r|].
  destruct (Py.is_space c) eqn:Es; [now rewrite Es | vm_compute; reflexivity].
Qed.

(** X10.  Every token that [_tokenize] returns is a non-empty string of
    word characters (letters, digits, underscore): no white space and no
    punctuation is left in a token, and no token is empty. *)
Theorem tokens_are_words :
  forall text : string,
    Forall (fun tok => Py.nonempty tok = true /\ all_chars Retrieval.is_word tok = true)
           (Retrieval._tokenize text).
Proof.
  intros text. unfold Retrieval._tokenize, Py.split_ws.
  apply split_ws_aux_tokens; [reflexivity | apply sub_punctuation_chars].
Qed.

Example tokenize_ex :
  Retrieval._tokenize (Embeddings.lower "C++ is great!") = ["c"; "is"; "great"]
  /\ Retrieval._tokenize (Embeddings.lower "C++!") = ["c"].
Proof. split; reflexivity. Qed.

(* ================================================================== *)
(** * More on the searches *)
(* ================================================================== *)

Lemma note_key_nodup (keys : list Z) (k : Z) : NoDup keys -> NoDup (note_key keys k).
Proof.
  intros H. unfold note_key. destruct (existsb (Z.eqb k) keys) eqn:E; [exact H|].
  apply existsb_eqb_not_in in E.
  apply NoDup_rev in H. rewrite <- (rev_involutive (keys ++ [k])).
  apply NoDup_rev. rewrite rev_app_distr. simpl. constructor; [|exact H].
  now rewrite <- in_rev.
Qed.

Lemma first_occurrences_nodup (l : list Z) : NoDup (first_occurrences l).
Proof.
  unfold first_occurrences. generalize (NoDup_nil Z). generalize (@nil Z).
  induction l as [|k l IH]; intros keys H; simpl; [exact H|].
  now apply IH, note_key_nodup.
Qed.

Lemma nodup_firstn {A} (n : nat) (l : list A) : NoDup l -> NoDup (firstn n l).
Proof.
  intros H. rewrite <- (firstn_skipn n l) in H. exact (NoDup_app_remove_r _ _ H).
Qed.

Lemma nodup_map_filter {A B} (g : A -> B) (f : A -> bool) (l : list A) :
  NoDup (map g l) -> NoDup (map g (filter f l)).
Proof.
  induction l as [|x l IH]; simpl; intros H; [constructor|].
  inversion H as [|? ? Hx Hl]; subst.
  destruct (f x); [|now apply IH]. simpl. constructor; [|now apply IH].
  intros Hin. apply Hx. apply in_map_iff in Hin. destruct Hin as (y & E & Hy).
  apply filter_In in Hy. rewrite <- E. now apply in_map.
Qed.

(** X11.  The results of [hybrid_search] name each chunk at most once,
    also when the vector results or the keyword results name a chunk more
    than once. *)
Theorem hybrid_results_are_distinct :
  forall (lib : Retrieval.Ports) (self : Retrieval.HybridRetriever) (db : Db.Store)
         (query : string) (cid : Z) (top_k : nat) (w : Q),
    NoDup (map fst (entries_of (Retrieval.hybrid_search lib self db query cid top_k w))).
Proof.
  intros lib self db query cid top_k w. unfold Retrieval.hybrid_search.
  destruct (Embeddings.embed_query _ query) as [qv|e]; simpl; [|constructor].
  rewrite fuse_entries. apply nodup_map_filter.
  unfold Retrieval.sorted_chunks. rewrite <- firstn_map. apply nodup_firstn.
  apply (Permutation_NoDup
           (Permutation_sym (Permutation_map fst (sorted_desc_perm snd _)))).
  rewrite fused_scores_keys. apply first_occurrences_nodup.
Qed.

Lemma dict_set_fresh {V} (d : list (Z * V)) (k : Z) (v : V) :
  ~ In k (map fst d) -> Py.dict_set Z.eqb d k v = d ++ [(k, v)].
Proof.
  induction d as [|[k' v'] d IH]; intros H; simpl; [reflexivity|].
  destruct (Z.eqb_spec k k') as [-> | Hne]; [exfalso; apply H; now left|].
  rewrite IH; [reflexivity|]. intros Hin. apply H. now right.
Qed.

(** The entry that the vector loop makes for a chunk it sees for the
    first time. *)
Definition vector_entry (w : Q) (e : nat * (Z * Q)) : Z * Q :=
  let '(rank, (chunk_id, _)) := e in (chunk_id, (0 + Retrieval.rrf w rank)%Q).

Lemma vector_loop_distinct (w : Q) (V : list (Z * Q)) (i : nat) (d : Retrieval.scores_dict) :
  NoDup (map fst d ++ map fst V) ->
  fold_left (fun d '(rank, (chunk_id, _)) =>
               Retrieval.add_score d chunk_id (Retrieval.rrf w rank))
            (Py.enumerate_from i V) d
  = d ++ map (vector_entry w) (Py.enumerate_from i V).
Proof.
  revert i d. induction V as [|[id sc] V IH]; intros i d H; simpl.
  - now rewrite app_nil_r.
  - assert (Hid : ~ In id (map fst d)).
    { intros Hin. apply NoDup_remove_2 in H. apply H. apply in_or_app. now left. }
    unfold Retrieval.add_score at 2.
    rewrite (proj2 (dict_get_none d id) Hid), (dict_set_fresh d id _ Hid).
    rewrite IH.
    + now rewrite <- app_assoc.
    + rewrite map_app, <- app_assoc. exact H.
Qed.

Lemma enumerate_from_rank {A} (i r : nat) (x : A) (l : list A) :
  In (r, x) (Py.enumerate_from i l) -> (i <= r)%nat.
Proof.
  revert i. induction l as [|y l IH]; intros i H; [destruct H|].
  destruct H as [[= <- _] | H]; [lia|]. apply IH in H. lia.
Qed.

Lemma enumerate_from_values {A} (i : nat) (l : list A) :
  map snd (Py.enumerate_from i l) = l.
Proof. revert i. induction l as [|x l IH]; intros i; simpl; [|rewrite IH]; reflexivity. Qed.

(** A later rank gives no greater a contribution. *)
Lemma rrf_antitone (w : Q) (r1 r2 : nat) :
  (0 <= w)%Q -> (r1 <= r2)%nat -> (Retrieval.rrf w r2 <= Retrieval.rrf w r1)%Q.
Proof.
  intros Hw Hr. unfold Retrieval.rrf, Retrieval.k_rrf, Qdiv.
  apply Qmult_le_compat_nonneg; [split; [exact Hw | apply Qle_refl]|].
  destruct (60 + Z.of_nat r1 + 1) as [|p1|p1] eqn:E1; try lia.
  destruct (60 + Z.of_nat r2 + 1) as [|p2|p2] eqn:E2; try lia.
  unfold Qle, Qinv, inject_Z. simpl. split; lia.
Qed.

Lemma vector_entries_sorted (w : Q) (V : list (Z * Q)) (i : nat) :
  (0 <= w)%Q ->
  StronglySorted (fun a b => (snd b <= snd a)%Q)
                 (map (vector_entry w) (Py.enumerate_from i V)).
Proof.
  intros Hw. revert i. induction V as [|[id sc] V IH]; intros i; simpl; [constructor|].
  constructor; [apply IH|].
  apply Forall_forall. intros e He. apply in_map_iff in He.
  destruct He as ([r [id' sc']] & <- & Hr). apply enumerate_from_rank in Hr.
  simpl. rewrite !Qplus_0_l. apply rrf_antitone; [exact Hw | lia].
Qed.

(** A list in non-increasing order of score is left as it is. *)
Lemma sorted_desc_of_sorted {A} (key : A -> Q) (l : list A) :
  StronglySorted (fun a b => (key b <= key a)%Q) l -> Retrieval.sorted_desc key l = l.
Proof.
  induction 1 as [|x l Hs IH Hf]; [reflexivity|].
  simpl. rewrite IH. destruct l as [|y l]; [reflexivity|].
  simpl. inversion Hf as [|? ? Hy _]; subst.
  now rewrite (proj2 (Qltb_ge (key x) (key y)) Hy).
Qed.

Lemma map_fst_filter {A B} (f : A -> bool) (l : list (A * B)) :
  map fst (filter (fun e => f (fst e)) l) = filter f (map fst l).
Proof.
  induction l as [|[a b] l IH]; simpl; [reflexivity|].
  destruct (f a); simpl; now rewrite IH.
Qed.

Lemma vector_entries_keys (w : Q) (V : list (Z * Q)) (i : nat) :
  map fst (map (vector_entry w) (Py.enumerate_from i V)) = map fst V.
Proof.
  revert i. induction V as [|[id sc] V IH]; intros i; simpl; [|rewrite IH]; reflexivity.
Qed.

(** X12.  When the keyword search finds nothing, the vector results name
    each chunk once and the weight is not negative, [hybrid_search] returns
    the first [top_k] chunks of the vector results in their order, less
    those whose chunk row is not in the store. *)
Theorem silent_keywords_keep_vector_order :
  forall (lib : Retrieval.Ports) (self : Retrieval.HybridRetriever) (db : Db.Store)
         (query : string) (cid : Z) (top_k : nat) (w : Q) (qv : Embeddings.embedding),
    Embeddings.embed_query (Retrieval.embedding_service self) query = Py.Ok qv ->
    Retrieval.keyword_search lib self query (top_k * 2) = [] ->
    NoDup (map fst (Retrieval.vector_search lib db qv cid (top_k * 2))) ->
    (0 <= w)%Q ->
    map fst (entries_of (Retrieval.hybrid_search lib self db query cid top_k w))
    = filter (has_row db)
             (firstn top_k (map fst (Retrieval.vector_search lib db qv cid (top_k * 2)))).
Proof.
  intros lib self db query cid top_k w qv Hq HB HV Hw.
  unfold Retrieval.hybrid_search. rewrite Hq, HB. simpl entries_of.
  rewrite fuse_entries, map_fst_filter. f_equal.
  unfold Retrieval.sorted_chunks, Retrieval.fused_scores, Retrieval.add_keyword_scores,
    Retrieval.add_vector_scores, Py.enumerate.
  simpl fold_left at 1. rewrite vector_loop_distinct by exact HV. simpl app.
  rewrite sorted_desc_of_sorted by now apply vector_entries_sorted.
  now rewrite <- firstn_map, vector_entries_keys.
Qed.

Lemma silent_keywords_keep_vector_order_witness :
  map fst (entries_of (Retrieval.hybrid_search demo_lib demo_retriever demo_db "?!" 1 1
                         (7 # 10)))
  = filter (has_row demo_db)
           (firstn 1 (map fst (Retrieval.vector_search demo_lib demo_db [1%Q] 1 (1 * 2)))).
Proof.
  apply (silent_keywords_keep_vector_order demo_lib demo_retriever demo_db "?!" 1 1
           (7 # 10) [1%Q]).
  - reflexivity.
  - reflexivity.
  - repeat constructor; simpl; intuition discriminate.
  - discriminate.
Defined.

Lemma in_neg_slice {A} (top_k : nat) (l : list A) (x : A) :
  In x (Retrieval.neg_slice top_k l) -> In x l.
Proof.
  unfold Retrieval.neg_slice, Py.last_n. destruct top_k; [auto|].
  intros H. rewrite <- (firstn_skipn (List.length l - S top_k) l).
  apply in_or_app. now right.
Qed.

(** X13.  After [build_bm25_index] on a list of chunks, with a scorer that
    gives one score per indexed text and an [argsort] that returns indices
    of its array, every pair that [keyword_search] returns, for every
    [top_k], carries the id of one of these chunks and a positive score. *)
Theorem keyword_results_are_indexed_chunks :
  forall (lib : Retrieval.Ports) (self : Retrieval.HybridRetriever)
         (chunks : list Db.Chunk) (query : string) (top_k : nat),
    Retrieval.argsort_spec (Retrieval.argsort lib) ->
    (forall corpus q,
        List.length (Retrieval.bm25_get_scores lib corpus q) = List.length corpus) ->
    Forall (fun e => (0 < snd e)%Q /\ exists c, In c chunks /\ fst e = Db.chunk_id c)
           (Retrieval.keyword_search lib (Retrieval.build_bm25_index self chunks)
                                     query top_k).
Proof.
  intros lib self chunks query top_k Hsort Hlen.
  unfold Retrieval.keyword_search, Retrieval.build_bm25_index.
  simpl Retrieval.bm25_index. simpl Retrieval.chunk_ids. cbv zeta.
  set (corpus := map (fun c => Retrieval._tokenize (Embeddings.lower (Db.text c))) chunks).
  set (scores := Retrieval.bm25_get_scores lib corpus
                   (Retrieval._tokenize (Embeddings.lower query))).
  apply Forall_forall. intros e He. apply in_flat_map in He.
  destruct He as (i & Hi & He).
  fold scores in Hi, He.
  revert He. destruct (Retrieval.Qltb 0 (nth i scores 0%Q)) eqn:Hpos; intros He;
    [|destruct He].
  destruct He as [<- | []]. split; [now apply Qltb_lt|].
  apply in_rev, in_neg_slice in Hi.
  apply (Permutation_in _ (proj1 (Hsort scores))) in Hi. apply in_seq in Hi.
  assert (Hn : (i < List.length chunks)%nat).
  { unfold scores in Hi. rewrite Hlen in Hi. unfold corpus in Hi.
    rewrite length_map in Hi. lia. }
  destruct (nth_error chunks i) as [c|] eqn:Ec.
  - exists c. split; [exact (nth_error_In _ _ Ec)|]. simpl.
    apply (nth_error_nth (map Db.chunk_id chunks) i 0).
    now rewrite nth_error_map, Ec.
  - apply nth_error_None in Ec. lia.
Qed.

Lemma keyword_results_are_indexed_chunks_witness :
  Forall (fun e => (0 < snd e)%Q
                   /\ exists c, In c (Db.chunks demo_db) /\ fst e = Db.chunk_id c)
         (Retrieval.keyword_search demo_lib
            (Retrieval.build_bm25_index unindexed (Db.chunks demo_db)) "fox" 0).
Proof.
  apply (keyword_results_are_indexed_chunks demo_lib unindexed (Db.chunks demo_db) "fox" 0).
  - exact argsort_stable_spec.
  - intros corpus q. apply length_map.
Defined.

(* ================================================================== *)
(** * The confidence and the citations *)
(* ================================================================== *)

Lemma overlap_at_most_one (a b : nat) :
  (a <= S b)%nat -> (Z.of_nat a # Pos.of_nat (S b) <= 1)%Q.
Proof.
  intros H. change (Z.of_nat a * 1 <= 1 * Z.pos (Pos.of_nat (S b))).
  rewrite <- Pos.of_nat_succ, Zpos_P_of_succ_nat. lia.
Qed.

(** X14.  The confidence of [check_answerability] is 0 without contexts
    and lies between 0.3 and 0.8 with contexts: the cap at 1.0 is never
    reached. *)
Theorem confidence_range :
  forall (query : string) (contexts : list Retrieval.Hit),
    (contexts = [] -> Llm.check_answerability query contexts = 0%Q)
    /\ (contexts <> [] ->
        (3 # 10 <= Llm.check_answerability query contexts)%Q
        /\ (Llm.check_answerability query contexts <= 8 # 10)%Q).
Proof.
  intros query contexts. split; [intros ->; reflexivity|].
  intros Hne. destruct contexts as [|h t]; [contradiction|].
  unfold Llm.check_answerability.
  set (qw := Llm.word_set query).
  set (common := filter _ qw).
  assert (Hov : (0 <= match qw with
                      | [] => 0
                      | _ :: _ => Z.of_nat (List.length common) # Pos.of_nat (List.length qw)
                      end <= 1)%Q).
  { assert (Hlen : (List.length common <= List.length qw)%nat)
      by apply filter_length_le.
    destruct qw as [|x qw']; [split; discriminate|].
    split; [unfold Qle; simpl; lia|].
    now apply overlap_at_most_one. }
  destruct Hov as [H0 H1]. split.
  - apply Q.min_glb; [|discriminate].
    rewrite <- (Qplus_0_r (3 # 10)) at 1. apply Qplus_le_r.
    apply Qmult_le_0_compat; [exact H0 | discriminate].
  - eapply Qle_trans; [apply Q.le_min_l|].
    setoid_replace (8 # 10)%Q with ((3 # 10) + 1 * (5 # 10))%Q by reflexivity.
    apply Qplus_le_r. apply Qmult_le_compat_r; [exact H1 | discriminate].
Qed.

Lemma length_substring_le (n : nat) (s : string) :
  (String.length (substring 0 n s) <= n)%nat.
Proof.
  revert s. induction n as [|n IH]; intros s.
  - destruct s; simpl; lia.
  - destruct s as [|c s]; simpl; [lia|]. specialize (IH s). lia.
Qed.

(** X15.  Every citation that [_extract_citations] returns has an index
    between 1 and the number of contexts, the document id and chunk index
    of the context at that place, and a preview of at most 203 characters;
    markers outside that range are passed over. *)
Theorem citations_point_into_contexts :
  forall (answer : string) (contexts : list Retrieval.Hit),
    Forall (fun cit =>
              1 <= Db.cit_index cit <= Z.of_nat (List.length contexts)
              /\ (String.length (Db.cit_text cit) <= 203)%nat
              /\ exists ctx,
                   nth_error contexts (Z.to_nat (Db.cit_index cit - 1)) = Some ctx
                   /\ Db.cit_document_id cit = Retrieval.hit_document_id ctx
                   /\ Db.cit_chunk_index cit = Retrieval.hit_chunk_index ctx)
           (Citations._extract_citations answer contexts).
Proof.
  intros answer contexts. unfold Citations._extract_citations.
  apply Forall_forall. intros cit Hc. apply in_flat_map in Hc.
  destruct Hc as (m & _ & Hc). unfold Citations.citation_of in Hc.
  destruct (_ && _) eqn:E; [|destruct Hc].
  apply andb_true_iff in E. destruct E as [E1 E2].
  apply Z.leb_le in E1. apply Z.ltb_lt in E2.
  destruct (nth_error contexts _) as [ctx|] eqn:En; [|destruct Hc].
  destruct Hc as [<- | []]. simpl. split; [lia|]. split.
  - rewrite length_append. pose proof (length_substring_le 200 (Retrieval.hit_text ctx)).
    simpl String.length at 2. lia.
  - exists ctx. replace (Citations.int_of_digits m - 1 + 1 - 1)
      with (Citations.int_of_digits m - 1) by lia.
    now split.
Qed.

Example extract_citations_ex :
  map Db.cit_index
      (Citations._extract_citations "Foxes sleep in dens [2][0], see [1] and [3] or [x]."
         [Retrieval.mkHit (demo_chunk 7 "quick fox") 1 "quick fox" 1 0;
          Retrieval.mkHit (demo_chunk 3 "fox quick") 1 "fox quick" 1 1])
  = [2; 1].
Proof. reflexivity. Qed.

(* ================================================================== *)
(** * What [ask_question] saves *)
(* ================================================================== *)

(** X16.  [ask_question] never touches the collections, the documents,
    the chunks or the jobs; it saves at most one [Query] row; and when it
    answers with an error the store is the one it was given. *)
Theorem ask_question_only_appends_queries :
  forall (lib : Retrieval.Ports) (llm_service : Llm.LLMService) (elapsed : Z)
         (retriever : Retrieval.HybridRetriever) (db : Db.Store)
         (request : QueryApi.QueryRequest),
    let res := QueryApi.ask_question lib llm_service elapsed retriever db request in
    let db' := snd (fst res) in
    Db.collections db' = Db.collections db
    /\ Db.documents db' = Db.documents db
    /\ Db.chunks db' = Db.chunks db
    /\ Db.jobs db' = Db.jobs db
    /\ (exists saved, Db.queries db' = Db.queries db ++ saved
                      /\ (List.length saved <= 1)%nat)
    /\ (forall e, fst (fst res) = @Py.Raise QueryApi.QueryResponse e -> db' = db).
Proof.
  intros lib llm elapsed retriever db request. cbv zeta.
  unfold QueryApi.ask_question.
  assert (Hsame : forall (r : Py.result QueryApi.QueryResponse) (rt : Retrieval.HybridRetriever),
             Db.collections (snd (fst (r, db, rt))) = Db.collections db
             /\ Db.documents (snd (fst (r, db, rt))) = Db.documents db
             /\ Db.chunks (snd (fst (r, db, rt))) = Db.chunks db
             /\ Db.jobs (snd (fst (r, db, rt))) = Db.jobs db
             /\ (exists saved, Db.queries (snd (fst (r, db, rt))) = Db.queries db ++ saved
                               /\ (List.length saved <= 1)%nat)
             /\ (forall e : string,
                    fst (fst (r, db, rt)) = @Py.Raise QueryApi.QueryResponse e -> snd (fst (r, db, rt)) = db)).
  { intros r rt. simpl. repeat split; try reflexivity.
    exists []. split; [now rewrite app_nil_r | simpl; lia]. }
  destruct (Db.find_collection db _); [|apply Hsame].
  destruct (Db.chunks_of_collection db _) eqn:E; [apply Hsame|].
  destruct (QueryApi.retrieve _ _ _ _); [|apply Hsame].
  destruct (Retrieval.Qltb _ _); [apply Hsame|].
  simpl. repeat split; try reflexivity.
  - eexists [_]. split; [reflexivity | simpl; lia].
  - discriminate.
Qed.

Lemma ranks_from (qid : Z) (i : nat) (l : list Retrieval.Hit) :
  map Db.rank
      (map (fun '(i, r) =>
              Db.mkQueryChunk qid (Db.chunk_id (Retrieval.chunk r)) (Z.of_nat i + 1)
                              (Retrieval.score r))
           (Py.enumerate_from i l))
  = map Z.of_nat (seq (S i) (List.length l)).
Proof.
  revert i. induction l as [|h l IH]; intros i; [reflexivity|].
  simpl. rewrite IH. f_equal. lia.
Qed.

(** X17.  When [ask_question] saves, it saves one [Query] row with the
    next id of the sequence and a retrieval score of at least 0.05, and
    at most five [QueryChunk] rows of that query, with the ranks 1, 2, ...
    in this order. *)
Theorem saved_query_has_ranked_chunks :
  forall (lib : Retrieval.Ports) (llm_service : Llm.LLMService) (elapsed : Z)
         (retriever : Retrieval.HybridRetriever) (db : Db.Store)
         (request : QueryApi.QueryRequest),
    let db' :=
      snd (fst (QueryApi.ask_question lib llm_service elapsed retriever db request)) in
    db' = db
    \/ exists q used,
         Db.queries db' = Db.queries db ++ [q]
         /\ Db.query_id q = Db.next_query_id db
         /\ Db.next_query_id db' = Db.next_query_id db + 1
         /\ (5 # 100 <= Db.retrieval_score q)%Q
         /\ Db.query_chunks db' = Db.query_chunks db ++ used
         /\ (List.length used <= 5)%nat
         /\ map Db.rank used = map Z.of_nat (seq 1 (List.length used))
         /\ Forall (fun qc => Db.qc_query_id qc = Db.query_id q) used.
Proof.
  intros lib llm elapsed retriever db request. cbv zeta.
  unfold QueryApi.ask_question.
  destruct (Db.find_collection db _); [|now left].
  destruct (Db.chunks_of_collection db _) eqn:E; [now left|].
  destruct (QueryApi.retrieve _ _ _ _) as [results|]; [|now left].
  destruct (Retrieval.Qltb _ _) eqn:Hlow; [now left|].
  right. apply Qltb_ge in Hlow. unfold QueryApi.save_query.
  remember (firstn 5 results) as top eqn:Htop.
  assert (Hlen : (List.length top <= 5)%nat) by (subst top; apply firstn_le_length).
  clear Htop. cbn [fst snd Db.queries Db.query_chunks Db.next_query_id Db.query_id
                   Db.retrieval_score].
  eexists _, _. split; [reflexivity|]. split; [reflexivity|]. split; [reflexivity|].
  split; [exact Hlow|]. split; [reflexivity|].
  unfold Py.enumerate. rewrite ranks_from, !length_map, enumerate_from_length.
  split; [exact Hlen|]. split; [reflexivity|].
  apply Forall_forall. intros qc Hqc. apply in_map_iff in Hqc.
  destruct Hqc as ([i r] & <- & _). reflexivity.
Qed.

(* ================================================================== *)
(** * Feedback *)
(* ================================================================== *)

Lemma update_first_queries (qid v : Z) (n : option string) (l : list Feedback.Feedback) :
  map Feedback.query_id (Feedback.update_first qid v n l) = map Feedback.query_id l.
Proof.
  induction l as [|f l IH]; [reflexivity|].
  simpl. destruct (Feedback.query_id f =? qid); simpl; [reflexivity | now rewrite IH].
Qed.

Lemma find_update_first (qid v : Z) (n : option string) (l : list Feedback.Feedback)
  (f : Feedback.Feedback) :
  find (fun f => Feedback.query_id f =? qid) l = Some f ->
  find (fun f => Feedback.query_id f =? qid) (Feedback.update_first qid v n l)
  = Some (Feedback.mkFeedback (Feedback.feedback_id f) (Feedback.query_id f) v n).
Proof.
  induction l as [|g l IH]; [discriminate|].
  simpl. destruct (Feedback.query_id g =? qid) eqn:E.
  - intros [= ->]. simpl. now rewrite E.
  - intros H. simpl. rewrite E. now apply IH.
Qed.

Lemma find_update_first_other (qid qid' v : Z) (n : option string)
  (l : list Feedback.Feedback) :
  qid' <> qid ->
  find (fun f => Feedback.query_id f =? qid') (Feedback.update_first qid v n l)
  = find (fun f => Feedback.query_id f =? qid') l.
Proof.
  intros Hne. induction l as [|g l IH]; [reflexivity|].
  simpl. destruct (Z.eqb_spec (Feedback.query_id g) qid) as [Eq | Eq]; simpl.
  - destruct (Z.eqb_spec (Feedback.query_id g) qid'); [congruence | reflexivity].
  - now rewrite IH.
Qed.

Lemma find_app_none {A} (p : A -> bool) (l1 l2 : list A) :
  find p l1 = None -> find p (l1 ++ l2) = find p l2.
Proof.
  induction l1 as [|x l1 IH]; [reflexivity|].
  simpl. destruct (p x); [discriminate | exact IH].
Qed.

Lemma find_app_some {A} (p : A -> bool) (l1 l2 : list A) (x : A) :
  find p l1 = Some x -> find p (l1 ++ l2) = Some x.
Proof.
  induction l1 as [|y l1 IH]; [discriminate|].
  simpl. destruct (p y); [auto | exact IH].
Qed.

Lemma find_none_not_in (qid : Z) (l : list Feedback.Feedback) :
  find (fun f => Feedback.query_id f =? qid) l = None ->
  ~ In qid (map Feedback.query_id l).
Proof.
  intros H Hin. apply in_map_iff in Hin. destruct Hin as (f & E & Hf).
  apply (find_none _ _ H) in Hf. apply Z.eqb_neq in Hf. contradiction.
Qed.

(** X18.  [submit_feedback] on a recorded query is an upsert: afterwards
    the feedback of the query has the submitted value and note, the
    feedback of every other query is as before, and a table with at most
    one row per query still has at most one row per query. *)
Theorem submit_feedback_upserts :
  forall (db : Db.Store) (t : Feedback.Table) (qid v : Z) (n : option string)
         (q : Db.Query),
    Feedback.find_query db qid = Some q ->
    NoDup (map Feedback.query_id (Feedback.rows t)) ->
    let t' := snd (Feedback.submit_feedback db t qid v n) in
    option_map (fun f => (Feedback.value f, Feedback.note f)) (Feedback.find_feedback t' qid)
    = Some (v, n)
    /\ (forall qid', qid' <> qid ->
                     Feedback.find_feedback t' qid' = Feedback.find_feedback t qid')
    /\ NoDup (map Feedback.query_id (Feedback.rows t')).
Proof.
  intros db t qid v n q Hq Hnd. cbv zeta. unfold Feedback.submit_feedback.
  rewrite Hq. simpl snd. unfold Feedback.find_feedback.
  destruct (find _ (Feedback.rows t)) as [f|] eqn:E; simpl Feedback.rows.
  - split; [|split].
    + now rewrite (find_update_first qid v n _ f E).
    + intros qid' Hne. now apply find_update_first_other.
    + now rewrite update_first_queries.
  - split; [|split].
    + rewrite (find_app_none _ _ _ E). simpl. now rewrite Z.eqb_refl.
    + intros qid' Hne.
      destruct (find (fun f => Feedback.query_id f =? qid') (Feedback.rows t)) eqn:E'.
      * now apply find_app_some.
      * rewrite (find_app_none _ _ _ E'). simpl.
        destruct (Z.eqb_spec qid qid'); [congruence | reflexivity].
    + rewrite map_app. simpl.
      apply NoDup_rev in Hnd. rewrite <- (rev_involutive (_ ++ [qid])).
      apply NoDup_rev. rewrite rev_app_distr. simpl. constructor; [|exact Hnd].
      rewrite <- in_rev. now apply find_none_not_in.
Qed.

Definition answered_db : Db.Store :=
  snd (fst (QueryApi.ask_question demo_lib demo_llm 5 unindexed demo_db fox_question)).

Definition one_vote : Feedback.Table :=
  Feedback.mkTable [Feedback.mkFeedback 1 1 1 None] 2.

Lemma submit_feedback_upserts_witness :
  let t' := snd (Feedback.submit_feedback answered_db one_vote 1 (-1) (Some "wrong")) in
  option_map (fun f => (Feedback.value f, Feedback.note f)) (Feedback.find_feedback t' 1)
  = Some (-1, Some "wrong")
  /\ (forall qid', qid' <> 1 ->
                   Feedback.find_feedback t' qid' = Feedback.find_feedback one_vote qid')
  /\ NoDup (map Feedback.query_id (Feedback.rows t')).
Proof.
  cbv zeta.
  apply (submit_feedback_upserts answered_db one_vote 1 (-1) (Some "wrong")
           (Db.mkQuery 1 1 "where do foxes sleep" "quick fox [1]" [] 12 "ollama"
                       (Llm.check_answerability "where do foxes sleep"
                          [Retrieval.mkHit (demo_chunk 7 "quick fox")
                             (0 + Retrieval.rrf (7 # 10) 0)%Q "quick fox" 1 0;
                           Retrieval.mkHit (demo_chunk 3 "fox quick")
                             (0 + Retrieval.rrf (7 # 10) 1)%Q "fox quick" 1 0]))).
  - reflexivity.
  - simpl. constructor; [simpl; tauto | constructor].
Defined.

(* ================================================================== *)
(** * What a job leaves alone *)
(* ================================================================== *)

Section JobInvariant.
Import Ingest.

Variable lib : Ports.
Variable jid : string.
Variable did : Z.
Variable content source_type : string.
Variable inv : Db.Store -> Prop.

Hypothesis inv_progress :
  forall p d, In p [10; 30; 50; 80] ->
              inv d -> inv (update_job jid (set_progress Db.processing p) d).
Hypothesis inv_completed :
  forall d, inv d -> inv (update_job jid (set_completed (utcnow lib)) d).
Hypothesis inv_failed :
  forall e d, inv d -> inv (update_job jid (set_failed e) d).
Hypothesis inv_add_chunks : forall pairs d, inv d -> inv (add_chunks did pairs d).

Lemma process_document_inv (db : Db.Store) :
  inv db -> inv (snd (process_document lib db jid did content source_type)).
Proof.
  intros H. rewrite process_document_store.
  apply (preserves_try inv) with (s := mkSession db 0); [| |exact H].
  - unfold process_body.
    apply preserves_bind; [apply preserves_the_job | intros _].
    apply preserves_bind;
      [apply preserves_commit; intros d; apply inv_progress; simpl; tauto | intros _].
    apply preserves_bind; [apply preserves_lift | intros parsed].
    apply preserves_bind;
      [apply preserves_commit; intros d; apply inv_progress; simpl; tauto | intros _].
    apply preserves_bind;
      [apply preserves_commit; intros d; apply inv_progress; simpl; tauto | intros _].
    apply preserves_bind; [apply preserves_lift | intros embeddings].
    apply preserves_bind;
      [apply preserves_commit; intros d; apply inv_progress; simpl; tauto | intros _].
    apply preserves_bind; [apply preserves_commit, inv_add_chunks | intros _].
    apply preserves_commit, inv_completed.
  - intros e. unfold process_handler.
    apply preserves_bind; [apply preserves_the_job | intros _].
    apply preserves_commit, inv_failed.
Qed.

End JobInvariant.

Lemma find_job_other (db : Db.Store) (jid jid' : string)
  (f : Db.IngestJob -> Db.IngestJob) :
  (forall j, Db.job_id (f j) = Db.job_id j) -> jid' <> jid ->
  Db.find_job (Ingest.update_job jid f db) jid' = Db.find_job db jid'.
Proof.
  intros Hf Hne. unfold Db.find_job, Ingest.update_job. simpl.
  induction (Db.jobs db) as [|j js IH]; [reflexivity|]. simpl.
  destruct (String.eqb_spec (Db.job_id j) jid) as [E | E].
  - rewrite Hf. destruct (String.eqb_spec (Db.job_id j) jid'); [congruence | exact IH].
  - destruct (String.eqb (Db.job_id j) jid'); [reflexivity | exact IH].
Qed.

Lemma update_job_ids (db : Db.Store) (jid : string) (f : Db.IngestJob -> Db.IngestJob) :
  (forall j, Db.job_id (f j) = Db.job_id j) ->
  map Db.job_id (Db.jobs (Ingest.update_job jid f db)) = map Db.job_id (Db.jobs db).
Proof.
  intros Hf. unfold Ingest.update_job. simpl. rewrite map_map. apply map_ext.
  intros j. now destruct (String.eqb (Db.job_id j) jid).
Qed.

Lemma untouched_by_update (db d : Db.Store) (jid : string)
  (f : Db.IngestJob -> Db.IngestJob) :
  (forall j, Db.job_id (f j) = Db.job_id j) ->
  Db.collections d = Db.collections db
  /\ Db.documents d = Db.documents db
  /\ Db.queries d = Db.queries db
  /\ Db.query_chunks d = Db.query_chunks db
  /\ Db.next_document_id d = Db.next_document_id db
  /\ Db.next_query_id d = Db.next_query_id db
  /\ map Db.job_id (Db.jobs d) = map Db.job_id (Db.jobs db)
  /\ (forall other, other <> jid ->
         Status.get_job_status d other = Status.get_job_status db other) ->
  let d' := Ingest.update_job jid f d in
  Db.collections d' = Db.collections db
  /\ Db.documents d' = Db.documents db
  /\ Db.queries d' = Db.queries db
  /\ Db.query_chunks d' = Db.query_chunks db
  /\ Db.next_document_id d' = Db.next_document_id db
  /\ Db.next_query_id d' = Db.next_query_id db
  /\ map Db.job_id (Db.jobs d') = map Db.job_id (Db.jobs db)
  /\ (forall other, other <> jid ->
         Status.get_job_status d' other = Status.get_job_status db other).
Proof.
  intros Hf (H1 & H2 & H3 & H4 & H5 & H6 & H7 & H8). cbv zeta.
  repeat (split; [assumption|]). split.
  - now rewrite update_job_ids.
  - intros other Hne. rewrite <- (H8 other Hne). unfold Status.get_job_status.
    now rewrite find_job_other.
Qed.

(** X19.  A job changes its own job row and adds chunk rows, and nothing
    else: whatever fails, [process_document] leaves the collections, the
    documents, the saved queries and the document and query sequences as
    they were, neither adds nor removes a job row, and what
    [get_job_status] answers for any other job is unchanged. *)
Theorem process_document_touches_only_its_job :
  forall (lib : Ingest.Ports) (db : Db.Store) (job_id : string) (document_id : Z)
         (content source_type : string),
    let db' :=
      snd (Ingest.process_document lib db job_id document_id content source_type) in
    Db.collections db' = Db.collections db
    /\ Db.documents db' = Db.documents db
    /\ Db.queries db' = Db.queries db
    /\ Db.query_chunks db' = Db.query_chunks db
    /\ Db.next_document_id db' = Db.next_document_id db
    /\ Db.next_query_id db' = Db.next_query_id db
    /\ map Db.job_id (Db.jobs db') = map Db.job_id (Db.jobs db)
    /\ forall other, other <> job_id ->
                     Status.get_job_status db' other = Status.get_job_status db other.
Proof.
  intros lib db jid did content st. cbv zeta.
  apply (process_document_inv lib jid did content st
           (fun d =>
              Db.collections d = Db.collections db
              /\ Db.documents d = Db.documents db
              /\ Db.queries d = Db.queries db
              /\ Db.query_chunks d = Db.query_chunks db
              /\ Db.next_document_id d = Db.next_document_id db
              /\ Db.next_query_id d = Db.next_query_id db
              /\ map Db.job_id (Db.jobs d) = map Db.job_id (Db.jobs db)
              /\ forall other, other <> jid ->
                   Status.get_job_status d other = Status.get_job_status db other)).
  - intros p d _. apply untouched_by_update. reflexivity.
  - intros d. apply untouched_by_update. reflexivity.
  - intros e d. apply untouched_by_update. reflexivity.
  - intros pairs d H. exact H.
  - repeat split; reflexivity.
Qed.

(* ================================================================== *)
(** * A completed job has its chunks *)
(* ================================================================== *)

Section Triples.
Import Ingest.

Variable lib : Ports.

(** From a store with [P], the computation returns [a] in a store with
    [Q a], or raises in a store with [R]. *)
Definition triple {A} (P : Db.Store -> Prop) (m : M A)
  (Q : A -> Db.Store -> Prop) (R : Db.Store -> Prop) : Prop :=
  forall s, P (store s) ->
            match m s with
            | (Py.Ok a, s') => Q a (store s')
            | (Py.Raise _, s') => R (store s')
            end.

Lemma triple_bind {A B} (P : Db.Store -> Prop) (m : M A) (Q : A -> Db.Store -> Prop)
  (k : A -> M B) (Q' : B -> Db.Store -> Prop) (R : Db.Store -> Prop) :
  triple P m Q R -> (forall a, triple (Q a) (k a) Q' R) -> triple P (bindM m k) Q' R.
Proof.
  intros Hm Hk s H. unfold bindM. specialize (Hm s H).
  destruct (m s) as [[a | e] s']; [now apply Hk | exact Hm].
Qed.

Lemma triple_bind_lift {A B} (P : Db.Store -> Prop) (r : Py.result A) (k : A -> M B)
  (Q : B -> Db.Store -> Prop) (R : Db.Store -> Prop) :
  (forall d, P d -> R d) ->
  (forall a, r = Py.Ok a -> triple P (k a) Q R) ->
  triple P (bindM (lift r) k) Q R.
Proof.
  intros HR Hk s H. unfold bindM, lift. destruct r as [a | e]; [|now apply HR].
  now apply (Hk a).
Qed.

Lemma triple_the_job (P R : Db.Store -> Prop) (jid : string) :
  (forall d, P d -> R d) -> triple P (the_job jid) (fun _ => P) R.
Proof.
  intros HR s H. unfold the_job. destruct (Db.find_job _ _); [exact H | now apply HR].
Qed.

Lemma triple_commit (P : Db.Store -> Prop) (change : Db.Store -> Db.Store)
  (Q : unit -> Db.Store -> Prop) (R : Db.Store -> Prop) :
  (forall d, P d -> Q tt (change d)) -> (forall d, P d -> R d) ->
  triple P (commit lib change) Q R.
Proof.
  intros HQ HR s H. unfold commit. destruct (commit_fails lib _); simpl; auto.
Qed.

Lemma triple_try {A} (P : Db.Store -> Prop) (body : M A) (handler : string -> M A)
  (Q : A -> Db.Store -> Prop) (R R' : Db.Store -> Prop) :
  triple P body Q R -> (forall e, triple R (handler e) Q R') ->
  triple P (try_except body handler) Q R'.
Proof.
  intros Hb Hh s H. unfold try_except. specialize (Hb s H).
  destruct (body s) as [[a | e] s']; [exact Hb | now apply Hh].
Qed.

End Triples.

Lemma status_after_update (db : Db.Store) (jid : string)
  (f : Db.IngestJob -> Db.IngestJob) (st : Db.job_status) :
  (forall j, Db.job_id (f j) = Db.job_id j) ->
  (forall j, Db.status (f j) = st) ->
  Ingest.job_status_of (Ingest.update_job jid f db) jid
  = option_map (fun _ => st) (Db.find_job db jid).
Proof.
  intros Hid Hst. unfold Ingest.job_status_of. rewrite find_job_update by exact Hid.
  destruct (Db.find_job db jid); simpl; [now rewrite Hst | reflexivity].
Qed.

Section CompletedJob.
Import Ingest.

Variable lib : Ports.
Variable db : Db.Store.
Variable jid : string.
Variable did : Z.
Variable content source_type : string.

Let open (d : Db.Store) : Prop := job_status_of d jid <> Some Db.completed.

Let untouched (d : Db.Store) : Prop :=
  open d /\ Db.chunks d = Db.chunks db /\ Db.next_chunk_id d = Db.next_chunk_id db.

Let stored (d : Db.Store) : Prop :=
  exists parsed embeddings,
    parse_document lib content source_type = Py.Ok parsed
    /\ Embeddings.embed_batch (embedding_service lib)
         (map Chunking.text
              (Chunking.chunk_text (chunker lib) (parsed_text parsed))) 32
       = Py.Ok embeddings
    /\ Db.chunks d
       = Db.chunks db
         ++ chunk_rows (Db.next_chunk_id db) did
              (combine (Chunking.chunk_text (chunker lib) (parsed_text parsed))
                       embeddings).

Lemma open_progress (p : Z) (d : Db.Store) :
  open (update_job jid (set_progress Db.processing p) d).
Proof.
  unfold open. rewrite (status_after_update d jid _ Db.processing) by reflexivity.
  now destruct (Db.find_job d jid).
Qed.

Lemma open_failed (e : string) (d : Db.Store) :
  open (update_job jid (set_failed e) d).
Proof.
  unfold open. rewrite (status_after_update d jid _ Db.failed) by reflexivity.
  now destruct (Db.find_job d jid).
Qed.

Lemma untouched_progress (p : Z) (d : Db.Store) :
  untouched d -> untouched (update_job jid (set_progress Db.processing p) d).
Proof. intros (_ & H2 & H3). split; [apply open_progress | split; assumption]. Qed.

Lemma untouched_open (d : Db.Store) : untouched d -> open d.
Proof. now intros (H & _). Qed.

Lemma step_job : triple untouched (the_job jid) (fun _ => untouched) open.
Proof. apply triple_the_job, untouched_open. Qed.

Lemma step_progress (p : Z) :
  triple untouched (commit lib (update_job jid (set_progress Db.processing p)))
         (fun _ => untouched) open.
Proof. apply triple_commit; [apply untouched_progress | apply untouched_open]. Qed.

Lemma body_stores :
  triple untouched (process_body lib jid did content source_type)
         (fun _ => stored) open.
Proof.
  unfold process_body.
  eapply triple_bind; [apply step_job | intros ?; cbv beta].
  eapply triple_bind; [apply step_progress | intros ?; cbv beta].
  apply triple_bind_lift; [apply untouched_open | intros parsed Hparsed].
  eapply triple_bind; [apply step_progress | intros ?; cbv beta].
  eapply triple_bind; [apply step_progress | intros ?; cbv beta].
  apply triple_bind_lift; [apply untouched_open | intros embeddings Hemb].
  eapply triple_bind; [apply step_progress | intros ?; cbv beta].
  apply triple_bind with
    (Q := fun _ d => open d /\ Db.chunks d
                     = Db.chunks db
                       ++ chunk_rows (Db.next_chunk_id db) did
                            (combine (Chunking.chunk_text (chunker lib) (parsed_text parsed))
                                     embeddings)).
  - apply triple_commit; [|apply untouched_open].
    intros d (H1 & H2 & H3). split; [exact H1|]. simpl. now rewrite H2, H3.
  - intros ?; cbv beta. apply triple_commit.
    + intros d (_ & H). exists parsed, embeddings. repeat split; assumption.
    + now intros d (H & _).
Qed.

Lemma handler_keeps_open (e : string) :
  triple open (process_handler lib jid e) (fun _ d => open d \/ stored d)
         (fun d => open d \/ stored d).
Proof.
  unfold process_handler.
  eapply triple_bind; [apply triple_the_job; intros d H; left; exact H | intros ?; cbv beta].
  apply triple_commit; intros d H; left; [apply open_failed | exact H].
Qed.

Lemma process_document_open_or_stored :
  open db ->
  let db' := snd (process_document lib db jid did content source_type) in
  open db' \/ stored db'.
Proof.
  intros H. cbv zeta. rewrite process_document_store.
  assert (Hb : triple untouched (process_body lib jid did content source_type)
                      (fun _ d => open d \/ stored d) open).
  { intros s Hs. pose proof (body_stores s Hs) as Hr.
    destruct (process_body _ _ _ _ _ s) as [[a | e] s']; [now right | exact Hr]. }
  pose proof (triple_try untouched (process_body lib jid did content source_type)
                (process_handler lib jid) (fun _ d => open d \/ stored d) open
                (fun d => open d \/ stored d) Hb handler_keeps_open
                (mkSession db 0)) as T.
  simpl in T. specialize (T (conj H (conj eq_refl eq_refl))).
  destruct (try_except _ _ _) as [[a | e] s']; exact T.
Qed.

End CompletedJob.

(** X20.  A job is reported completed only when its chunk rows are
    stored: whichever commits the database refuses, if the job was not
    completed before [process_document] and is completed after it, then
    the text was parsed, the embeddings were computed, and the chunk
    table is the one before the job followed by one row for each chunk
    of the chunker, paired with its embedding. *)
Theorem completed_job_has_its_chunks :
  forall (lib : Ingest.Ports) (db : Db.Store) (job_id : string) (document_id : Z)
         (content source_type : string),
    Ingest.job_status_of db job_id <> Some Db.completed ->
    Ingest.job_status_of
      (snd (Ingest.process_document lib db job_id document_id content source_type))
      job_id = Some Db.completed ->
    exists parsed embeddings,
      Ingest.parse_document lib content source_type = Py.Ok parsed
      /\ Embeddings.embed_batch (Ingest.embedding_service lib)
           (map Chunking.text
                (Chunking.chunk_text (Ingest.chunker lib) (Ingest.parsed_text parsed))) 32
         = Py.Ok embeddings
      /\ Db.chunks
           (snd (Ingest.process_document lib db job_id document_id content source_type))
         = Db.chunks db
           ++ Ingest.chunk_rows (Db.next_chunk_id db) document_id
                (combine (Chunking.chunk_text (Ingest.chunker lib)
                                              (Ingest.parsed_text parsed))
                         embeddings).
Proof.
  intros lib db jid did content st Hopen Hdone.
  destruct (process_document_open_or_stored lib db jid did content st Hopen) as [H | H].
  - contradiction.
  - exact H.
Qed.

Lemma completed_job_has_its_chunks_witness :
  exists parsed embeddings,
    Ingest.parse_document (demo_ports no_refusal) "http://example.org/fox" "url"
    = Py.Ok parsed
    /\ Embeddings.embed_batch (Ingest.embedding_service (demo_ports no_refusal))
         (map Chunking.text
              (Chunking.chunk_text (Ingest.chunker (demo_ports no_refusal))
                                   (Ingest.parsed_text parsed))) 32
       = Py.Ok embeddings
    /\ Db.chunks
         (snd (Ingest.process_document (demo_ports no_refusal)
                 (db_of (Ingest.ingest_url "job-1" base_db fox_request))
                 "job-1" 1 "http://example.org/fox" "url"))
       = Db.chunks (db_of (Ingest.ingest_url "job-1" base_db fox_request))
         ++ Ingest.chunk_rows
              (Db.next_chunk_id (db_of (Ingest.ingest_url "job-1" base_db fox_request)))
              1
              (combine (Chunking.chunk_text (Ingest.chunker (demo_ports no_refusal))
                                            (Ingest.parsed_text parsed))
                       embeddings).
Proof.
  apply (completed_job_has_its_chunks (demo_ports no_refusal)
           (db_of (Ingest.ingest_url "job-1" base_db fox_request))
           "job-1" 1 "http://example.org/fox" "url").
  - discriminate.
  - reflexivity.
Defined.

(* ================================================================== *)
(** * The endpoints and their jobs *)
(* ================================================================== *)

Lemma run_task_keeps_documents (lib : Ingest.Ports) (db : Db.Store)
  (t : option Ingest.Task) :
  Db.collections (Ingest.run_task lib db t) = Db.collections db
  /\ Db.documents (Ingest.run_task lib db t) = Db.documents db.
Proof.
  destruct t as [t|]; [|split; reflexivity]. unfold Ingest.run_task.
  apply (process_document_inv lib (Ingest.task_job_id t) (Ingest.task_document_id t)
           (Ingest.task_content t) (Ingest.task_source_type t)
           (fun d => Db.collections d = Db.collections db
                     /\ Db.documents d = Db.documents db)).
  - intros p d _ H. exact H.
  - intros d H. exact H.
  - intros e d H. exact H.
  - intros pairs d H. exact H.
  - split; reflexivity.
Qed.

Lemma find_app_last {A} (p : A -> bool) (l : list A) (x : A) :
  p x = true -> exists y, find p (l ++ [x]) = Some y.
Proof.
  intros H. induction l as [|a l IH]; simpl.
  - rewrite H. now exists x.
  - destruct (p a); [now exists a | exact IH].
Qed.

Lemma nodup_snoc {A} (l : list A) (x : A) :
  ~ In x l -> NoDup l -> NoDup (l ++ [x]).
Proof.
  intros Hx Hl. induction l as [|a l IH]; simpl.
  - constructor; [intros [] | constructor].
  - inversion Hl as [|? ? Ha Hl']; subst. constructor.
    + rewrite in_app_iff. intros [H | [H | []]]; [contradiction|].
      apply Hx. now left.
    + apply IH; [|exact Hl']. intros H. apply Hx. now right.
Qed.

(** X21.  An ingestion request is either rejected, leaving the store as
    it was and queuing nothing, or it adds exactly one document row and one
    pending job row for that document, and queues one task for that job
    and that document.  This holds for [upload_document] and for
    [ingest_url]. *)
Theorem ingestion_request_adds_one_document_and_job :
  forall (lib : Ingest.Ports) (uuid : string) (db : Db.Store) (collection_id : Z)
         (filename content : string) (request : Ingest.IngestRequest),
    let accepted (r : Py.result Ingest.IngestResponse * Db.Store * option Ingest.Task) :=
      exists resp d t,
        r = (Py.Ok resp,
             Ingest.set_jobs
               (Db.mkStore (Db.collections db) (Db.documents db ++ [d]) (Db.chunks db)
                           (Db.jobs db) (Db.queries db) (Db.query_chunks db)
                           (Db.next_document_id db + 1) (Db.next_chunk_id db)
                           (Db.next_query_id db))
               (Db.jobs db
                ++ [Db.mkJob uuid (Db.doc_collection_id d) (Db.doc_id d) Db.pending 0
                             None None]),
             Some t)
        /\ Ingest.resp_job_id resp = uuid
        /\ Ingest.task_job_id t = uuid
        /\ Ingest.task_document_id t = Db.doc_id d
        /\ Db.doc_id d = Db.next_document_id db in
    let rejected (r : Py.result Ingest.IngestResponse * Db.Store * option Ingest.Task) :=
      exists e, r = (Py.Raise e, db, None) in
    (accepted (Ingest.upload_document lib uuid db collection_id filename content)
     \/ rejected (Ingest.upload_document lib uuid db collection_id filename content))
    /\ (accepted (Ingest.ingest_url uuid db request)
        \/ rejected (Ingest.ingest_url uuid db request)).
Proof.
  intros lib uuid db cid filename content request. cbv zeta. split.
  - unfold Ingest.upload_document.
    destruct (Db.find_collection db cid); [|right; eexists; reflexivity].
    destruct (if Ingest.endswith filename ".pdf" then _ else _) as [parsed | e];
      [|right; eexists; reflexivity].
    destruct (Db.find_document_by_checksum db _); [right; eexists; reflexivity|].
    left. eexists _, (Db.mkDocument _ _ _ _ _ _), _. split; [reflexivity|]. repeat split.
  - unfold Ingest.ingest_url.
    destruct (Ingest.url request) as [[|c u]|]; try (right; eexists; reflexivity).
    destruct (Db.find_collection db _); [|right; eexists; reflexivity].
    left. eexists _, (Db.mkDocument _ _ _ _ _ _), _. split; [reflexivity|]. repeat split.
Qed.

Lemma find_job_add_job (db : Db.Store) (jid : string) (cid did : Z) :
  Db.find_job db jid = None ->
  Db.find_job (Ingest.add_job db jid cid did) jid
  = Some (Db.mkJob jid cid did Db.pending 0 None None).
Proof.
  intros H. unfold Db.find_job, Ingest.add_job. simpl.
  rewrite (find_app_none _ _ _ H). simpl. now rewrite String.eqb_refl.
Qed.

Lemma find_job_add_chunks (d : Db.Store) (did : Z)
  (pairs : list (Chunking.Chunk * Embeddings.embedding)) (jid : string) :
  Db.find_job (Ingest.add_chunks did pairs d) jid = Db.find_job d jid.
Proof. reflexivity. Qed.

(** X22.  When no job of the store has the new job's id and the database
    refuses no commit, a URL that [ingest_url] accepts is first reported
    pending with progress 0, and after its task has run it is reported
    either completed, with progress 100 and the completion time, or
    failed, with an error message and the progress at which it stopped:
    10 when the page could not be parsed, 50 when the embeddings could
    not be computed. *)
Theorem url_job_runs_to_an_end :
  forall (lib : Ingest.Ports) (uuid : string) (db : Db.Store)
         (request : Ingest.IngestRequest) (resp : Ingest.IngestResponse)
         (db' : Db.Store) (task : option Ingest.Task),
    (forall n, Ingest.commit_fails lib n = false) ->
    Db.find_job db uuid = None ->
    Ingest.ingest_url uuid db request = (Py.Ok resp, db', task) ->
    Status.get_job_status db' uuid
    = Py.Ok (Status.mkJobStatus uuid Db.pending 0 None None)
    /\ exists e,
         let failed_at p :=
           Py.Ok (Status.mkJobStatus uuid Db.failed p (Some e) None) in
         let report := Status.get_job_status (Ingest.run_task lib db' task) uuid in
         report = Py.Ok (Status.mkJobStatus uuid Db.completed 100 None
                                            (Some (Ingest.utcnow lib)))
         \/ report = failed_at 10
         \/ report = failed_at 50.
Proof.
  intros lib uuid db request resp db' task Hno Hfresh E.
  unfold Ingest.ingest_url in E.
  destruct (Ingest.url request) as [[|c u]|]; try discriminate.
  destruct (Db.find_collection db _); [|discriminate].
  unfold Ingest.add_document in E. injection E as <- <- <-.
  match goal with
  | |- Status.get_job_status (Ingest.add_job ?d _ ?cid ?did) _ = _ /\ _ =>
      pose proof (find_job_add_job d uuid cid did Hfresh) as Hj
  end.
  split; [unfold Status.get_job_status; now rewrite Hj|].
  cbv zeta. unfold Ingest.run_task. cbn [Ingest.task_job_id Ingest.task_document_id
                                         Ingest.task_content Ingest.task_source_type].
  rewrite (process_document_no_fault lib _ uuid _ _ _ _ Hno Hj).
  destruct (Ingest.parse_document lib _ _) as [parsed | e].
  - cbv zeta. destruct (Embeddings.embed_batch _ _ 32) as [embeddings | e].
    + exists "". left. unfold Status.get_job_status. cbn [snd].
      rewrite find_job_completed, find_job_add_chunks. unfold progressed.
      rewrite !find_job_progress, Hj. reflexivity.
    + exists e. right. right. unfold Status.get_job_status, progressed. cbn [snd].
      rewrite find_job_failed, !find_job_progress, Hj. reflexivity.
  - exists e. right. left. unfold Status.get_job_status, progressed. cbn [snd].
    rewrite find_job_failed, !find_job_progress, Hj. reflexivity.
Qed.

Lemma url_job_runs_to_an_end_witness :
  Status.get_job_status (db_of (Ingest.ingest_url "job-1" base_db fox_request)) "job-1"
  = Py.Ok (Status.mkJobStatus "job-1" Db.pending 0 None None)
  /\ exists e,
       let failed_at p :=
         Py.Ok (Status.mkJobStatus "job-1" Db.failed p (Some e) None) in
       let report :=
         Status.get_job_status
           (Ingest.run_task (demo_ports no_refusal)
              (db_of (Ingest.ingest_url "job-1" base_db fox_request))
              (task_of (Ingest.ingest_url "job-1" base_db fox_request)))
           "job-1" in
       report = Py.Ok (Status.mkJobStatus "job-1" Db.completed 100 None
                                          (Some (Ingest.utcnow (demo_ports no_refusal))))
       \/ report = failed_at 10
       \/ report = failed_at 50.
Proof.
  apply (url_job_runs_to_an_end (demo_ports no_refusal) "job-1" base_db fox_request
           (Ingest.mkIngestResponse "job-1" "pending"
              "URL 'http://example.org/fox' queued for processing")).
  - reflexivity.
  - reflexivity.
  - reflexivity.
Defined.

(** X23.  Uploading a text again is refused, whatever the file is called
    and whichever collection it is sent to: after [upload_document] has
    accepted a file that is not a PDF, and whether or not its task has
    succeeded, [upload_document] answers a second file of the same content
    with 400 and leaves the store as it is. *)
Theorem second_upload_is_rejected :
  forall (lib : Ingest.Ports) (uuid uuid2 : string) (db : Db.Store)
         (collection_id collection_id2 : Z) (filename filename2 content : string)
         (resp : Ingest.IngestResponse) (db1 : Db.Store) (task : option Ingest.Task)
         (c2 : Db.Collection),
    Ingest.endswith filename ".pdf" = false ->
    Ingest.endswith filename2 ".pdf" = false ->
    Ingest.upload_document lib uuid db collection_id filename content
    = (Py.Ok resp, db1, task) ->
    Db.find_collection db collection_id2 = Some c2 ->
    Ingest.upload_document lib uuid2 (Ingest.run_task lib db1 task) collection_id2
                           filename2 content
    = (Py.Raise "400: Document already exists", Ingest.run_task lib db1 task, None).
Proof.
  intros lib uuid uuid2 db cid cid2 filename filename2 content resp db1 task c2
         Hf Hf2 E Hc2.
  destruct (run_task_keeps_documents lib db1 task) as [Hcols Hdocs].
  unfold Ingest.upload_document in E.
  destruct (Db.find_collection db cid); [|discriminate].
  rewrite Hf in E. cbn [Ingest.parse_text Ingest.parsed_text] in E.
  destruct (Db.find_document_by_checksum db _); [discriminate|].
  unfold Ingest.add_document in E. injection E as _ <- <-.
  unfold Ingest.upload_document.
  unfold Db.find_collection in *. rewrite Hcols. cbn [Db.collections Ingest.add_job
                                                      Ingest.set_jobs].
  rewrite Hc2, Hf2. cbn [Ingest.parse_text Ingest.parsed_text].
  unfold Db.find_document_by_checksum. rewrite Hdocs.
  cbn [Db.documents Ingest.add_job Ingest.set_jobs].
  destruct (find_app_last
              (fun d => Db.option_eqb (Db.doc_checksum d)
                                      (Some (Ingest.calculate_checksum lib content)))
              (Db.documents db)
              (Db.mkDocument (Db.next_document_id db) cid filename "text" None
                             (Some (Ingest.calculate_checksum lib content))))
    as [d Hd].
  { simpl. apply String.eqb_refl. }
  now rewrite Hd.
Qed.

Lemma second_upload_is_rejected_witness :
  Ingest.upload_document (demo_ports no_refusal) "job-2" after_upload 1 "copy.md"
                         "quick fox"
  = (Py.Raise "400: Document already exists", after_upload, None).
Proof.
  apply (second_upload_is_rejected (demo_ports no_refusal) "job-1" "job-2" base_db 1 1
           "fox.txt" "copy.md" "quick fox"
           (Ingest.mkIngestResponse "job-1" "pending"
              "Document 'fox.txt' queued for processing")
           (db_of (Ingest.upload_document (demo_ports no_refusal) "job-1" base_db 1
                                          "fox.txt" "quick fox"))
           (task_of (Ingest.upload_document (demo_ports no_refusal) "job-1" base_db 1
                                            "fox.txt" "quick fox"))
           (Db.mkCollection 1 "animals")).
  - reflexivity.
  - reflexivity.
  - reflexivity.
  - reflexivity.
Defined.

Definition consistent (s : Status.JobStatus) : Prop :=
  (Status.status s = Db.completed ->
   Status.progress s = 100 /\ Status.completed_at s <> None)
  /\ (Status.status s = Db.failed -> Status.error_message s <> None)
  /\ 0 <= Status.progress s <= 100.

Lemma get_job_status_update (d : Db.Store) (jid : string)
  (f : Db.IngestJob -> Db.IngestJob) (s : Status.JobStatus) :
  (forall j, Db.job_id (f j) = Db.job_id j) ->
  Status.get_job_status (Ingest.update_job jid f d) jid = Py.Ok s ->
  exists j, Db.find_job d jid = Some j
            /\ s = Status.mkJobStatus (Db.job_id (f j)) (Db.status (f j))
                                      (Db.progress (f j)) (Db.error_message (f j))
                                      (Db.completed_at (f j)).
Proof.
  intros Hf. unfold Status.get_job_status. rewrite find_job_update by exact Hf.
  destruct (Db.find_job d jid) as [j|]; simpl; [|discriminate].
  intros [= <-]. now exists j.
Qed.

(** X24.  What [get_job_status] reports stays consistent through
    [process_document], whichever commits the database refuses: if
    before the job a report of completed comes with progress 100 and a
    completion time, a report of failed with an error message, and the
    progress is between 0 and 100, then the same holds after it. *)
Theorem job_report_stays_consistent :
  forall (lib : Ingest.Ports) (db : Db.Store) (job_id : string) (document_id : Z)
         (content source_type : string) (before after : Status.JobStatus),
    Status.get_job_status db job_id = Py.Ok before ->
    consistent before ->
    Status.get_job_status
      (snd (Ingest.process_document lib db job_id document_id content source_type))
      job_id = Py.Ok after ->
    consistent after.
Proof.
  intros lib db jid did content st before after Hb Hcb.
  apply (process_document_inv lib jid did content st
           (fun d => forall s, Status.get_job_status d jid = Py.Ok s -> consistent s)).
  - intros p d Hp _ s Hs.
    apply get_job_status_update in Hs; [|reflexivity]. destruct Hs as (j & _ & ->).
    unfold consistent. simpl. split; [discriminate|]. split; [discriminate|].
    simpl in Hp. lia.
  - intros d _ s Hs.
    apply get_job_status_update in Hs; [|reflexivity]. destruct Hs as (j & _ & ->).
    unfold consistent. simpl. split; [split; [reflexivity | discriminate]|].
    split; [discriminate | lia].
  - intros e d H s Hs.
    apply get_job_status_update in Hs; [|reflexivity]. destruct Hs as (j & Hj & ->).
    unfold consistent. simpl. split; [discriminate|]. split; [discriminate|].
    assert (Hc : consistent (Status.mkJobStatus (Db.job_id j) (Db.status j)
                               (Db.progress j) (Db.error_message j)
                               (Db.completed_at j))).
    { apply H. unfold Status.get_job_status. now rewrite Hj. }
    apply Hc.
  - intros pairs d H. exact H.
  - intros s Hs. rewrite Hb in Hs. now injection Hs as <-.
Qed.

Lemma job_report_stays_consistent_witness :
  consistent (Status.mkJobStatus "job-1" Db.failed 80 (Some "StorageError: commit failed")
                                 None).
Proof.
  apply (job_report_stays_consistent (demo_ports sixth_refused)
           (db_of (Ingest.ingest_url "job-1" base_db fox_request))
           "job-1" 1 "http://example.org/fox" "url"
           (Status.mkJobStatus "job-1" Db.pending 0 None None)).
  - reflexivity.
  - unfold consistent. simpl. split; [discriminate|]. split; [discriminate | lia].
  - reflexivity.
Defined.

(* ================================================================== *)
(** * Collections *)
(* ================================================================== *)

Lemma filter_snoc {A} (p : A -> bool) (l : list A) (x : A) :
  filter p (l ++ [x]) = filter p l ++ (if p x then [x] else []).
Proof. rewrite filter_app. reflexivity. Qed.

(** X25.  A document ingested by URL is counted in its collection from
    the moment the request is accepted, and stays counted whether its job
    succeeds or fails: [document_count] of the request's collection is one
    more than before, and that of every other collection is unchanged. *)
Theorem url_document_is_counted :
  forall (lib : Ingest.Ports) (uuid : string) (db : Db.Store)
         (request : Ingest.IngestRequest) (resp : Ingest.IngestResponse)
         (db' : Db.Store) (task : option Ingest.Task) (cid : Z),
    Ingest.ingest_url uuid db request = (Py.Ok resp, db', task) ->
    Collections.count_documents (Ingest.run_task lib db' task) cid
    = Collections.count_documents db cid
      + (if cid =? Ingest.collection_id request then 1 else 0)
    /\ Collections.count_documents db' cid
       = Collections.count_documents (Ingest.run_task lib db' task) cid.
Proof.
  intros lib uuid db request resp db' task cid E.
  destruct (run_task_keeps_documents lib db' task) as [_ Hdocs].
  unfold Collections.count_documents. rewrite Hdocs. split; [|reflexivity].
  unfold Ingest.ingest_url in E.
  destruct (Ingest.url request) as [[|c u]|]; try discriminate.
  destruct (Db.find_collection db _); [|discriminate].
  unfold Ingest.add_document in E. injection E as _ <- _.
  cbn [Db.documents Ingest.add_job Ingest.set_jobs].
  rewrite filter_snoc, length_app. cbn [Db.doc_collection_id].
  rewrite (Z.eqb_sym cid).
  destruct (Ingest.collection_id request =? cid); simpl; lia.
Qed.

Lemma url_document_is_counted_witness :
  Collections.count_documents
    (Ingest.run_task (demo_ports no_refusal)
       (db_of (Ingest.ingest_url "job-1" base_db blank_request))
       (task_of (Ingest.ingest_url "job-1" base_db blank_request))) 1
  = Collections.count_documents base_db 1
    + (if 1 =? Ingest.collection_id blank_request then 1 else 0)
  /\ Collections.count_documents
       (db_of (Ingest.ingest_url "job-1" base_db blank_request)) 1
     = Collections.count_documents
         (Ingest.run_task (demo_ports no_refusal)
            (db_of (Ingest.ingest_url "job-1" base_db blank_request))
            (task_of (Ingest.ingest_url "job-1" base_db blank_request))) 1.
Proof.
  apply (url_document_is_counted (demo_ports no_refusal) "job-1" base_db blank_request
           (Ingest.mkIngestResponse "job-1" "pending"
              "URL 'http://example.org/blank' queued for processing")).
  reflexivity.
Defined.

Lemma find_by_key_nodup {A} (key : A -> Z) (l : list A) (x : A) :
  NoDup (map key l) -> In x l -> find (fun y => key y =? key x) l = Some x.
Proof.
  induction l as [|a l IH]; intros Hnd Hin; [contradiction|].
  simpl in Hnd. inversion Hnd as [|? ? Ha Hl]; subst. simpl.
  destruct Hin as [-> | Hin]; [now rewrite Z.eqb_refl|].
  destruct (Z.eqb_spec (key a) (key x)) as [E | E]; [|now apply IH].
  exfalso. apply Ha. rewrite E. now apply in_map.
Qed.

(** X26.  [list_collections] and [get_collection] agree: when no two
    collections share an id, every entry of the list is what
    [get_collection] answers for the entry's id, and the list has one entry
    for each collection. *)
Theorem list_collections_agrees_with_get :
  forall (db : Db.Store),
    NoDup (map Db.collection_id_of (Db.collections db)) ->
    Forall (fun r => Collections.get_collection db (Collections.id r) = Py.Ok r)
           (Collections.list_collections db)
    /\ map Collections.id (Collections.list_collections db)
       = map Db.collection_id_of (Db.collections db).
Proof.
  intros db Hnd. unfold Collections.list_collections. split.
  - apply Forall_forall. intros r Hr. apply in_map_iff in Hr.
    destruct Hr as (col & <- & Hcol). cbn [Collections.id].
    unfold Collections.get_collection, Db.find_collection.
    now rewrite (find_by_key_nodup Db.collection_id_of _ col Hnd Hcol).
  - rewrite map_map. reflexivity.
Qed.

Definition two_collections : Db.Store :=
  Db.mkStore [Db.mkCollection 1 "animals"; Db.mkCollection 2 "plants"]
             [Db.mkDocument 1 2 "Ferns" "url" (Some "http://example.org/ferns") None]
             [] [] [] [] 2 1 1.

Lemma list_collections_agrees_with_get_witness :
  Forall (fun r => Collections.get_collection two_collections (Collections.id r) = Py.Ok r)
         (Collections.list_collections two_collections)
  /\ map Collections.id (Collections.list_collections two_collections)
     = map Db.collection_id_of (Db.collections two_collections).
Proof.
  apply (list_collections_agrees_with_get two_collections).
  simpl. constructor; [simpl; lia|]. constructor; [simpl; tauto | constructor].
Defined.

Lemma find_by_name_none (db : Db.Store) (n : string) :
  Collections.find_by_name db n = None ->
  ~ In n (map Db.collection_name (Db.collections db)).
Proof.
  intros H Hin. apply in_map_iff in Hin. destruct Hin as (c & E & Hc).
  apply (find_none _ _ H) in Hc. rewrite E, String.eqb_refl in Hc. discriminate.
Qed.

(** X27.  [create_collection] keeps the names of the collections
    distinct: from a store in which no two collections share a name it
    gives such a store, in which a collection of the requested name
    exists, whether it was there or has been created, so that creating the
    name again is refused and changes nothing. *)
Theorem create_collection_keeps_names_distinct :
  forall (new_id new_id2 : Z) (db : Db.Store) (n : string),
    NoDup (map Db.collection_name (Db.collections db)) ->
    let db' := snd (Collections.create_collection new_id db n) in
    NoDup (map Db.collection_name (Db.collections db'))
    /\ In n (map Db.collection_name (Db.collections db'))
    /\ Collections.create_collection new_id2 db' n
       = (Py.Raise "400: Collection name already exists", db').
Proof.
  intros new_id new_id2 db n Hnd. cbv zeta.
  destruct (Collections.find_by_name db n) as [c|] eqn:E.
  - assert (Hs : snd (Collections.create_collection new_id db n) = db)
      by (unfold Collections.create_collection; now rewrite E).
    rewrite Hs. split; [exact Hnd|]. split.
    + unfold Collections.find_by_name in E. apply find_some in E.
      destruct E as [Hin Hn]. apply String.eqb_eq in Hn. rewrite <- Hn.
      now apply in_map.
    + unfold Collections.create_collection. now rewrite E.
  - assert (Hs : snd (Collections.create_collection new_id db n)
                 = Db.mkStore (Db.collections db ++ [Db.mkCollection new_id n])
                              (Db.documents db) (Db.chunks db) (Db.jobs db)
                              (Db.queries db) (Db.query_chunks db)
                              (Db.next_document_id db) (Db.next_chunk_id db)
                              (Db.next_query_id db))
      by (unfold Collections.create_collection; now rewrite E).
    rewrite Hs. cbn [Db.collections]. rewrite map_app. cbn [map Db.collection_name].
    split; [apply nodup_snoc; [now apply find_by_name_none | exact Hnd]|].
    split; [apply in_app_iff; right; now left|].
    unfold Collections.create_collection, Collections.find_by_name.
    cbn [Db.collections]. unfold Collections.find_by_name in E.
    rewrite (find_app_none _ _ _ E). simpl. now rewrite String.eqb_refl.
Qed.

Lemma create_collection_keeps_names_distinct_witness :
  let db' := snd (Collections.create_collection 3 two_collections "fungi") in
  NoDup (map Db.collection_name (Db.collections db'))
  /\ In "fungi" (map Db.collection_name (Db.collections db'))
  /\ Collections.create_collection 4 db' "fungi"
     = (Py.Raise "400: Collection name already exists", db').
Proof.
  apply (create_collection_keeps_names_distinct 3 4 two_collections "fungi").
  simpl. constructor; [simpl; intros [H | []]; discriminate H|].
  constructor; [simpl; tauto | constructor].
Defined.
